(** * Multipart uploads of the XL object layer (xl-v1-multipart.go)

    A shallow embedding of the multipart coordinator: [newMultipartUpload],
    [putObjectPart], [listObjectParts], [CompleteMultipartUpload] and
    [abortMultipartUpload], as state-passing functions over the namespace
    the Go code manipulates through its storage disks.

    The disk fan-out ([readAllXLMetadata], [writeUniqueXLMetadata],
    [renameObject], the erasure writer, ...) is not part of
    xl-v1-multipart.go.  It is represented by its quorum view: one logical
    copy of every file, and a fault plan that tells which storage primitive
    fails during a call. *)

From Stdlib.Strings Require Import Byte Ascii.
From stdpp Require Import gmap strings list fin_maps pretty sorting.

Open Scope Z_scope.

(** ** crypto/md5 and encoding/hex (Go standard library) *)

Module MD5.

Definition w32 (x : Z) : Z := x mod 2 ^ 32.

Definition rotl32 (x s : Z) : Z :=
  w32 (Z.lor (Z.shiftl x s) (Z.shiftr x (32 - s))).

Definition not32 (x : Z) : Z := Z.lxor x 0xffffffff.

Definition K : list Z :=
  [ 0xd76aa478; 0xe8c7b756; 0x242070db; 0xc1bdceee; 0xf57c0faf; 0x4787c62a;
    0xa8304613; 0xfd469501; 0x698098d8; 0x8b44f7af; 0xffff5bb1; 0x895cd7be;
    0x6b901122; 0xfd987193; 0xa679438e; 0x49b40821; 0xf61e2562; 0xc040b340;
    0x265e5a51; 0xe9b6c7aa; 0xd62f105d; 0x02441453; 0xd8a1e681; 0xe7d3fbc8;
    0x21e1cde6; 0xc33707d6; 0xf4d50d87; 0x455a14ed; 0xa9e3e905; 0xfcefa3f8;
    0x676f02d9; 0x8d2a4c8a; 0xfffa3942; 0x8771f681; 0x6d9d6122; 0xfde5380c;
    0xa4beea44; 0x4bdecfa9; 0xf6bb4b60; 0xbebfbc70; 0x289b7ec6; 0xeaa127fa;
    0xd4ef3085; 0x04881d05; 0xd9d4d039; 0xe6db99e5; 0x1fa27cf8; 0xc4ac5665;
    0xf4292244; 0x432aff97; 0xab9423a7; 0xfc93a039; 0x655b59c3; 0x8f0ccc92;
    0xffeff47d; 0x85845dd1; 0x6fa87e4f; 0xfe2ce6e0; 0xa3014314; 0x4e0811a1;
    0xf7537e82; 0xbd3af235; 0x2ad7d2bb; 0xeb86d391 ].

Definition S : list Z :=
  [ 7; 12; 17; 22; 7; 12; 17; 22; 7; 12; 17; 22; 7; 12; 17; 22;
    5; 9; 14; 20; 5; 9; 14; 20; 5; 9; 14; 20; 5; 9; 14; 20;
    4; 11; 16; 23; 4; 11; 16; 23; 4; 11; 16; 23; 4; 11; 16; 23;
    6; 10; 15; 21; 6; 10; 15; 21; 6; 10; 15; 21; 6; 10; 15; 21 ].

(** The four chaining words A, B, C, D. *)
Definition digest : Type := (Z * Z * Z * Z)%type.

Definition init : digest := (0x67452301, 0xefcdab89, 0x98badcfe, 0x10325476).

Definition round (M : list Z) (st : digest) (i : nat) : digest :=
  let '(a, b, c, d) := st in
  let iz := Z.of_nat i in
  let '(f, g) :=
    if iz <? 16 then (Z.lor (Z.land b c) (Z.land (not32 b) d), iz)
    else if iz <? 32 then
      (Z.lor (Z.land d b) (Z.land (not32 d) c), (5 * iz + 1) mod 16)
    else if iz <? 48 then (Z.lxor b (Z.lxor c d), (3 * iz + 5) mod 16)
    else (Z.lxor c (Z.lor b (not32 d)), (7 * iz) mod 16) in
  let f' := w32 (f + a + nth i K 0 + nth (Z.to_nat g) M 0) in
  (d, w32 (b + rotl32 f' (nth i S 0)), b, c).

Fixpoint le_word (bs : list Z) : Z :=
  match bs with
  | [] => 0
  | b :: r => b + 256 * le_word r
  end.

Fixpoint words (n : nat) (bs : list Z) : list Z :=
  match n with
  | O => []
  | Datatypes.S n' => le_word (take 4 bs) :: words n' (drop 4 bs)
  end.

Definition block (st : digest) (bs : list Z) : digest :=
  let M := words 16 bs in
  let '(a, b, c, d) := st in
  let '(a', b', c', d') := fold_left (round M) (seq 0 64) st in
  (w32 (a + a'), w32 (b + b'), w32 (c + c'), w32 (d + d')).

Fixpoint blocks (fuel : nat) (st : digest) (bs : list Z) : digest :=
  match fuel with
  | O => st
  | Datatypes.S fuel' =>
      match bs with
      | [] => st
      | _ => blocks fuel' (block st (take 64 bs)) (drop 64 bs)
      end
  end.

Fixpoint le_bytes (n : nat) (x : Z) : list Z :=
  match n with
  | O => []
  | Datatypes.S n' => x mod 256 :: le_bytes n' (x / 256)
  end.

Definition pad (bs : list Z) : list Z :=
  let len := Z.of_nat (length bs) in
  bs ++ [128] ++ repeat 0 (Z.to_nat ((55 - len) mod 64))
     ++ le_bytes 8 ((8 * len) mod 2 ^ 64).

Definition byte_of_Z (x : Z) : byte :=
  default x00 (Byte.of_N (Z.to_N x)).

Definition Z_of_byte (b : byte) : Z := Z.of_N (Byte.to_N b).

(** [md5.Sum]: the 16 bytes of the digest. *)
Definition sum (data : list byte) : list byte :=
  let bs := pad (Z_of_byte <$> data) in
  let '(a, b, c, d) := blocks (length bs) init bs in
  byte_of_Z <$> (le_bytes 4 a ++ le_bytes 4 b ++ le_bytes 4 c ++ le_bytes 4 d).

End MD5.

(** The [hash.Hash] returned by [md5.New()]: [Write] appends to the bytes
    hashed so far, [Sum(nil)] is the digest of all of them. *)
Definition md5Hash : Type := list byte.
Definition md5_New : md5Hash := [].
Definition md5_Write (w : md5Hash) (p : list byte) : md5Hash := w ++ p.
Definition md5_Sum (w : md5Hash) : list byte := MD5.sum w.

Module Hex.

Definition hextable : string := "0123456789abcdef".

Definition digit (n : N) : ascii :=
  match String.get (N.to_nat n) hextable with
  | Some c => c
  | None => "0"%char
  end.

(** [fromHexChar]: the value of a hexadecimal digit of either case. *)
Definition value (c : ascii) : option N :=
  let n := Ascii.N_of_ascii c in
  (if (48 <=? n) && (n <=? 57) then Some (n - 48)
   else if (97 <=? n) && (n <=? 102) then Some (n - 97 + 10)
   else if (65 <=? n) && (n <=? 70) then Some (n - 65 + 10)
   else None)%N.

(** [hex.EncodeToString]: two lower-case digits per byte. *)
Fixpoint EncodeToString (bs : list byte) : string :=
  match bs with
  | [] => EmptyString
  | b :: r =>
      String (digit (Byte.to_N b / 16))
        (String (digit (Byte.to_N b mod 16)) (EncodeToString r))
  end.

(** [hex.DecodeString]: fails on an odd length or on a character that is
    not a hexadecimal digit; both cases of letters are accepted. *)
Fixpoint DecodeString (s : string) : option (list byte) :=
  match s with
  | EmptyString => Some []
  | String c1 (String c2 r) =>
      match value c1, value c2, DecodeString r with
      | Some h, Some l, Some bs =>
          match Byte.of_N (16 * h + l) with
          | Some b => Some (b :: bs)
          | None => None
          end
      | _, _, _ => None
      end
  | String _ EmptyString => None
  end.

End Hex.

Definition bytes_of_string (s : string) : list byte := String.list_byte_of_string s.

(** ** Data model *)

(** Go's [int] and [int64]: two's complement on 64 bits. *)
Definition wrap64 (z : Z) : Z := (z + 2 ^ 63) mod 2 ^ 64 - 2 ^ 63.

(** Every Go [error] value this file returns or hands up. *)
Inductive error : Type :=
  | BucketNameInvalid (Bucket : string)
  | BucketNotFound (Bucket : string)
  | ObjectNameInvalid (Bucket Object : string)
  | InvalidUploadID (UploadID : string)
  | InvalidPart
  | BadDigest (ExpectedMD5 CalculatedMD5 : string)
  | PartTooSmall
  | errUnexpected
  | errFileAccessDenied
  | errFileNotFound
  | errDisk (code : string)
  | errHexDecode
  | ErrUnexpectedEOF                               (* io.ErrUnexpectedEOF *)
  | ObjectErr (err : error) (bucket object : string).

Inductive result (A : Type) : Type :=
  | Ok (a : A)
  | Err (err : error).
Arguments Ok {A} a.
Arguments Err {A} err.

(** [objectPartInfo]: one entry of [parts] in xl.json. *)
Record objectPartInfo : Type :=
  { Number : Z; Name : string; ETag : string; Size : Z }.

Record statInfo : Type := { st_Size : Z; st_ModTime : Z; st_Version : Z }.

(** [xlMetaV1], the contents of xl.json.  The erasure section (block
    counts, distribution, per-disk checksums) differs from disk to disk
    and is left to the storage layer. *)
Record xlMetaV1 : Type :=
  { Stat : statInfo; Meta : gmap string string; Parts : list objectPartInfo }.

(** [completePart]: one entry of the client's CompleteMultipartUpload. *)
Record completePart : Type := { cp_PartNumber : Z; cp_ETag : string }.

Record partInfo : Type :=
  { pi_PartNumber : Z; pi_ETag : string; pi_LastModified : Z; pi_Size : Z }.

Record ListPartsInfo : Type :=
  { lp_Bucket : string; lp_Object : string; lp_UploadID : string;
    lp_PartNumberMarker : Z; lp_NextPartNumberMarker : Z; lp_MaxParts : Z;
    lp_IsTruncated : bool; lp_Parts : list partInfo }.

(** [ListPartsInfo{}] *)
Definition ListPartsInfo_zero : ListPartsInfo :=
  {| lp_Bucket := ""; lp_Object := ""; lp_UploadID := "";
     lp_PartNumberMarker := 0; lp_NextPartNumberMarker := 0; lp_MaxParts := 0;
     lp_IsTruncated := false; lp_Parts := [] |}.

Record uploadInfo : Type := { UploadID : string; Initiated : Z }.

(** [uploadsV1], the contents of uploads.json. *)
Record uploadsV1 : Type := { Uploads : list uploadInfo }.

#[global] Instance objectPartInfo_eq_dec : EqDecision objectPartInfo.
Proof. solve_decision. Defined.
#[global] Instance completePart_eq_dec : EqDecision completePart.
Proof. solve_decision. Defined.
#[global] Instance error_eq_dec : EqDecision error.
Proof. solve_decision. Defined.

(** ** The namespace on the disks *)

Record fileInfo : Type := { content : list byte; f_ModTime : Z }.

(** A leaf directory: an xl.json and the part files next to it. *)
Record objectDir : Type :=
  { xlJSON : option xlMetaV1; files : gmap string fileInfo }.

(** [.minio/multipart/<bucket>/<object>/]: uploads.json and one leaf
    directory per upload ID. *)
Record mpartDir : Type :=
  { uploadsJSON : option uploadsV1; uploadDirs : gmap string objectDir }.

Record store : Type :=
  { buckets : gset string;
    multipart : gmap (string * string) mpartDir;
    tmp : gmap string objectDir;
    objects : gmap (string * string) objectDir }.

(** The paths the file builds with [path.Join].  An upload ID is a UUID,
    never a component of an object name, so an upload directory holds the
    directory of no other upload or object.  Object names do nest: the
    directories of the objects named <object>/... lie under the directories
    of <object> ([under]). *)
Inductive path : Type :=
  | TmpDir (id : string)                         (* .minio/tmp/<id> *)
  | UploadDir (bucket object uploadID : string)
      (* .minio/multipart/<bucket>/<object>/<uploadID> *)
  | MultipartDir (bucket object : string)        (* .minio/multipart/<bucket>/<object> *)
  | ObjectDir (bucket object : string).          (* <bucket>/<object> *)

#[global] Instance path_eq_dec : EqDecision path.
Proof. solve_decision. Defined.

(** Modelled from the spec: the constants [minioMetaBucket],
    [mpartMetaPrefix] and [tmpMetaPrefix] are declared outside
    xl-v1-multipart.go; the persisted layout names them. *)
Definition minioMetaBucket : string := ".minio".
Definition mpartMetaPrefix : string := "multipart".
Definition tmpMetaPrefix : string := "tmp".

Definition pathJoin (elem : list string) : string :=
  match elem with
  | [] => ""
  | x :: r => fold_left (fun acc y => acc +:+ "/" +:+ y) r x
  end.

Definition pathBucket (p : path) : string :=
  match p with
  | ObjectDir bucket _ => bucket
  | _ => minioMetaBucket
  end.

Definition pathName (p : path) : string :=
  match p with
  | TmpDir id => pathJoin [tmpMetaPrefix; id]
  | UploadDir bucket object uploadID =>
      pathJoin [mpartMetaPrefix; bucket; object; uploadID]
  | MultipartDir bucket object => pathJoin [mpartMetaPrefix; bucket; object]
  | ObjectDir _ object => object
  end.

Definition getDir (s : store) (p : path) : option objectDir :=
  match p with
  | TmpDir id => tmp s !! id
  | UploadDir bucket object uploadID =>
      match multipart s !! (bucket, object) with
      | Some md => uploadDirs md !! uploadID
      | None => None
      end
  | MultipartDir _ _ => None
  | ObjectDir bucket object => objects s !! (bucket, object)
  end.

Definition putDir (p : path) (d : objectDir) (s : store) : store :=
  match p with
  | TmpDir id =>
      {| buckets := buckets s; multipart := multipart s;
         tmp := <[id := d]> (tmp s); objects := objects s |}
  | UploadDir bucket object uploadID =>
      let md := default {| uploadsJSON := None; uploadDirs := ∅ |}
                  (multipart s !! (bucket, object)) in
      {| buckets := buckets s;
         multipart :=
           <[(bucket, object) :=
               {| uploadsJSON := uploadsJSON md;
                  uploadDirs := <[uploadID := d]> (uploadDirs md) |}]>
             (multipart s);
         tmp := tmp s; objects := objects s |}
  | MultipartDir _ _ => s
  | ObjectDir bucket object =>
      {| buckets := buckets s; multipart := multipart s; tmp := tmp s;
         objects := <[(bucket, object) := d]> (objects s) |}
  end.

(** [under object name]: in the layout, the directories of [name] are the
    directories of [object] or lie below them. *)
Definition under (object name : string) : bool :=
  bool_decide (name = object) || String.prefix (object +:+ "/") name.

(** Recursive removal of what lies under a path: a multipart directory
    goes with the upload directories and the uploads.json of the objects
    named <object>/..., an object directory with the objects named
    <object>/.... *)
Definition removeDir (p : path) (s : store) : store :=
  match p with
  | TmpDir id =>
      {| buckets := buckets s; multipart := multipart s;
         tmp := delete id (tmp s); objects := objects s |}
  | UploadDir bucket object uploadID =>
      match multipart s !! (bucket, object) with
      | Some md =>
          {| buckets := buckets s;
             multipart :=
               <[(bucket, object) :=
                   {| uploadsJSON := uploadsJSON md;
                      uploadDirs := delete uploadID (uploadDirs md) |}]>
                 (multipart s);
             tmp := tmp s; objects := objects s |}
      | None => s
      end
  | MultipartDir bucket object =>
      {| buckets := buckets s;
         multipart :=
           filter (λ kv, ¬ (kv.1.1 = bucket ∧ under object kv.1.2)) (multipart s);
         tmp := tmp s; objects := objects s |}
  | ObjectDir bucket object =>
      {| buckets := buckets s; multipart := multipart s; tmp := tmp s;
         objects :=
           filter (λ kv, ¬ (kv.1.1 = bucket ∧ under object kv.1.2)) (objects s) |}
  end.

(** [pathUnder p q]: [q] is [p] or lies under it, so that a removal of [p]
    takes [q] away. *)
Definition pathUnder (p q : path) : Prop :=
  match p, q with
  | ObjectDir b o, ObjectDir b' o' => b' = b ∧ under o o'
  | MultipartDir b o, UploadDir b' o' _ => b' = b ∧ under o o'
  | _, _ => q = p
  end.

(** ** What the file takes from the rest of the package *)

(** The storage primitives the file calls; a fault plan names the calls
    that fail. *)
Inductive prim : Type :=
  | p_readAllXLMetadata | p_readXLMetadata | p_writeXLMetadata
  | p_writeUniqueXLMetadata | p_renameXLMetadata | p_renameObject
  | p_AppendFile | p_statPart | p_deleteObject | p_cleanupUploadedParts
  | p_writeUploadJSON | p_readUploadsJSON | p_updateUploadsJSON.

#[global] Instance prim_eq_dec : EqDecision prim.
Proof. solve_decision. Defined.

Record env : Type :=
  { IsValidBucketName : string -> bool;
    IsValidObjectName : string -> bool;
    (** [mimedb.DB] looked up by the lower-cased extension of a name *)
    mimeType : string -> option string;
    (** [blockSizeV1], the size of the read buffer *)
    blockSizeV1 : positive;
    (** [maxPartsList], the cap on a parts listing *)
    maxPartsList : Z;
    (** [time.Now().UTC()] *)
    now : Z;
    (** [getUUID()] *)
    getUUID : string;
    (** the byte count [erasure.AppendFile] reports for a buffer *)
    appendFileCount : list byte -> Z;
    (** [fault p target]: the error primitive [p] returns on [target] *)
    fault : prim -> path -> option error }.

(** Modelled from the spec: [toObjectErr] is defined outside
    xl-v1-multipart.go; it translates a storage error for the bucket and
    object it is told about.  The translation is kept symbolic. *)
Definition toObjectErr (err : error) (bucket object : string) : error :=
  ObjectErr err bucket object.

(** ** Collaborators defined outside xl-v1-multipart.go *)

(** Modelled from the spec: [isBucketExist] and [isUploadIDExists] are
    defined outside xl-v1-multipart.go; an upload exists while its
    directory holds an xl.json. *)
Definition isBucketExist (s : store) (bucket : string) : bool :=
  bool_decide (bucket ∈ buckets s).

Definition isObject (s : store) (p : path) : bool :=
  match getDir s p with
  | Some d => match xlJSON d with Some _ => true | None => false end
  | None => false
  end.

Definition isUploadIDExists (s : store) (bucket object uploadID : string) : bool :=
  isObject s (UploadDir bucket object uploadID).

Definition emptyDir : objectDir := {| xlJSON := None; files := ∅ |}.

(** Modelled from the spec: the quorum read of xl.json
    ([readAllXLMetadata], then [reduceError] or [listOnlineDisks], then
    [pickValidXLMeta]) and the single read [readXLMetadata] are defined
    outside xl-v1-multipart.go; both yield the one logical record. *)
Definition readMeta (p : prim) (e : env) (s : store) (dir : path) : result xlMetaV1 :=
  match fault e p dir with
  | Some err => Err err
  | None =>
      match getDir s dir with
      | Some d =>
          match xlJSON d with
          | Some m => Ok m
          | None => Err errFileNotFound
          end
      | None => Err errFileNotFound
      end
  end.

Definition readAllXLMetadata := readMeta p_readAllXLMetadata.
Definition readXLMetadata := readMeta p_readXLMetadata.

(** Modelled from the spec: [writeXLMetadata] and [writeUniqueXLMetadata]
    (outside xl-v1-multipart.go) stage xl.json under a directory. *)
Definition writeMeta (p : prim) (e : env) (dir : path) (m : xlMetaV1) (s : store)
  : store * option error :=
  match fault e p dir with
  | Some err => (s, Some err)
  | None =>
      let d := default emptyDir (getDir s dir) in
      (putDir dir {| xlJSON := Some m; files := files d |} s, None)
  end.

Definition writeXLMetadata := writeMeta p_writeXLMetadata.
Definition writeUniqueXLMetadata := writeMeta p_writeUniqueXLMetadata.

(** Modelled from the spec: [renameXLMetadata] (outside
    xl-v1-multipart.go) moves the staged xl.json into place. *)
Definition renameXLMetadata (e : env) (src dst : path) (s : store)
  : store * option error :=
  match fault e p_renameXLMetadata dst with
  | Some err => (s, Some err)
  | None =>
      match getDir s src with
      | Some d =>
          match xlJSON d with
          | Some m =>
              let s1 := putDir src {| xlJSON := None; files := files d |} s in
              let d' := default emptyDir (getDir s1 dst) in
              (putDir dst {| xlJSON := Some m; files := files d' |} s1, None)
          | None => (s, Some errFileNotFound)
          end
      | None => (s, Some errFileNotFound)
      end
  end.

(** Modelled from the spec: [renameObject] (outside xl-v1-multipart.go)
    moves a directory; what lay below the source leaves its place with
    it.  CompleteMultipartUpload calls it on the destination object whether
    or not one exists, so a missing source is not an error. *)
Definition renameObject (e : env) (src dst : path) (s : store)
  : store * option error :=
  match fault e p_renameObject src with
  | Some err => (s, Some err)
  | None =>
      match getDir s src with
      | Some d => (putDir dst d (removeDir src s), None)
      | None => (s, None)
      end
  end.

(** The same primitive on one part file of a directory. *)
Definition renamePart (e : env) (src dst : path) (name : string) (s : store)
  : store * option error :=
  match fault e p_renameObject src with
  | Some err => (s, Some err)
  | None =>
      match getDir s src with
      | Some d =>
          match files d !! name with
          | Some f =>
              let s1 := putDir src {| xlJSON := xlJSON d;
                                      files := delete name (files d) |} s in
              let d' := default emptyDir (getDir s1 dst) in
              (putDir dst {| xlJSON := xlJSON d';
                             files := <[name := f]> (files d') |} s1, None)
          | None => (s, None)
          end
      | None => (s, None)
      end
  end.

(** Modelled from the spec: [erasure.AppendFile] (outside
    xl-v1-multipart.go) appends the buffer to the staged part and reports
    the number of bytes it consumed. *)
Definition AppendFile (e : env) (dir : path) (name : string) (buf : list byte)
    (s : store) : store * result Z :=
  match fault e p_AppendFile dir with
  | Some err => (s, Err err)
  | None =>
      let d := default emptyDir (getDir s dir) in
      let old := match files d !! name with Some f => content f | None => [] end in
      (putDir dir {| xlJSON := xlJSON d;
                     files := <[name := {| content := old ++ buf;
                                           f_ModTime := now e |}]> (files d) |} s,
       Ok (appendFileCount e buf))
  end.

(** Modelled from the spec: [statPart] (outside xl-v1-multipart.go). *)
Definition statPart (e : env) (s : store) (dir : path) (name : string)
  : result fileInfo :=
  match fault e p_statPart dir with
  | Some err => Err err
  | None =>
      match getDir s dir with
      | Some d =>
          match files d !! name with
          | Some f => Ok f
          | None => Err errFileNotFound
          end
      | None => Err errFileNotFound
      end
  end.

(** Modelled from the spec: [deleteObject] and [cleanupUploadedParts]
    (outside xl-v1-multipart.go) delete everything under a path. *)
Definition deleteObject (e : env) (p : path) (s : store) : store * option error :=
  match fault e p_deleteObject p with
  | Some err => (s, Some err)
  | None => (removeDir p s, None)
  end.

Definition cleanupUploadedParts (e : env) (bucket object uploadID : string)
    (s : store) : store * option error :=
  match fault e p_cleanupUploadedParts (UploadDir bucket object uploadID) with
  | Some err => (s, Some err)
  | None => (removeDir (UploadDir bucket object uploadID) s, None)
  end.

(** Modelled from the spec: [removeObjectPart] (outside
    xl-v1-multipart.go) deletes one part file of an upload; the source
    calls it as a statement, it hands back no error. *)
Definition removeObjectPart (bucket object uploadID partName : string)
    (s : store) : store :=
  match getDir s (UploadDir bucket object uploadID) with
  | Some d =>
      putDir (UploadDir bucket object uploadID)
        {| xlJSON := xlJSON d; files := delete partName (files d) |} s
  | None => s
  end.

(** Modelled from the spec: the uploads.json primitives [writeUploadJSON],
    [readUploadsJSON] and [updateUploadsJSON] are defined outside
    xl-v1-multipart.go. *)
Definition setUploadsJSON (bucket object : string) (u : uploadsV1) (s : store)
  : store :=
  let md := default {| uploadsJSON := None; uploadDirs := ∅ |}
              (multipart s !! (bucket, object)) in
  {| buckets := buckets s;
     multipart := <[(bucket, object) :=
                      {| uploadsJSON := Some u; uploadDirs := uploadDirs md |}]>
                    (multipart s);
     tmp := tmp s; objects := objects s |}.

Definition getUploadsJSON (s : store) (bucket object : string) : option uploadsV1 :=
  match multipart s !! (bucket, object) with
  | Some md => uploadsJSON md
  | None => None
  end.

Definition writeUploadJSON (e : env) (bucket object uploadID : string)
    (initiated : Z) (s : store) : store * option error :=
  match fault e p_writeUploadJSON (MultipartDir bucket object) with
  | Some err => (s, Some err)
  | None =>
      let old := match getUploadsJSON s bucket object with
                 | Some u => Uploads u
                 | None => []
                 end in
      (setUploadsJSON bucket object
         {| Uploads := old ++ [{| UploadID := uploadID; Initiated := initiated |}] |}
         s, None)
  end.

Definition readUploadsJSON (e : env) (s : store) (bucket object : string)
  : result uploadsV1 :=
  match fault e p_readUploadsJSON (MultipartDir bucket object) with
  | Some err => Err err
  | None =>
      match getUploadsJSON s bucket object with
      | Some u => Ok u
      | None => Err errFileNotFound
      end
  end.

Definition updateUploadsJSON (e : env) (bucket object : string) (u : uploadsV1)
    (s : store) : store * option error :=
  match fault e p_updateUploadsJSON (MultipartDir bucket object) with
  | Some err => (s, Some err)
  | None => (setUploadsJSON bucket object u s, None)
  end.

(** Modelled from the spec: [uploadsV1.Index] (outside
    xl-v1-multipart.go): the position of an upload ID, or -1. *)
Fixpoint uploadIndexFrom (i : Z) (us : list uploadInfo) (uploadID : string) : Z :=
  match us with
  | [] => -1
  | u :: r =>
      if decide (UploadID u = uploadID) then i
      else uploadIndexFrom (i + 1) r uploadID
  end.

Definition uploads_Index (u : uploadsV1) (uploadID : string) : Z :=
  uploadIndexFrom 0 (Uploads u) uploadID.

(** Modelled from the spec: [xlMetaV1.ObjectPartIndex] (outside
    xl-v1-multipart.go): the position of a part number in [Parts], or
    -1. *)
Fixpoint partIndexFrom (i : Z) (ps : list objectPartInfo) (partNumber : Z) : Z :=
  match ps with
  | [] => -1
  | p :: r =>
      if decide (partNumber = Number p) then i
      else partIndexFrom (i + 1) r partNumber
  end.

Definition ObjectPartIndex (m : xlMetaV1) (partNumber : Z) : Z :=
  partIndexFrom 0 (Parts m) partNumber.

Definition partLe (p q : objectPartInfo) : Prop := Number p ≤ Number q.

#[global] Instance partLe_dec : RelDecision partLe.
Proof. intros p q. unfold partLe. apply _. Defined.

(** Modelled from the spec: [xlMetaV1.AddObjectPart] (outside
    xl-v1-multipart.go) "append/replace the Part{number, name, etag,
    size} entry", with "parts[] is ordered by part number": an entry of
    that number is replaced where it stands, a new one is appended and the
    list sorted. *)
Definition AddObjectPart (m : xlMetaV1) (partNumber : Z) (partName partETag : string)
    (partSize : Z) : xlMetaV1 :=
  let partInfo := {| Number := partNumber; Name := partName;
                     ETag := partETag; Size := partSize |} in
  let i := ObjectPartIndex m partNumber in
  {| Stat := Stat m; Meta := Meta m;
     Parts := if decide (i = -1)
              then merge_sort partLe (Parts m ++ [partInfo])
              else <[Z.to_nat i := partInfo]> (Parts m) |}.

(** Modelled from the spec: [newXLMetaV1] (outside xl-v1-multipart.go)
    builds a fresh record, with no parts. *)
Definition newXLMetaV1 : xlMetaV1 :=
  {| Stat := {| st_Size := 0; st_ModTime := 0; st_Version := 0 |};
     Meta := ∅; Parts := [] |}.

(** Modelled from the spec: [isMinAllowedPartSize] (outside
    xl-v1-multipart.go): "must be ≥ 5 MiB". *)
Definition isMinAllowedPartSize (size : Z) : bool :=
  bool_decide (5 * 1024 * 1024 ≤ size).

(** Modelled from the spec: [completeMultipartMD5] (outside
    xl-v1-multipart.go): "MD5 of the concatenation of each part's binary
    MD5, hex-encoded, suffixed -<count>", the binary MD5 of a part being
    what its hexadecimal ETag decodes to; an ETag that is not hexadecimal is
    the error the source checks for. *)
Definition completeMultipartMD5 (parts : list completePart) : result string :=
  match mapM (fun p => Hex.DecodeString (cp_ETag p)) parts with
  | Some md5s =>
      Ok (Hex.EncodeToString (MD5.sum (concat md5s))
            +:+ "-" +:+ pretty (length parts))
  | None => Err errHexDecode
  end.

(** Modelled from the spec: [parentDirIsObject] (outside
    xl-v1-multipart.go): some parent directory of the object "is itself an
    existing object". *)
Fixpoint parentDirsFrom (pre : string) (s : string) : list string :=
  match s with
  | EmptyString => []
  | String c r =>
      if decide (c = "/"%char)
      then (if decide (pre = "") then [] else [pre])
             ++ parentDirsFrom (pre +:+ "/") r
      else parentDirsFrom (pre +:+ String c EmptyString) r
  end.

Definition parentDirIsObject (s : store) (bucket object : string) : bool :=
  existsb (fun p => isObject s (ObjectDir bucket p)) (parentDirsFrom "" object).

(** ** io.Reader and io.ReadFull *)

(** A reader delivers [rd_data] and then ends: every later [Read] reports
    [io.EOF] when [rd_err] is [None], the error it holds otherwise (a
    truncated request body reports [io.ErrUnexpectedEOF]). *)
Record Reader : Type := { rd_data : list byte; rd_err : option error }.

Inductive readStatus : Type :=
  | ReadNil                 (* err == nil: the buffer was filled *)
  | ReadEOF                 (* io.EOF: no byte was read *)
  | ReadUnexpectedEOF       (* io.ErrUnexpectedEOF: fewer bytes than asked *)
  | ReadErr (err : error).  (* any other error of the reader *)

(** [io.ReadFull]: the buffer filled is no error; short of that, an
    [io.EOF] of the reader comes back as [io.EOF] when no byte was read
    and as [io.ErrUnexpectedEOF] otherwise, and any other error of the
    reader comes back as it is, [io.ErrUnexpectedEOF] included. *)
Definition ReadFull (data : Reader) (n : positive)
  : list byte * readStatus * Reader :=
  let buf := take (Pos.to_nat n) (rd_data data) in
  let data' := {| rd_data := drop (Pos.to_nat n) (rd_data data);
                  rd_err := rd_err data |} in
  if decide (length buf = Pos.to_nat n) then (buf, ReadNil, data')
  else match rd_err data with
       | Some err =>
           if decide (err = ErrUnexpectedEOF) then (buf, ReadUnexpectedEOF, data')
           else (buf, ReadErr err, data')
       | None =>
           if decide (buf = []) then (buf, ReadEOF, data')
           else (buf, ReadUnexpectedEOF, data')
       end.

(** ** The operations of xl-v1-multipart.go *)

Definition partSuffixOf (partID : Z) : string := "object" +:+ pretty partID.

(** [newMultipartUpload] (lines 38-93). *)
Definition newMultipartUpload (e : env) (s : store) (bucket object : string)
    (meta : option (gmap string string)) : store * result string :=
  if negb (IsValidBucketName e bucket) then (s, Err (BucketNameInvalid bucket))
  else if negb (isBucketExist s bucket) then (s, Err (BucketNotFound bucket))
  else if negb (IsValidObjectName e object)
  then (s, Err (ObjectNameInvalid bucket object))
  else
    let meta := match meta with Some m => m | None => ∅ end in
    let xlMeta := newXLMetaV1 in
    let meta :=
      if decide (default "" (meta !! "content-type") = "")
      then
        let contentType := match mimeType e object with
                           | Some c => c
                           | None => "application/octet-stream"
                           end in
        <["content-type" := contentType]> meta
      else meta in
    let xlMeta :=
      {| Stat := {| st_Size := st_Size (Stat xlMeta); st_ModTime := now e;
                    st_Version := 1 |};
         Meta := meta; Parts := Parts xlMeta |} in
    let uploadID := getUUID e in
    let initiated := now e in
    match writeUploadJSON e bucket object uploadID initiated s with
    | (s1, Some err) => (s1, Err err)
    | (s1, None) =>
        let uploadIDPath := UploadDir bucket object uploadID in
        let tempUploadIDPath := TmpDir uploadID in
        match writeXLMetadata e tempUploadIDPath xlMeta s1 with
        | (s2, Some err) =>
            (s2, Err (toObjectErr err minioMetaBucket (pathName tempUploadIDPath)))
        | (s2, None) =>
            match renameObject e tempUploadIDPath uploadIDPath s2 with
            | (s3, None) => (s3, Ok uploadID)
            | (s3, Some rErr) =>
                (s3, Err (toObjectErr rErr minioMetaBucket (pathName uploadIDPath)))
            end
        end
    end.

(** The read loop of [putObjectPart] (lines 149-168).  With a reader that
    does not end in [io.ErrUnexpectedEOF], every turn but the last consumes
    at least one byte, so [S (length data)] turns of fuel are enough
    ([readLoop_total]).  A reader that ends in [io.ErrUnexpectedEOF] is
    taken for a short read on every turn (lines 155-157): the loop has no
    way out but a failing append, whatever the fuel
    ([readLoop_unexpected_eof]). *)
Fixpoint readLoop (fuel : nat) (e : env) (bucket object uploadID partSuffix : string)
    (data : Reader) (md5Writer : md5Hash) (s : store)
  : option (store * result md5Hash) :=
  match fuel with
  | O => None
  | S fuel' =>
      let '(buf, st, data') := ReadFull data (blockSizeV1 e) in
      match st with
      | ReadEOF => Some (s, Ok md5Writer)
      | ReadErr err => Some (s, Err (toObjectErr err bucket object))
      | ReadNil | ReadUnexpectedEOF =>
          let md5Writer := md5_Write md5Writer buf in
          match AppendFile e (TmpDir uploadID) partSuffix buf s with
          | (s1, Err err) =>
              Some (s1, Err (toObjectErr err minioMetaBucket
                               (pathJoin [tmpMetaPrefix; uploadID; partSuffix])))
          | (s1, Ok m) =>
              if decide (m ≠ Z.of_nat (length buf))
              then Some (s1, Err (toObjectErr errUnexpected bucket object))
              else readLoop fuel' e bucket object uploadID partSuffix data'
                     md5Writer s1
          end
      end
  end.

(** [putObjectPart] (lines 101-226).  [None] stands for a read loop that
    does not end, which happens for a reader that ends in
    [io.ErrUnexpectedEOF] and for no other ([putObjectPart_total],
    [readLoop_unexpected_eof]). *)
Definition putObjectPart (e : env) (s : store) (bucket object uploadID : string)
    (partID : Z) (size : Z) (data : Reader) (md5Hex : string)
  : option (store * result string) :=
  if negb (IsValidBucketName e bucket)
  then Some (s, Err (BucketNameInvalid bucket))
  else if negb (isBucketExist s bucket)
  then Some (s, Err (BucketNotFound bucket))
  else if negb (IsValidObjectName e object)
  then Some (s, Err (ObjectNameInvalid bucket object))
  else
    let uploadIDPath := UploadDir bucket object uploadID in
    if negb (isUploadIDExists s bucket object uploadID)
    then Some (s, Err (InvalidUploadID uploadID))
    else
      match readAllXLMetadata e s uploadIDPath with
      | Err err => Some (s, Err (toObjectErr err bucket object))
      | Ok xlMeta =>
          let higherVersion := wrap64 (st_Version (Stat xlMeta) + 1) in
          let partSuffix := partSuffixOf partID in
          match readLoop (S (length (rd_data data))) e bucket object uploadID
                  partSuffix data md5_New s with
          | None => None
          | Some (s1, Err err) => Some (s1, Err err)
          | Some (s1, Ok md5Writer) =>
              let newMD5Hex := Hex.EncodeToString (md5_Sum md5Writer) in
              if bool_decide (md5Hex ≠ "") && bool_decide (newMD5Hex ≠ md5Hex)
              then Some (s1, Err (BadDigest md5Hex newMD5Hex))
              else if negb (isUploadIDExists s1 bucket object uploadID)
              then Some (s1, Err (InvalidUploadID uploadID))
              else
                match renamePart e (TmpDir uploadID) uploadIDPath partSuffix s1 with
                | (s2, Some err) =>
                    Some (s2, Err (toObjectErr err minioMetaBucket
                                     (pathJoin [pathName uploadIDPath; partSuffix])))
                | (s2, None) =>
                    (* the version is set on the local copy only *)
                    let xlMeta' :=
                      {| Stat := {| st_Size := st_Size (Stat xlMeta);
                                    st_ModTime := st_ModTime (Stat xlMeta);
                                    st_Version := higherVersion |};
                         Meta := Meta xlMeta; Parts := Parts xlMeta |} in
                    let xlMeta' :=
                      AddObjectPart xlMeta' partID partSuffix newMD5Hex size in
                    (* partsMetadata[index].Parts = xlMeta.Parts *)
                    let partsMetadata :=
                      {| Stat := Stat xlMeta; Meta := Meta xlMeta;
                         Parts := Parts xlMeta' |} in
                    let tempUploadIDPath := TmpDir uploadID in
                    match writeUniqueXLMetadata e tempUploadIDPath partsMetadata s2 with
                    | (s3, Some err) =>
                        Some (s3, Err (toObjectErr err minioMetaBucket
                                         (pathName tempUploadIDPath)))
                    | (s3, None) =>
                        match renameXLMetadata e tempUploadIDPath uploadIDPath s3 with
                        | (s4, Some rErr) =>
                            Some (s4, Err (toObjectErr rErr minioMetaBucket
                                             (pathName uploadIDPath)))
                        | (s4, None) => Some (s4, Ok newMD5Hex)
                        end
                    end
                end
          end
      end.

Definition PutObjectPart := putObjectPart.

(** The listing loop of [listObjectParts] (lines 285-303). *)
Fixpoint listLoop (e : env) (s : store) (uploadIDPath : path) (count : Z)
    (parts : list objectPartInfo) (acc : list partInfo) : result (list partInfo) :=
  match parts with
  | [] => Ok acc
  | part :: rest =>
      match statPart e s uploadIDPath (Name part) with
      | Err err =>
          Err (toObjectErr err minioMetaBucket
                 (pathJoin [pathName uploadIDPath; Name part]))
      | Ok fi =>
          let acc := acc ++ [{| pi_PartNumber := Number part;
                                pi_ETag := ETag part;
                                pi_LastModified := f_ModTime fi;
                                pi_Size := Size part |}] in
          let count := wrap64 (count - 1) in
          if decide (count = 0) then Ok acc
          else listLoop e s uploadIDPath count rest acc
      end
  end.

(** [listObjectParts] (lines 234-313). *)
Definition listObjectParts (e : env) (s : store) (bucket object uploadID : string)
    (partNumberMarker maxParts : Z) : result ListPartsInfo :=
  if negb (IsValidBucketName e bucket) then Err (BucketNameInvalid bucket)
  else if negb (isBucketExist s bucket) then Err (BucketNotFound bucket)
  else if negb (IsValidObjectName e object)
  then Err (ObjectNameInvalid bucket object)
  else if negb (isUploadIDExists s bucket object uploadID)
  then Err (InvalidUploadID uploadID)
  else
    let uploadIDPath := UploadDir bucket object uploadID in
    match readXLMetadata e s uploadIDPath with
    | Err err => Err (toObjectErr err minioMetaBucket (pathName uploadIDPath))
    | Ok xlMeta =>
        let result0 :=
          {| lp_Bucket := bucket; lp_Object := object; lp_UploadID := uploadID;
             lp_PartNumberMarker := 0; lp_NextPartNumberMarker := 0;
             lp_MaxParts := maxParts; lp_IsTruncated := false; lp_Parts := [] |} in
        if bool_decide (length (Parts xlMeta) = 0%nat) || bool_decide (maxParts = 0)
        then Ok result0
        else
          let maxParts' :=
            if maxPartsList e <? maxParts then maxPartsList e else maxParts in
          let partIdx := ObjectPartIndex xlMeta partNumberMarker in
          let parts :=
            if decide (partIdx ≠ -1)
            then drop (Z.to_nat (partIdx + 1)) (Parts xlMeta)
            else Parts xlMeta in
          let count := maxParts' in
          match listLoop e s uploadIDPath count parts [] with
          | Err err => Err err
          | Ok resultParts =>
              if decide (length resultParts < length parts)%nat
              then
                (* result.Parts is not empty here ([listLoop_nonempty]) *)
                let nextPartNumberMarker :=
                  match last resultParts with
                  | Some p => pi_PartNumber p
                  | None => 0
                  end in
                Ok {| lp_Bucket := bucket; lp_Object := object;
                      lp_UploadID := uploadID; lp_PartNumberMarker := 0;
                      lp_NextPartNumberMarker := nextPartNumberMarker;
                      lp_MaxParts := maxParts; lp_IsTruncated := true;
                      lp_Parts := resultParts |}
              else
                Ok {| lp_Bucket := bucket; lp_Object := object;
                      lp_UploadID := uploadID; lp_PartNumberMarker := 0;
                      lp_NextPartNumberMarker := 0;
                      lp_MaxParts := maxParts; lp_IsTruncated := false;
                      lp_Parts := resultParts |}
          end
    end.

Definition ListObjectParts := listObjectParts.

#[global] Instance objectPartInfo_inhabited : Inhabited objectPartInfo :=
  populate {| Number := 0; Name := ""; ETag := ""; Size := 0 |}.

(** The validation loop of [CompleteMultipartUpload] (lines 370-394).
    [len] is [len(parts)], [i] the index of the head of [parts].  The Go
    code writes entry [i] of a slice of [len] entries on every turn and
    drops the slice on an error; [acc] holds the entries written so far.
    [currentXLMeta.Parts[partIdx]] is in range whenever [partIdx] is not
    -1 ([partIndexFrom_lookup]). *)
Fixpoint validateParts (currentXLMeta : xlMetaV1) (len i : Z)
    (parts : list completePart) (objectSize : Z) (acc : list objectPartInfo)
  : result (Z * list objectPartInfo) :=
  match parts with
  | [] => Ok (objectSize, acc)
  | part :: rest =>
      let partIdx := ObjectPartIndex currentXLMeta (cp_PartNumber part) in
      if decide (partIdx = -1) then Err InvalidPart
      else
        let cur := Parts currentXLMeta !!! Z.to_nat partIdx in
        if decide (ETag cur ≠ cp_ETag part) then Err (BadDigest "" "")
        else if (i <? len - 1) && negb (isMinAllowedPartSize (Size cur))
        then Err PartTooSmall
        else
          validateParts currentXLMeta len (i + 1) rest
            (wrap64 (objectSize + Size cur))
            (acc ++ [{| Number := cp_PartNumber part;
                        Name := partSuffixOf (cp_PartNumber part);
                        ETag := cp_ETag part;
                        Size := Size cur |}])
  end.

(** The trimming loop of [CompleteMultipartUpload] (lines 436-447). *)
Fixpoint trimParts (bucket object uploadID : string) (xlMeta : xlMetaV1)
    (currentParts : list objectPartInfo) (s : store) : store :=
  match currentParts with
  | [] => s
  | curpart :: rest =>
      let s' :=
        if decide (ObjectPartIndex xlMeta (Number curpart) = -1)
        then removeObjectPart bucket object uploadID (Name curpart) s
        else s in
      trimParts bucket object uploadID xlMeta rest s'
  end.

(** [uploadsJSON.Uploads = append(Uploads[:i], Uploads[i+1:]...)] *)
Definition removeUpload (u : uploadsV1) (i : Z) : uploadsV1 :=
  {| Uploads := take (Z.to_nat i) (Uploads u)
                  ++ drop (Z.to_nat (i + 1)) (Uploads u) |}.

(** [CompleteMultipartUpload], lines 320-455: everything up to the commit
    rename and the removal of the object that was moved aside. *)
Definition completeCommit (e : env) (s : store) (bucket object uploadID : string)
    (parts : list completePart) : store * result string :=
  if negb (IsValidBucketName e bucket) then (s, Err (BucketNameInvalid bucket))
  else if negb (isBucketExist s bucket) then (s, Err (BucketNotFound bucket))
  else if negb (IsValidObjectName e object)
  then (s, Err (ObjectNameInvalid bucket object))
  else if negb (isUploadIDExists s bucket object uploadID)
  then (s, Err (InvalidUploadID uploadID))
  else
    match completeMultipartMD5 parts with
    | Err err => (s, Err err)
    | Ok s3MD5 =>
        let uploadIDPath := UploadDir bucket object uploadID in
        match readAllXLMetadata e s uploadIDPath with
        | Err err =>
            (s, Err (toObjectErr err minioMetaBucket (pathName uploadIDPath)))
        | Ok currentXLMeta =>
            match validateParts currentXLMeta (Z.of_nat (length parts)) 0
                    parts 0 [] with
            | Err err => (s, Err err)
            | Ok (objectSize, newParts) =>
                if parentDirIsObject s bucket object
                then (s, Err (toObjectErr errFileAccessDenied bucket object))
                else
                  let xlMeta :=
                    {| Stat := {| st_Size := objectSize; st_ModTime := now e;
                                  st_Version := st_Version (Stat currentXLMeta) |};
                       Meta := <["md5Sum" := s3MD5]> (Meta currentXLMeta);
                       Parts := newParts |} in
                  let tempUploadIDPath := TmpDir uploadID in
                  match writeUniqueXLMetadata e tempUploadIDPath xlMeta s with
                  | (s1, Some err) =>
                      (s1, Err (toObjectErr err minioMetaBucket
                                  (pathName tempUploadIDPath)))
                  | (s1, None) =>
                  match renameXLMetadata e tempUploadIDPath uploadIDPath s1 with
                  | (s2, Some rErr) =>
                      (s2, Err (toObjectErr rErr minioMetaBucket
                                  (pathName uploadIDPath)))
                  | (s2, None) =>
                  let uniqueID := getUUID e in
                  match renameObject e (ObjectDir bucket object)
                          (TmpDir uniqueID) s2 with
                  | (s3, Some err) => (s3, Err (toObjectErr err bucket object))
                  | (s3, None) =>
                  let s4 := trimParts bucket object uploadID xlMeta
                              (Parts currentXLMeta) s3 in
                  match renameObject e uploadIDPath (ObjectDir bucket object) s4 with
                  | (s5, Some err) => (s5, Err (toObjectErr err bucket object))
                  | (s5, None) =>
                      (* the outcome of this delete is not looked at *)
                      let s6 := fst (deleteObject e (TmpDir uniqueID) s5) in
                      (s6, Ok s3MD5)
                  end end end end
            end
        end
    end.

(** [CompleteMultipartUpload], lines 457-485: the upload leaves
    uploads.json. *)
Definition CompleteMultipartUpload (e : env) (s : store)
    (bucket object uploadID : string) (parts : list completePart)
  : store * result string :=
  match completeCommit e s bucket object uploadID parts with
  | (s1, Err err) => (s1, Err err)
  | (s1, Ok s3MD5) =>
      let deleteDir :=
        match deleteObject e (MultipartDir bucket object) s1 with
        | (s2, Some err) =>
            (s2, Err (toObjectErr err minioMetaBucket
                        (pathName (MultipartDir bucket object))))
        | (s2, None) => (s2, Ok s3MD5)
        end in
      match readUploadsJSON e s1 bucket object with
      | Ok uploadsJSON =>
          let uploadIDIdx := uploads_Index uploadsJSON uploadID in
          let uploadsJSON :=
            if decide (uploadIDIdx ≠ -1)
            then removeUpload uploadsJSON uploadIDIdx
            else uploadsJSON in
          if decide (0 < length (Uploads uploadsJSON))%nat
          then
            match updateUploadsJSON e bucket object uploadsJSON s1 with
            | (s2, Some err) => (s2, Err err)
            | (s2, None) => (s2, Ok s3MD5)
            end
          else deleteDir
      | Err _ => deleteDir
      end
  end.

(** [abortMultipartUpload] (lines 488-535). *)
Definition abortMultipartUpload (e : env) (s : store)
    (bucket object uploadID : string) : store * option error :=
  if negb (IsValidBucketName e bucket) then (s, Some (BucketNameInvalid bucket))
  else if negb (isBucketExist s bucket) then (s, Some (BucketNotFound bucket))
  else if negb (IsValidObjectName e object)
  then (s, Some (ObjectNameInvalid bucket object))
  else if negb (isUploadIDExists s bucket object uploadID)
  then (s, Some (InvalidUploadID uploadID))
  else
    match cleanupUploadedParts e bucket object uploadID s with
    | (s1, Some err) => (s1, Some (toObjectErr err bucket object))
    | (s1, None) =>
        let deleteDir :=
          match deleteObject e (MultipartDir bucket object) s1 with
          | (s2, Some err) =>
              (s2, Some (toObjectErr err minioMetaBucket
                           (pathName (MultipartDir bucket object))))
          | (s2, None) => (s2, None)
          end in
        match readUploadsJSON e s1 bucket object with
        | Ok uploadsJSON =>
            let uploadIDIdx := uploads_Index uploadsJSON uploadID in
            let uploadsJSON :=
              if decide (uploadIDIdx ≠ -1)
              then removeUpload uploadsJSON uploadIDIdx
              else uploadsJSON in
            if decide (0 < length (Uploads uploadsJSON))%nat
            then
              match updateUploadsJSON e bucket object uploadsJSON s1 with
              | (s2, Some err) => (s2, Some (toObjectErr err bucket object))
              | (s2, None) => (s2, None)
              end
            else deleteDir
        | Err _ => deleteDir
        end
    end.

Definition AbortMultipartUpload := abortMultipartUpload.

(** The xl.json under a path, and the part numbers it lists. *)
Definition metaAt (s : store) (p : path) : option xlMetaV1 :=
  match getDir s p with
  | Some d => xlJSON d
  | None => None
  end.

Definition partNumbersAt (s : store) (p : path) : list Z :=
  match metaAt s p with
  | Some m => Number <$> Parts m
  | None => []
  end.

(** Every part listed in the xl.json under a path has its file there. *)
Definition partFilesPresent (s : store) (p : path) : bool :=
  match getDir s p with
  | Some d =>
      match xlJSON d with
      | Some m => forallb (fun q => bool_decide (is_Some (files d !! Name q))) (Parts m)
      | None => false
      end
  | None => false
  end.

(** [strings.EqualFold] on ASCII letters. *)
Definition toLower (c : ascii) : ascii :=
  let n := Ascii.N_of_ascii c in
  if ((65 <=? n) && (n <=? 90))%N then Ascii.ascii_of_N (n + 32) else c.

Fixpoint EqualFold (s t : string) : bool :=
  match s, t with
  | EmptyString, EmptyString => true
  | String a s', String b t' =>
      bool_decide (toLower a = toLower b) && EqualFold s' t'
  | _, _ => false
  end.

(** ** Vocabulary of the properties *)

(** The first part of that number, the way the Go code finds it. *)
Definition storedPart (m : xlMetaV1) (partNumber : Z) : option objectPartInfo :=
  if decide (ObjectPartIndex m partNumber = -1) then None
  else Parts m !! Z.to_nat (ObjectPartIndex m partNumber).

(** Client part [q], at position [j] of [len], passes the three checks
    against the stored record [m]. *)
Definition partOK (m : xlMetaV1) (len j : Z) (q : completePart) : Prop :=
  ∃ cur, storedPart m (cp_PartNumber q) = Some cur
         ∧ ETag cur = cp_ETag q
         ∧ (j < len - 1 → 5 * 1024 * 1024 ≤ Size cur).

(** The entry the loop writes for client part [q] matched with [cur]. *)
Definition newPart (q : completePart) (cur : objectPartInfo) : objectPartInfo :=
  {| Number := cp_PartNumber q; Name := partSuffixOf (cp_PartNumber q);
     ETag := cp_ETag q; Size := Size cur |}.

(** The binary MD5 of a stored part: what its ETag decodes to. *)
Definition binaryMD5 (p : objectPartInfo) : option (list byte) :=
  Hex.DecodeString (ETag p).

(** Each part number appears at most once and the parts are in ascending
    order of part number. *)
Definition partsOrdered (ps : list objectPartInfo) : Prop :=
  NoDup (Number <$> ps) ∧ Sorted Z.le (Number <$> ps).

#[global] Instance partsOrdered_dec (ps : list objectPartInfo) :
  Decision (partsOrdered ps).
Proof. unfold partsOrdered. apply _. Defined.

(** A listed entry shows the number, ETag and size of the stored part. *)
Definition shows (p : objectPartInfo) (i : partInfo) : Prop :=
  pi_PartNumber i = Number p ∧ pi_ETag i = ETag p ∧ pi_Size i = Size p.

(** The window of a listing: the stored parts after the marker's entry,
    or all of them when no part has the marker's number. *)
Definition afterMarker (m : xlMetaV1) (partNumberMarker : Z) : list objectPartInfo :=
  if decide (ObjectPartIndex m partNumberMarker ≠ -1)
  then drop (Z.to_nat (ObjectPartIndex m partNumberMarker + 1)) (Parts m)
  else Parts m.

(** The part files the trimming loop leaves of [fs]. *)
Fixpoint trimFiles (xlMeta : xlMetaV1) (currentParts : list objectPartInfo)
    (fs : gmap string fileInfo) : gmap string fileInfo :=
  match currentParts with
  | [] => fs
  | curpart :: rest =>
      trimFiles xlMeta rest
        (if decide (ObjectPartIndex xlMeta (Number curpart) = -1)
         then delete (Name curpart) fs else fs)
  end.

(** ** A small installation to run the operations on *)

Module Demo.

Definition noFault : prim -> path -> option error := fun _ _ => None.

Definition env0 : env :=
  {| IsValidBucketName := fun _ => true;
     IsValidObjectName := fun _ => true;
     mimeType := fun _ => None;
     blockSizeV1 := 4;
     maxPartsList := 1000;
     now := 1466000000;
     getUUID := "U1";
     appendFileCount := fun buf => Z.of_nat (length buf);
     fault := noFault |}.

Definition withUUID (id : string) (e : env) : env :=
  {| IsValidBucketName := IsValidBucketName e;
     IsValidObjectName := IsValidObjectName e;
     mimeType := mimeType e; blockSizeV1 := blockSizeV1 e;
     maxPartsList := maxPartsList e; now := now e; getUUID := id;
     appendFileCount := appendFileCount e; fault := fault e |}.

Definition withFault (p : prim) (target : path) (err : error) (e : env) : env :=
  {| IsValidBucketName := IsValidBucketName e;
     IsValidObjectName := IsValidObjectName e;
     mimeType := mimeType e; blockSizeV1 := blockSizeV1 e;
     maxPartsList := maxPartsList e; now := now e; getUUID := getUUID e;
     appendFileCount := appendFileCount e;
     fault := fun q t => if decide (q = p ∧ t = target) then Some err
                         else fault e q t |}.

Definition store0 : store :=
  {| buckets := {["b"]}; multipart := ∅; tmp := ∅; objects := ∅ |}.

Definition reader (s : string) : Reader :=
  {| rd_data := bytes_of_string s; rd_err := None |}.

(** The store after a successful call, the store as it was otherwise. *)
Definition after {A} (s : store) (r : store * result A) : store :=
  match r with
  | (s', Ok _) => s'
  | (_, Err _) => s
  end.

Definition afterPut (s : store) (r : option (store * result string)) : store :=
  match r with
  | Some r' => after s r'
  | None => s
  end.

(** Initiate U1 on b/k. *)
Definition store1 : store := after store0 (newMultipartUpload env0 store0 "b" "k" None).

Definition MiB : Z := 1024 * 1024.

Definition etag_abc : string := "900150983cd24fb0d6963f7d28e17f72".
Definition etag_hello : string := "5eb63bbbe01eeed093cb22bb8f5acdc3".
Definition etag_xyz : string := "d16fb36f0911f878998c136191af705e".

Definition put (s : store) (partID size : Z) (data : string) : store :=
  afterPut s (putObjectPart env0 s "b" "k" "U1" partID size (reader data) "").

(** Parts 1, 2 and 3 of U1.  A part is recorded with the size its caller
    declares, so the short parts 1 and 3 stand for 6 MiB parts. *)
Definition store2 : store := put store1 1 (6 * MiB) "abc".
Definition store3 : store := put store2 2 11 "hello world".
Definition store4 : store := put store3 3 (6 * MiB) "xyz".

(** The environment of a completion: its [getUUID] names the directory the
    previous object is moved to. *)
Definition envX : env := withUUID "X" env0.

Definition cp (n : Z) (etag : string) : completePart :=
  {| cp_PartNumber := n; cp_ETag := etag |}.

(** An upload of b/k that holds parts 1 and 3 only. *)
Definition store13 : store := put (put store1 1 3 "abc") 3 3 "xyz".

(** A second upload, U2, of b/k, next to U1 and its part 1. *)
Definition storeTwo : store :=
  after store2 (newMultipartUpload (withUUID "U2" env0) store2 "b" "k" None).

(** A disk fails while uploads.json of b/k is read. *)
Definition envReadFails : env :=
  withFault p_readUploadsJSON (MultipartDir "b" "k") (errDisk "disk offline") envX.

End Demo.

(** * Properties *)

(** ** The hash and the hexadecimal codec *)

Example md5_empty :
  Hex.EncodeToString (MD5.sum []) = "d41d8cd98f00b204e9800998ecf8427e".
Proof. vm_compute. reflexivity. Qed.

Example md5_abc :
  Hex.EncodeToString (MD5.sum (bytes_of_string "abc"))
  = "900150983cd24fb0d6963f7d28e17f72".
Proof. vm_compute. reflexivity. Qed.

Example md5_two_blocks :
  Hex.EncodeToString (MD5.sum (repeat "a"%byte 70))
  = "0f5c6c4e740bfcc08c3c26ccb2673d46".
Proof. vm_compute. reflexivity. Qed.

Lemma hex_digits_of_byte (b : byte) :
  Hex.value (Hex.digit (Byte.to_N b / 16)) = Some (Byte.to_N b / 16)%N
  ∧ Hex.value (Hex.digit (Byte.to_N b mod 16)) = Some (Byte.to_N b mod 16)%N
  ∧ Byte.of_N (16 * (Byte.to_N b / 16) + Byte.to_N b mod 16) = Some b.
Proof. destruct b; vm_compute; done. Qed.

Lemma hex_decode_cons (b : byte) (bs : list byte) :
  Hex.DecodeString (Hex.EncodeToString (b :: bs))
  = match Hex.DecodeString (Hex.EncodeToString bs) with
    | Some r => Some (b :: r)
    | None => None
    end.
Proof.
  destruct (hex_digits_of_byte b) as (Hhi & Hlo & Hb).
  cbn [Hex.EncodeToString Hex.DecodeString]. rewrite Hhi, Hlo.
  destruct (Hex.DecodeString (Hex.EncodeToString bs)); [|done].
  by rewrite Hb.
Qed.

Lemma hex_roundtrip (bs : list byte) :
  Hex.DecodeString (Hex.EncodeToString bs) = Some bs.
Proof.
  induction bs as [|b bs IH]; [reflexivity|].
  rewrite hex_decode_cons, IH. reflexivity.
Qed.

Example demo_initiate :
  snd (newMultipartUpload Demo.env0 Demo.store0 "b" "k" None) = Ok "U1".
Proof. vm_compute. reflexivity. Qed.

Example demo_put :
  snd <$> putObjectPart Demo.env0 Demo.store1 "b" "k" "U1" 1 3
            (Demo.reader "abc") ""
  = Some (Ok "900150983cd24fb0d6963f7d28e17f72").
Proof. vm_compute. reflexivity. Qed.

(** ** Facts about the namespace *)

Lemma getDir_putDir_eq (p : path) (d : objectDir) (s : store) :
  (∀ b o, p ≠ MultipartDir b o) → getDir (putDir p d s) p = Some d.
Proof.
  intros Hp. destruct p as [id|b o id|b o|b o]; cbn.
  - apply lookup_insert_eq.
  - rewrite lookup_insert_eq. cbn. apply lookup_insert_eq.
  - exfalso. by eapply Hp.
  - apply lookup_insert_eq.
Qed.

Lemma getDir_putDir_ne (p q : path) (d : objectDir) (s : store) :
  p ≠ q → getDir (putDir p d s) q = getDir s q.
Proof.
  intros Hne.
  destruct p as [id|b o id|b o|b o], q as [id'|b' o' id'|b' o'|b' o'];
    cbn; try reflexivity.
  - apply lookup_insert_ne. congruence.
  - destruct (decide ((b, o) = (b', o'))) as [[= <- <-]|Hbo].
    + rewrite lookup_insert_eq. cbn.
      rewrite lookup_insert_ne by congruence.
      destruct (multipart s !! (b, o)); [reflexivity|]. cbn. apply lookup_empty.
    + rewrite lookup_insert_ne by done. reflexivity.
  - apply lookup_insert_ne. congruence.
Qed.

Lemma under_refl (object : string) : under object object = true.
Proof. unfold under. by rewrite bool_decide_eq_true_2. Qed.

Lemma pathUnder_refl (p : path) : pathUnder p p.
Proof.
  destruct p as [id|b o id|b o|b o]; cbn; try done.
  split; [done|]. by rewrite under_refl.
Qed.

Lemma multipart_removeDir_eq (b o : string) (s : store) :
  multipart (removeDir (MultipartDir b o) s) !! (b, o) = None.
Proof.
  cbn [removeDir multipart]. apply map_lookup_filter_None. right.
  intros md _ Hkeep. apply Hkeep. cbn. by rewrite under_refl.
Qed.

Lemma multipart_removeDir_ne (b o b' o' : string) (s : store) :
  ¬ (b' = b ∧ under o o') →
  multipart (removeDir (MultipartDir b o) s) !! (b', o') = multipart s !! (b', o').
Proof.
  intros Hout. cbn [removeDir multipart].
  destruct (multipart s !! (b', o')) as [md|] eqn:Hmd.
  - by apply map_lookup_filter_Some.
  - apply map_lookup_filter_None. by left.
Qed.

Lemma getDir_removeDir_eq (p : path) (s : store) : getDir (removeDir p s) p = None.
Proof.
  destruct p as [id|b o id|b o|b o]; cbn.
  - apply lookup_delete_eq.
  - destruct (multipart s !! (b, o)) as [md|] eqn:Hmd; cbn.
    + rewrite lookup_insert_eq. cbn. apply lookup_delete_eq.
    + by rewrite Hmd.
  - reflexivity.
  - apply map_lookup_filter_None. right.
    intros d _ Hkeep. apply Hkeep. cbn. by rewrite under_refl.
Qed.

(** A removal leaves alone every directory that does not lie under the
    removed path. *)
Lemma getDir_removeDir_outside (p q : path) (s : store) :
  ¬ pathUnder p q → getDir (removeDir p s) q = getDir s q.
Proof.
  intros Hout. destruct p as [id|b o id|b o|b o].
  - destruct q; cbn in *; try reflexivity. apply lookup_delete_ne. congruence.
  - cbn. destruct (multipart s !! (b, o)) as [md|] eqn:Hmd; [|reflexivity].
    destruct q as [id'|b' o' id'|b' o'|b' o']; cbn in *; try reflexivity.
    destruct (decide ((b, o) = (b', o'))) as [[= <- <-]|Hbo].
    + rewrite lookup_insert_eq, Hmd. cbn.
      apply lookup_delete_ne. congruence.
    + rewrite lookup_insert_ne by done. reflexivity.
  - destruct q as [id'|b' o' id'|b' o'|b' o']; try reflexivity.
    cbn [getDir]. by rewrite multipart_removeDir_ne.
  - destruct q as [id'|b' o' id'|b' o'|b' o']; try reflexivity.
    cbn in *. destruct (objects s !! (b', o')) as [d|] eqn:Hd.
    + by apply map_lookup_filter_Some.
    + apply map_lookup_filter_None. by left.
Qed.

(** Removing a staging or an upload directory leaves every other directory
    alone. *)
Lemma getDir_removeDir_ne (p q : path) (s : store) :
  p ≠ q → (∀ b o, p ≠ MultipartDir b o) → (∀ b o, p ≠ ObjectDir b o) →
  getDir (removeDir p s) q = getDir s q.
Proof.
  intros Hne Hp Hp'. apply getDir_removeDir_outside.
  destruct p as [id|b o id|b o|b o]; cbn; [congruence..| |].
  - exfalso. by eapply Hp.
  - exfalso. by eapply Hp'.
Qed.

Lemma getDir_removeDir_multipart (b o : string) (q : path) (s : store) :
  (∀ b' o' id, q ≠ UploadDir b' o' id) →
  getDir (removeDir (MultipartDir b o) s) q = getDir s q.
Proof.
  intros Hq. destruct q as [id'|b' o' id'|b' o'|b' o']; try reflexivity.
  exfalso. by eapply Hq.
Qed.

Lemma getDir_setUploadsJSON (b o : string) (u : uploadsV1) (q : path) (s : store) :
  getDir (setUploadsJSON b o u s) q = getDir s q.
Proof.
  destruct q as [id'|b' o' id'|b' o'|b' o']; cbn; try reflexivity.
  destruct (decide ((b, o) = (b', o'))) as [[= <- <-]|Hbo].
  - rewrite lookup_insert_eq. cbn.
    destruct (multipart s !! (b, o)); [reflexivity|]. cbn. apply lookup_empty.
  - rewrite lookup_insert_ne by done. reflexivity.
Qed.

(** ** Facts about [ObjectPartIndex] *)

Lemma partIndexFrom_range (i : Z) (ps : list objectPartInfo) (n : Z) :
  0 ≤ i →
  partIndexFrom i ps n = -1 ∨
  i ≤ partIndexFrom i ps n < i + Z.of_nat (length ps).
Proof.
  revert i. induction ps as [|p ps IH]; intros i Hi; cbn; [by left|].
  destruct (decide (n = Number p)); [right; lia|].
  destruct (IH (i + 1) ltac:(lia)) as [->|?]; [by left|right; lia].
Qed.

Lemma partIndexFrom_none (i : Z) (ps : list objectPartInfo) (n : Z) :
  0 ≤ i → partIndexFrom i ps n = -1 ↔ n ∉ Number <$> ps.
Proof.
  revert i. induction ps as [|p ps IH]; intros i Hi; cbn.
  - split; [intros _; apply not_elem_of_nil|done].
  - rewrite not_elem_of_cons. destruct (decide (n = Number p)) as [->|Hn].
    + split; [lia|]. intros [? _]. done.
    + rewrite IH by lia. tauto.
Qed.

Lemma partIndexFrom_lookup (i : Z) (ps : list objectPartInfo) (n : Z) :
  0 ≤ i → partIndexFrom i ps n ≠ -1 →
  ∃ p, ps !! Z.to_nat (partIndexFrom i ps n - i) = Some p ∧ Number p = n
       ∧ head (filter (λ q, Number q = n) ps) = Some p.
Proof.
  revert i. induction ps as [|p ps IH]; intros i Hi; cbn [partIndexFrom]; [done|].
  destruct (decide (n = Number p)) as [->|Hn]; intros Hidx.
  - exists p. rewrite Z.sub_diag, filter_cons_True by done. done.
  - destruct (IH (i + 1) ltac:(lia) Hidx) as (q & Hq & Hnum & Hhd).
    exists q. rewrite filter_cons_False by congruence. split_and!; [|done..].
    pose proof (partIndexFrom_range (i + 1) ps n ltac:(lia)) as [?|?]; [done|].
    replace (Z.to_nat (partIndexFrom (i + 1) ps n - i))
      with (S (Z.to_nat (partIndexFrom (i + 1) ps n - (i + 1)))) by lia.
    done.
Qed.

Lemma storedPart_spec (m : xlMetaV1) (n : Z) :
  storedPart m n = head (filter (λ q, Number q = n) (Parts m)).
Proof.
  unfold storedPart, ObjectPartIndex. case_decide as Hidx.
  - apply partIndexFrom_none in Hidx; [|lia].
    symmetry. apply head_None.
    destruct (filter _ _) as [|q ?] eqn:Hf; [done|]. exfalso.
    assert (q ∈ filter (λ q, Number q = n) (Parts m)) as Hq
      by (rewrite Hf; apply list_elem_of_here).
    apply list_elem_of_filter in Hq as [<- Hq].
    apply Hidx. apply list_elem_of_fmap. eauto.
  - destruct (partIndexFrom_lookup 0 (Parts m) n ltac:(lia) Hidx)
      as (p & Hp & _ & Hhd).
    rewrite Z.sub_0_r in Hp. by rewrite Hp, Hhd.
Qed.

Lemma storedPart_lookup_total (m : xlMetaV1) (n : Z) (p : objectPartInfo) :
  storedPart m n = Some p →
  ObjectPartIndex m n ≠ -1 ∧ Parts m !!! Z.to_nat (ObjectPartIndex m n) = p
  ∧ Number p = n ∧ p ∈ Parts m.
Proof.
  unfold storedPart. case_decide as Hidx; [done|]. intros Hp.
  split; [done|]. split; [by apply list_lookup_total_correct|].
  unfold ObjectPartIndex in *.
  destruct (partIndexFrom_lookup 0 (Parts m) n ltac:(lia) Hidx)
    as (q & Hq & Hnum & _).
  rewrite Z.sub_0_r in Hq. split; [congruence|].
  by eapply list_elem_of_lookup_2.
Qed.

Lemma storedPart_None (m : xlMetaV1) (n : Z) :
  storedPart m n = None ↔ n ∉ Number <$> Parts m.
Proof.
  unfold storedPart, ObjectPartIndex. case_decide as Hidx.
  - split; [|done]. intros _. by apply partIndexFrom_none in Hidx.
  - split.
    + intros Hnone.
      destruct (partIndexFrom_lookup 0 (Parts m) n ltac:(lia) Hidx)
        as (q & Hq & _). rewrite Z.sub_0_r in Hq. congruence.
    + intros Hn. exfalso. apply Hidx. by apply partIndexFrom_none.
Qed.

Lemma readMeta_Ok (p : prim) (e : env) (s : store) (dir : path) (m : xlMetaV1) :
  readMeta p e s dir = Ok m →
  isObject s dir = true ∧ ∃ d, getDir s dir = Some d ∧ xlJSON d = Some m.
Proof.
  unfold readMeta, isObject. destruct (fault e p dir); [done|].
  destruct (getDir s dir) as [d|]; [|done].
  destruct (xlJSON d) as [m'|] eqn:Hm; [|done].
  intros [= ->]. eauto.
Qed.

(** ** The validation loop *)

Lemma validateParts_cons_ok (m : xlMetaV1) (len i : Z) (q : completePart)
    (rest : list completePart) (sz : Z) (acc : list objectPartInfo)
    (cur : objectPartInfo) :
  storedPart m (cp_PartNumber q) = Some cur → ETag cur = cp_ETag q →
  (i < len - 1 → 5 * 1024 * 1024 ≤ Size cur) →
  validateParts m len i (q :: rest) sz acc
  = validateParts m len (i + 1) rest (wrap64 (sz + Size cur))
      (acc ++ [newPart q cur]).
Proof.
  intros Hcur Hetag Hsize.
  apply storedPart_lookup_total in Hcur as (Hidx & Hlook & _).
  cbn [validateParts]. rewrite decide_False by done. rewrite Hlook.
  rewrite decide_False by (intros H; by apply H).
  unfold isMinAllowedPartSize.
  destruct (i <? len - 1) eqn:Hi; cbn [andb]; [|reflexivity].
  apply Z.ltb_lt in Hi. rewrite bool_decide_eq_true_2 by auto. reflexivity.
Qed.

Lemma validateParts_cons_inv (m : xlMetaV1) (len i : Z) (q : completePart)
    (rest : list completePart) (sz : Z) (acc : list objectPartInfo)
    (r : Z * list objectPartInfo) :
  validateParts m len i (q :: rest) sz acc = Ok r →
  ∃ cur, storedPart m (cp_PartNumber q) = Some cur ∧ ETag cur = cp_ETag q
         ∧ (i < len - 1 → 5 * 1024 * 1024 ≤ Size cur)
         ∧ validateParts m len (i + 1) rest (wrap64 (sz + Size cur))
             (acc ++ [newPart q cur]) = Ok r.
Proof.
  cbn [validateParts]. case_decide as Hidx; [done|].
  case_decide as Hetag; [done|].
  destruct (_ && _) eqn:Hsmall; [done|]. intros Hrest.
  assert (storedPart m (cp_PartNumber q)
          = Some (Parts m !!! Z.to_nat (ObjectPartIndex m (cp_PartNumber q))))
    as Hstored.
  { unfold storedPart. rewrite decide_False by done.
    destruct (partIndexFrom_lookup 0 (Parts m) (cp_PartNumber q) ltac:(lia) Hidx)
      as (p & Hp & _).
    rewrite Z.sub_0_r in Hp. unfold ObjectPartIndex.
    rewrite Hp. f_equal. symmetry. by apply list_lookup_total_correct. }
  eexists. split; [exact Hstored|]. split; [exact Hetag|].
  split; [|exact Hrest].
  intros Hi. apply andb_false_iff in Hsmall as [Hlt|Hmin].
  - apply Z.ltb_ge in Hlt. lia.
  - apply negb_false_iff in Hmin. unfold isMinAllowedPartSize in Hmin.
    by apply bool_decide_eq_true in Hmin.
Qed.

(** The loop walks over a prefix of parts that all pass. *)
Lemma validateParts_prefix (m : xlMetaV1) (len : Z) (pre rest : list completePart) :
  ∀ (i sz : Z) (acc : list objectPartInfo),
    (∀ (j : nat) q, pre !! j = Some q → partOK m len (i + Z.of_nat j) q) →
    ∃ sz' acc',
      validateParts m len i (pre ++ rest) sz acc
      = validateParts m len (i + Z.of_nat (length pre)) rest sz' acc'.
Proof.
  induction pre as [|q pre IH]; intros i sz acc Hok.
  - exists sz, acc. cbn. by rewrite Z.add_0_r.
  - destruct (Hok 0%nat q eq_refl) as (cur & Hcur & Hetag & Hsize).
    rewrite Z.add_0_r in Hsize.
    cbn [app]. rewrite (validateParts_cons_ok _ _ _ _ _ _ _ cur) by done.
    destruct (IH (i + 1) (wrap64 (sz + Size cur)) (acc ++ [newPart q cur]))
      as (sz' & acc' & Heq).
    { intros j q' Hj. specialize (Hok (S j) q' Hj).
      by replace (i + 1 + Z.of_nat j) with (i + Z.of_nat (S j)) by lia. }
    exists sz', acc'. rewrite Heq. f_equal. cbn [length]. lia.
Qed.

(** What a completed validation has established. *)
Lemma validateParts_Ok (m : xlMetaV1) (len : Z) (parts : list completePart) :
  ∀ (i sz : Z) (acc : list objectPartInfo) (r : Z * list objectPartInfo),
    validateParts m len i parts sz acc = Ok r →
    ∃ sel, Forall2 (λ q cur, storedPart m (cp_PartNumber q) = Some cur
                             ∧ ETag cur = cp_ETag q) parts sel
           ∧ snd r = acc ++ zip_with newPart parts sel.
Proof.
  induction parts as [|q parts IH]; intros i sz acc r.
  - cbn. intros [= <-]. exists []. split; [constructor|]. cbn. by rewrite app_nil_r.
  - intros (cur & Hcur & Hetag & _ & Hrest)%validateParts_cons_inv.
    destruct (IH _ _ _ _ Hrest) as (sel & Hsel & Hacc).
    exists (cur :: sel). split; [by constructor|].
    rewrite Hacc, <-app_assoc. reflexivity.
Qed.

Lemma zip_with_newPart_numbers (parts : list completePart) (sel : list objectPartInfo) :
  length parts = length sel →
  Number <$> zip_with newPart parts sel = cp_PartNumber <$> parts.
Proof.
  revert sel. induction parts as [|q parts IH]; intros [|c sel]; cbn; try done.
  intros [= Hlen]. by rewrite IH.
Qed.

(** ** The shape of a successful completion *)

Lemma completeCommit_Ok (e : env) (s s' : store) (bucket object uploadID : string)
    (parts : list completePart) (tag : string) :
  completeCommit e s bucket object uploadID parts = (s', Ok tag) →
  ∃ m objectSize newParts s1 s2 s3 s5,
    completeMultipartMD5 parts = Ok tag
    ∧ readAllXLMetadata e s (UploadDir bucket object uploadID) = Ok m
    ∧ validateParts m (Z.of_nat (length parts)) 0 parts 0 []
      = Ok (objectSize, newParts)
    ∧ writeUniqueXLMetadata e (TmpDir uploadID)
        {| Stat := {| st_Size := objectSize; st_ModTime := now e;
                      st_Version := st_Version (Stat m) |};
           Meta := <["md5Sum" := tag]> (Meta m); Parts := newParts |} s
      = (s1, None)
    ∧ renameXLMetadata e (TmpDir uploadID) (UploadDir bucket object uploadID) s1
      = (s2, None)
    ∧ renameObject e (ObjectDir bucket object) (TmpDir (getUUID e)) s2 = (s3, None)
    ∧ renameObject e (UploadDir bucket object uploadID) (ObjectDir bucket object)
        (trimParts bucket object uploadID
           {| Stat := {| st_Size := objectSize; st_ModTime := now e;
                         st_Version := st_Version (Stat m) |};
              Meta := <["md5Sum" := tag]> (Meta m); Parts := newParts |}
           (Parts m) s3)
      = (s5, None)
    ∧ s' = fst (deleteObject e (TmpDir (getUUID e)) s5).
Proof.
  unfold completeCommit.
  destruct (negb (IsValidBucketName e bucket)); [done|].
  destruct (negb (isBucketExist s bucket)); [done|].
  destruct (negb (IsValidObjectName e object)); [done|].
  destruct (negb (isUploadIDExists s bucket object uploadID)); [done|].
  destruct (completeMultipartMD5 parts) as [s3MD5|]; [|done].
  destruct (readAllXLMetadata e s _) as [m|]; [|done].
  destruct (validateParts m _ 0 parts 0 []) as [[objectSize newParts]|] eqn:Hval;
    [|done].
  destruct (parentDirIsObject s bucket object); [done|].
  destruct (writeUniqueXLMetadata e _ _ s) as [s1 [?|]] eqn:Hw; [done|].
  destruct (renameXLMetadata e _ _ s1) as [s2 [?|]] eqn:Hr; [done|].
  destruct (renameObject e (ObjectDir bucket object) _ s2) as [s3 [?|]] eqn:Ha;
    [done|].
  destruct (renameObject e (UploadDir bucket object uploadID) _ _)
    as [s5 [?|]] eqn:Hc; [done|].
  intros [= <- <-].
  exists m, objectSize, newParts, s1, s2, s3, s5. by split_and!.
Qed.

Lemma CompleteMultipartUpload_Ok (e : env) (s s' : store)
    (bucket object uploadID : string) (parts : list completePart) (tag : string) :
  CompleteMultipartUpload e s bucket object uploadID parts = (s', Ok tag) →
  ∃ s1, completeCommit e s bucket object uploadID parts = (s1, Ok tag)
        ∧ ∀ q, (∀ b o id, q ≠ UploadDir b o id) → getDir s' q = getDir s1 q.
Proof.
  unfold CompleteMultipartUpload.
  destruct (completeCommit e s bucket object uploadID parts) as [s1 [tag'|]];
    [|done].
  assert (∀ r : store * result string,
            match deleteObject e (MultipartDir bucket object) s1 with
            | (s2, Some err) =>
                (s2, Err (toObjectErr err minioMetaBucket
                            (pathName (MultipartDir bucket object))))
            | (s2, None) => (s2, Ok tag')
            end = r → r = (s', Ok tag) →
            tag' = tag ∧ ∀ q, (∀ b o id, q ≠ UploadDir b o id) →
                              getDir s' q = getDir s1 q) as Hdel.
  { intros r <-. unfold deleteObject. destruct (fault e p_deleteObject _); [done|].
    intros [= <- <-]. split; [done|]. intros q Hq.
    by apply getDir_removeDir_multipart. }
  intros Hres. cut (tag' = tag ∧ ∀ q, (∀ b o id, q ≠ UploadDir b o id) →
                                      getDir s' q = getDir s1 q).
  { intros [-> ?]. eauto. }
  destruct (readUploadsJSON e s1 bucket object) as [u|]; [|by eapply Hdel].
  case_decide; [|by eapply Hdel].
  unfold updateUploadsJSON in Hres.
  destruct (fault e p_updateUploadsJSON _); [done|].
  injection Hres as <- <-. split; [done|]. intros q _.
  apply getDir_setUploadsJSON.
Qed.

Lemma mapM_decode_selected (parts : list completePart) (sel : list objectPartInfo) :
  Forall2 (λ q cur, ETag cur = cp_ETag q) parts sel →
  mapM (λ p, Hex.DecodeString (cp_ETag p)) parts
  = mapM (λ p, Hex.DecodeString (ETag p)) sel.
Proof.
  induction 1 as [|q cur parts sel Hetag _ IH]; [done|].
  cbn. by rewrite Hetag, IH.
Qed.

(** C1.  Whenever CompleteMultipartUpload returns success, the ETag it
    returns is the hexadecimal MD5 of the concatenation of the binary MD5s
    of the stored parts the client selected, taken in the order of the
    client's list, followed by "-" and the number of client parts.
    [completeMultipartMD5] is modelled from the specification; the theorem
    ties its result to the parts stored in xl.json. *)
Theorem CompleteMultipartUpload_etag (e : env) (s s' : store)
    (bucket object uploadID : string) (clientParts : list completePart)
    (etag : string) :
  CompleteMultipartUpload e s bucket object uploadID clientParts = (s', Ok etag) →
  ∃ currentXLMeta selected md5s,
    readAllXLMetadata e s (UploadDir bucket object uploadID) = Ok currentXLMeta
    ∧ Forall2 (λ q cur, storedPart currentXLMeta (cp_PartNumber q) = Some cur)
        clientParts selected
    ∧ mapM binaryMD5 selected = Some md5s
    ∧ etag = Hex.EncodeToString (MD5.sum (concat md5s))
               +:+ "-" +:+ pretty (length clientParts).
Proof.
  intros (s1 & Hcommit & _)%CompleteMultipartUpload_Ok.
  apply completeCommit_Ok in Hcommit
    as (m & objectSize & newParts & _ & _ & _ & _ & Hmd5 & Hread & Hval & _).
  apply validateParts_Ok in Hval as (sel & Hsel & _).
  unfold completeMultipartMD5 in Hmd5.
  rewrite (mapM_decode_selected clientParts sel) in Hmd5
    by (eapply Forall2_impl; [exact Hsel|]; by intros ?? [_ ?]).
  destruct (mapM _ sel) as [md5s|] eqn:Hdec; [|done].
  injection Hmd5 as <-.
  exists m, sel, md5s. split_and!; [done| |done..].
  eapply Forall2_impl; [exact Hsel|]. by intros ?? [? _].
Qed.

Lemma CompleteMultipartUpload_etag_witness :
  ∃ currentXLMeta selected md5s,
    readAllXLMetadata Demo.envX Demo.store3 (UploadDir "b" "k" "U1")
    = Ok currentXLMeta
    ∧ Forall2 (λ q cur, storedPart currentXLMeta (cp_PartNumber q) = Some cur)
        [Demo.cp 1 Demo.etag_abc; Demo.cp 2 Demo.etag_hello] selected
    ∧ mapM binaryMD5 selected = Some md5s
    ∧ "113397061527a63699347916f179e1b8-2"
      = Hex.EncodeToString (MD5.sum (concat md5s))
          +:+ "-" +:+ pretty (length [Demo.cp 1 Demo.etag_abc;
                                      Demo.cp 2 Demo.etag_hello]).
Proof.
  apply (CompleteMultipartUpload_etag Demo.envX Demo.store3
           (fst (CompleteMultipartUpload Demo.envX Demo.store3 "b" "k" "U1"
                   [Demo.cp 1 Demo.etag_abc; Demo.cp 2 Demo.etag_hello]))
           "b" "k" "U1").
  vm_compute. reflexivity.
Defined.

(** Reorder scenario of the specification: with the client list [3; 1] the
    digest is taken over the binary MD5 of part 3 followed by that of
    part 1. *)
Example CompleteMultipartUpload_etag_client_order :
  snd (CompleteMultipartUpload Demo.envX Demo.store4 "b" "k" "U1"
         [Demo.cp 3 Demo.etag_xyz; Demo.cp 1 Demo.etag_abc])
  = Ok "691828ba08033dc5a8738c753f5aa126-2"
  ∧ Hex.EncodeToString
      (MD5.sum (MD5.sum (bytes_of_string "xyz") ++ MD5.sum (bytes_of_string "abc")))
    = "691828ba08033dc5a8738c753f5aa126".
Proof. split; vm_compute; reflexivity. Qed.

(** C2 as the code has it.  On an existing upload the composite MD5 is
    computed from the client ETags before any part is validated (lines
    345-348): when some client ETag is not hexadecimal the call returns
    the decoding error, whatever the parts are.  When all of them are
    hexadecimal, the validation of clientParts goes through the list in
    order and the first part that fails decides the outcome: InvalidPart
    when its number is not among the stored parts, BadDigest when the
    stored part of that number has another ETag, PartTooSmall when it is
    not at the last position and its stored size is below 5 MiB.  In every
    one of these cases the store is handed back as it was: no metadata is
    written and nothing is renamed. *)
Theorem CompleteMultipartUpload_validation (e : env) (s : store)
    (bucket object uploadID : string) (clientParts : list completePart)
    (currentXLMeta : xlMetaV1) (k : nat) (part : completePart) :
  IsValidBucketName e bucket = true →
  isBucketExist s bucket = true →
  IsValidObjectName e object = true →
  readAllXLMetadata e s (UploadDir bucket object uploadID) = Ok currentXLMeta →
  clientParts !! k = Some part →
  (∀ (j : nat) q, (j < k)%nat → clientParts !! j = Some q →
     partOK currentXLMeta (Z.of_nat (length clientParts)) (Z.of_nat j) q) →
  let r := CompleteMultipartUpload e s bucket object uploadID clientParts in
  (∀ err, completeMultipartMD5 clientParts = Err err → r = (s, Err err))
  ∧ (∀ s3MD5, completeMultipartMD5 clientParts = Ok s3MD5 →
       (cp_PartNumber part ∉ Number <$> Parts currentXLMeta →
        r = (s, Err InvalidPart))
       ∧ (∀ cur, storedPart currentXLMeta (cp_PartNumber part) = Some cur →
            ETag cur ≠ cp_ETag part → r = (s, Err (BadDigest "" "")))
       ∧ (∀ cur, storedPart currentXLMeta (cp_PartNumber part) = Some cur →
            ETag cur = cp_ETag part →
            Z.of_nat k < Z.of_nat (length clientParts) - 1 →
            Size cur < 5 * 1024 * 1024 → r = (s, Err PartTooSmall))).
Proof.
  intros Hb Hbe Ho Hread Hk Hpre r.
  destruct (readMeta_Ok _ _ _ _ _ Hread) as [Hex _]. split.
  { intros err Hmd5. subst r. unfold CompleteMultipartUpload, completeCommit.
    unfold isUploadIDExists. rewrite Hb, Hbe, Ho, Hex. cbn [negb].
    by rewrite Hmd5. }
  intros s3MD5 Hmd5.
  assert (∀ err,
            validateParts currentXLMeta (Z.of_nat (length clientParts)) 0
              clientParts 0 [] = Err err → r = (s, Err err)) as Hfail.
  { intros err Hval. subst r. unfold CompleteMultipartUpload, completeCommit.
    unfold isUploadIDExists. rewrite Hb, Hbe, Ho, Hex. cbn [negb].
    by rewrite Hmd5, Hread, Hval. }
  pose proof (take_drop_middle _ _ _ Hk) as Hsplit.
  assert (length (take k clientParts) = k) as Hlen.
  { apply length_take_le. apply lookup_lt_Some in Hk. lia. }
  destruct (validateParts_prefix currentXLMeta (Z.of_nat (length clientParts))
              (take k clientParts) (part :: drop (S k) clientParts) 0 0 [])
    as (sz & acc & Hwalk).
  { intros j q Hj. rewrite Z.add_0_l.
    assert (j < k)%nat by (apply lookup_lt_Some in Hj; lia).
    apply Hpre; [done|]. by rewrite lookup_take_lt in Hj. }
  rewrite Hsplit, Hlen, Z.add_0_l in Hwalk.
  split_and!.
  - intros Hnum. apply Hfail. rewrite Hwalk. cbn [validateParts].
    apply storedPart_None in Hnum. unfold storedPart in Hnum.
    case_decide; [done|].
    exfalso. unfold ObjectPartIndex in *.
    destruct (partIndexFrom_lookup 0 (Parts currentXLMeta) (cp_PartNumber part)
                ltac:(lia) ltac:(done)) as (p & Hp & _).
    rewrite Z.sub_0_r in Hp. congruence.
  - intros cur Hcur Hetag. apply Hfail. rewrite Hwalk. cbn [validateParts].
    apply storedPart_lookup_total in Hcur as (Hidx & -> & _).
    rewrite decide_False by done. by rewrite decide_True.
  - intros cur Hcur Hetag Hpos Hsize. apply Hfail. rewrite Hwalk.
    cbn [validateParts].
    apply storedPart_lookup_total in Hcur as (Hidx & -> & _).
    rewrite decide_False by done.
    rewrite decide_False by (intros H; by apply H).
    unfold isMinAllowedPartSize.
    rewrite (proj2 (Z.ltb_lt _ _) Hpos).
    rewrite bool_decide_eq_false_2 by lia. reflexivity.
Qed.

Lemma CompleteMultipartUpload_validation_witness :
  CompleteMultipartUpload Demo.envX Demo.store3 "b" "k" "U1"
    [Demo.cp 1 Demo.etag_abc; Demo.cp 2 Demo.etag_hello; Demo.cp 3 Demo.etag_xyz]
  = (Demo.store3, Err PartTooSmall).
Proof.
  refine (proj2 (proj2 (proj2 (CompleteMultipartUpload_validation Demo.envX
            Demo.store3 "b" "k" "U1"
            [Demo.cp 1 Demo.etag_abc; Demo.cp 2 Demo.etag_hello;
             Demo.cp 3 Demo.etag_xyz]
            (default newXLMetaV1
               (metaAt Demo.store3 (UploadDir "b" "k" "U1")))
            1 (Demo.cp 2 Demo.etag_hello) _ _ _ _ _ _)
            "098448ed04747d747c4494ff79323e37-3" _))
            {| Number := 2; Name := "object2"; ETag := Demo.etag_hello;
               Size := 11 |} _ _ _ _);
    try (vm_compute; reflexivity).
  - intros j q Hj Hq. destruct j as [|j]; [|lia].
    injection Hq as <-.
    exists {| Number := 1; Name := "object1"; ETag := Demo.etag_abc;
              Size := 6 * Demo.MiB |}.
    split_and!; [vm_compute; reflexivity..|]. intros _. vm_compute. discriminate.
Defined.

(** C2 as the specification states it fails when a client ETag is not
    hexadecimal.  The upload holds parts 1 and 2.  A completion that names
    part 9, which is not stored, with the ETag "zz" returns the decoding
    error and not InvalidPart; a completion that names part 1 with the
    ETag "zz", which is not the stored one, returns the decoding error and
    not BadDigest. *)
Lemma CompleteMultipartUpload_etag_not_hexadecimal :
  partNumbersAt Demo.store3 (UploadDir "b" "k" "U1") = [1; 2]
  ∧ CompleteMultipartUpload Demo.envX Demo.store3 "b" "k" "U1" [Demo.cp 9 "zz"]
    = (Demo.store3, Err errHexDecode)
  ∧ errHexDecode ≠ InvalidPart
  ∧ CompleteMultipartUpload Demo.envX Demo.store3 "b" "k" "U1" [Demo.cp 1 "zz"]
    = (Demo.store3, Err errHexDecode)
  ∧ errHexDecode ≠ BadDigest "" "".
Proof. split_and!; try (vm_compute; reflexivity); discriminate. Qed.

(** ** Listing the parts of an upload *)

(** C10.  On an existing upload that lists at least one part, a listing
    with maxParts = 0 succeeds with no part, IsTruncated = false and no
    NextPartNumberMarker; and every successful listing returns in MaxParts
    the maxParts of the caller, clamped or not. *)
Theorem listObjectParts_zero_and_echo (e : env) (s : store)
    (bucket object uploadID : string) (partNumberMarker : Z) (xlMeta : xlMetaV1) :
  IsValidBucketName e bucket = true →
  isBucketExist s bucket = true →
  IsValidObjectName e object = true →
  readXLMetadata e s (UploadDir bucket object uploadID) = Ok xlMeta →
  Parts xlMeta ≠ [] →
  listObjectParts e s bucket object uploadID partNumberMarker 0
  = Ok {| lp_Bucket := bucket; lp_Object := object; lp_UploadID := uploadID;
          lp_PartNumberMarker := 0; lp_NextPartNumberMarker := 0;
          lp_MaxParts := 0; lp_IsTruncated := false; lp_Parts := [] |}
  ∧ ∀ marker maxParts r,
      listObjectParts e s bucket object uploadID marker maxParts = Ok r →
      lp_MaxParts r = maxParts.
Proof.
  intros Hb Hbe Ho Hread Hparts.
  destruct (readMeta_Ok _ _ _ _ _ Hread) as [Hex _].
  unfold listObjectParts, isUploadIDExists. rewrite Hb, Hbe, Ho, Hex, Hread.
  cbn [negb]. split.
  - rewrite (bool_decide_eq_true_2 (0 = 0)) by done.
    by rewrite orb_true_r.
  - intros marker maxParts r.
    destruct (_ || _); [by intros [= <-]|].
    destruct (listLoop _ _ _ _ _ _); [|done].
    case_decide; by intros [= <-].
Qed.

Lemma listObjectParts_zero_and_echo_witness :
  listObjectParts Demo.env0 Demo.store3 "b" "k" "U1" 7 0
  = Ok {| lp_Bucket := "b"; lp_Object := "k"; lp_UploadID := "U1";
          lp_PartNumberMarker := 0; lp_NextPartNumberMarker := 0;
          lp_MaxParts := 0; lp_IsTruncated := false; lp_Parts := [] |}
  ∧ ∀ marker maxParts r,
      listObjectParts Demo.env0 Demo.store3 "b" "k" "U1" marker maxParts = Ok r →
      lp_MaxParts r = maxParts.
Proof.
  apply (listObjectParts_zero_and_echo Demo.env0 Demo.store3 "b" "k" "U1" 7
           (default newXLMetaV1 (metaAt Demo.store3 (UploadDir "b" "k" "U1"))));
    try (vm_compute; reflexivity).
  vm_compute. discriminate.
Defined.

(** The listing echoes the caller's maxParts although it stops at
    [maxPartsList]. *)
Example listObjectParts_echo_clamped :
  lp_MaxParts <$> (match listObjectParts Demo.env0 Demo.store3 "b" "k" "U1" 0 5000
                   with Ok r => Some r | Err _ => None end)
  = Some 5000.
Proof. vm_compute. reflexivity. Qed.

(** C8, a listing that departs from the specification.  The upload holds
    parts 1 and 3 and the marker is 2: part 1, whose number is below the
    marker, is listed.  [ObjectPartIndex] finds no part numbered 2, so the
    listing starts at the first part. *)
Theorem listObjectParts_marker_not_a_part :
  (match listObjectParts Demo.env0 Demo.store13 "b" "k" "U1" 2 10 with
   | Ok r => pi_PartNumber <$> lp_Parts r
   | Err _ => []
   end) = [1; 3]
  ∧ partNumbersAt Demo.store13 (UploadDir "b" "k" "U1") = [1; 3].
Proof. split; vm_compute; reflexivity. Qed.

(** ** Adding a part to xl.json *)

#[global] Instance partLe_total : Total partLe.
Proof. intros p q. unfold partLe. lia. Qed.

Lemma AddObjectPart_Parts (m1 m2 : xlMetaV1) (n : Z) (name etag : string) (size : Z) :
  Parts m1 = Parts m2 →
  Parts (AddObjectPart m1 n name etag size)
  = Parts (AddObjectPart m2 n name etag size).
Proof.
  intros Heq. unfold AddObjectPart, ObjectPartIndex. cbn. by rewrite Heq.
Qed.


Lemma AddObjectPart_ordered (m : xlMetaV1) (n : Z) (name etag : string) (size : Z) :
  partsOrdered (Parts m) →
  partsOrdered (Parts (AddObjectPart m n name etag size)).
Proof.
  intros [Hnd Hsorted]. unfold AddObjectPart, partsOrdered. cbn [Parts].
  case_decide as Hidx.
  - unfold ObjectPartIndex in Hidx. apply partIndexFrom_none in Hidx; [|lia].
    split.
    + rewrite merge_sort_Permutation, fmap_app. cbn.
      apply NoDup_app. split_and!; [done| |apply NoDup_singleton].
      intros x Hx ->%list_elem_of_singleton. done.
    + eapply Sorted_fmap; [|apply (Sorted_merge_sort partLe)]. done.
  - unfold ObjectPartIndex in *.
    destruct (partIndexFrom_lookup 0 (Parts m) n ltac:(lia) Hidx)
      as (p & Hp & Hnum & _).
    rewrite Z.sub_0_r in Hp.
    assert (Number <$> <[Z.to_nat (partIndexFrom 0 (Parts m) n) :=
                           {| Number := n; Name := name; ETag := etag;
                              Size := size |}]> (Parts m)
            = Number <$> Parts m) as Heq; [|by rewrite Heq].
    rewrite list_fmap_insert. apply list_insert_id.
    rewrite list_lookup_fmap, Hp. cbn. by rewrite Hnum.
Qed.

Lemma sorted_lookup_le (ps : list objectPartInfo) :
  StronglySorted Z.le (Number <$> ps) →
  ∀ (i j : nat) (p q : objectPartInfo),
    ps !! i = Some p → ps !! j = Some q → (j < i)%nat → Number q ≤ Number p.
Proof.
  induction ps as [|a ps IH]; intros Hns i j p q Hi Hj Hji; [done|].
  rewrite fmap_cons in Hns. apply StronglySorted_inv in Hns as [Hns Hall].
  destruct i as [|i]; [lia|]. cbn in Hi. destruct j as [|j].
  - injection Hj as ->. rewrite Forall_forall in Hall. apply Hall.
    apply list_elem_of_fmap. exists p. split; [done|].
    by eapply list_elem_of_lookup_2.
  - cbn in Hj. eapply IH; eauto. lia.
Qed.


(** ** Reading and storing a part *)

Lemma wrap64_small (z : Z) : - 2 ^ 63 ≤ z < 2 ^ 63 → wrap64 z = z.
Proof.
  intros Hz. unfold wrap64.
  rewrite Z.mod_small by lia. lia.
Qed.

Lemma readLoop_total (e : env) (bucket object uploadID partSuffix : string) :
  ∀ (fuel : nat) (data : Reader) (w : md5Hash) (s : store),
    rd_err data ≠ Some ErrUnexpectedEOF →
    (length (rd_data data) < fuel)%nat →
    is_Some (readLoop fuel e bucket object uploadID partSuffix data w s).
Proof.
  induction fuel as [|fuel IH]; intros data w s Hnot Hfuel; [lia|].
  cbn [readLoop]. unfold ReadFull.
  pose proof (length_take (rd_data data) (Pos.to_nat (blockSizeV1 e))) as Htake.
  pose proof (length_drop (rd_data data) (Pos.to_nat (blockSizeV1 e))) as Hdrop.
  assert (0 < Pos.to_nat (blockSizeV1 e))%nat by lia.
  assert (∀ s1, is_Some (readLoop fuel e bucket object uploadID partSuffix
            {| rd_data := drop (Pos.to_nat (blockSizeV1 e)) (rd_data data);
               rd_err := rd_err data |}
            (md5_Write w (take (Pos.to_nat (blockSizeV1 e)) (rd_data data))) s1)
          ∨ take (Pos.to_nat (blockSizeV1 e)) (rd_data data) = []) as Hrec.
  { intros s1.
    destruct (take _ (rd_data data)) as [|b buf] eqn:Hbuf; [by right|left].
    apply IH; [done|]. cbn [rd_data]. cbn [length] in Htake. lia. }
  case_decide as Hfull.
  - destruct (AppendFile e _ _ _ s) as [s1 [m|]]; [|done].
    case_decide; [done|].
    destruct (Hrec s1) as [?|Hnil]; [done|]. rewrite Hnil in Hfull. cbn in Hfull. lia.
  - destruct (rd_err data) as [err|].
    { rewrite decide_False by congruence. done. }
    case_decide as Hnil; [done|].
    destruct (AppendFile e _ _ _ s) as [s1 [m|]]; [|done].
    case_decide; [done|].
    destruct (Hrec s1) as [?|?]; done.
Qed.

(** A read loop that ends well has hashed every byte of the stream, which
    ended in an orderly EOF, and has written under the staging directory of
    the upload only. *)
Lemma readLoop_Ok (e : env) (bucket object uploadID partSuffix : string) :
  ∀ (fuel : nat) (data : Reader) (w w' : md5Hash) (s s1 : store),
    readLoop fuel e bucket object uploadID partSuffix data w s = Some (s1, Ok w') →
    w' = w ++ rd_data data ∧ rd_err data = None
    ∧ ∀ q, q ≠ TmpDir uploadID → getDir s1 q = getDir s q.
Proof.
  induction fuel as [|fuel IH]; intros data w w' s s1; [done|].
  cbn [readLoop]. unfold ReadFull.
  assert (∀ s0,
    match AppendFile e (TmpDir uploadID) partSuffix
            (take (Pos.to_nat (blockSizeV1 e)) (rd_data data)) s with
    | (s2, Ok m) =>
        if decide (m ≠ Z.of_nat (length (take (Pos.to_nat (blockSizeV1 e))
                                           (rd_data data))))
        then Some (s2, Err (toObjectErr errUnexpected bucket object))
        else readLoop fuel e bucket object uploadID partSuffix
               {| rd_data := drop (Pos.to_nat (blockSizeV1 e)) (rd_data data);
                  rd_err := rd_err data |}
               (md5_Write w (take (Pos.to_nat (blockSizeV1 e)) (rd_data data))) s2
    | (s2, Err err) =>
        Some (s2, Err (toObjectErr err minioMetaBucket
                         (pathJoin [tmpMetaPrefix; uploadID; partSuffix])))
    end = Some (s0, Ok w') →
    w' = w ++ rd_data data ∧ rd_err data = None
    ∧ ∀ q, q ≠ TmpDir uploadID → getDir s0 q = getDir s q) as Hstep.
  { intros s0. unfold AppendFile.
    destruct (fault e p_AppendFile (TmpDir uploadID)); [done|].
    case_decide; [done|].
    intros (-> & Herr & Hq)%IH. cbn [rd_data rd_err] in *.
    unfold md5_Write. rewrite <-app_assoc, take_drop. split_and!; [done..|].
    intros q Hne. rewrite Hq by done. by apply getDir_putDir_ne. }
  case_decide as Hfull.
  - apply Hstep.
  - destruct (rd_err data) eqn:Herr.
    { case_decide; [|done]. intros (_ & Hnone & _)%Hstep. done. }
    case_decide as Hnil.
    + intros [= <- <-]. split_and!; [|done..].
      destruct (rd_data data) as [|b l] eqn:Hd; [by rewrite app_nil_r|].
      exfalso. destruct (Pos.to_nat (blockSizeV1 e)) eqn:Hn; [lia|done].
    + apply Hstep.
Qed.

Lemma writeMeta_Ok (p : prim) (e : env) (dir : path) (m : xlMetaV1) (s s1 : store) :
  (∀ b o, dir ≠ MultipartDir b o) →
  writeMeta p e dir m s = (s1, None) →
  (∃ fs, getDir s1 dir = Some {| xlJSON := Some m; files := fs |})
  ∧ ∀ q, q ≠ dir → getDir s1 q = getDir s q.
Proof.
  intros Hdir. unfold writeMeta. destruct (fault e p dir); [done|].
  intros [= <-]. split.
  - eexists. by apply getDir_putDir_eq.
  - intros q Hq. by apply getDir_putDir_ne.
Qed.

Lemma renameXLMetadata_Ok (e : env) (src dst : path) (s s1 : store) :
  src ≠ dst → (∀ b o, dst ≠ MultipartDir b o) →
  renameXLMetadata e src dst s = (s1, None) →
  ∃ d m, getDir s src = Some d ∧ xlJSON d = Some m
         ∧ getDir s1 dst
           = Some {| xlJSON := Some m;
                     files := files (default emptyDir (getDir s dst)) |}
         ∧ ∀ q, q ≠ src → q ≠ dst → getDir s1 q = getDir s q.
Proof.
  intros Hne Hdst. unfold renameXLMetadata.
  destruct (fault e p_renameXLMetadata dst); [done|].
  destruct (getDir s src) as [d|]; [|done].
  destruct (xlJSON d) as [m|] eqn:Hm; [|done].
  intros [= <-]. exists d, m. split_and!; [done..| |].
  - rewrite getDir_putDir_eq by done. by rewrite getDir_putDir_ne.
  - intros q Hq1 Hq2. by rewrite !getDir_putDir_ne.
Qed.

Lemma renamePart_Ok (e : env) (src dst : path) (name : string) (s s1 : store) :
  src ≠ dst → (∀ b o, dst ≠ MultipartDir b o) →
  renamePart e src dst name s = (s1, None) →
  (∀ d, getDir s dst = Some d →
        ∃ d1, getDir s1 dst = Some d1 ∧ xlJSON d1 = xlJSON d)
  ∧ ∀ q, q ≠ src → q ≠ dst → getDir s1 q = getDir s q.
Proof.
  intros Hne Hdst. unfold renamePart.
  destruct (fault e p_renameObject src); [done|].
  destruct (getDir s src) as [d0|]; [|intros [= <-]; eauto].
  destruct (files d0 !! name) as [f|]; [|intros [= <-]; eauto].
  intros [= <-]. split.
  - intros d Hd. rewrite getDir_putDir_eq by done.
    rewrite getDir_putDir_ne, Hd by done. eauto.
  - intros q Hq1 Hq2. by rewrite !getDir_putDir_ne.
Qed.

(** With a stream that ends in an orderly EOF and an erasure writer that
    takes every buffer whole, the loop ends well with every byte hashed. *)
Lemma readLoop_run (e : env) (bucket object uploadID partSuffix : string) :
  fault e p_AppendFile (TmpDir uploadID) = None →
  (∀ buf, appendFileCount e buf = Z.of_nat (length buf)) →
  ∀ (fuel : nat) (data : Reader) (w : md5Hash) (s : store),
    rd_err data = None → (length (rd_data data) < fuel)%nat →
    ∃ s1, readLoop fuel e bucket object uploadID partSuffix data w s
          = Some (s1, Ok (w ++ rd_data data)).
Proof.
  intros Hfault Hcount. induction fuel as [|fuel IH]; intros data w s Herr Hfuel;
    [lia|].
  cbn [readLoop]. unfold ReadFull. rewrite Herr.
  pose proof (length_take (rd_data data) (Pos.to_nat (blockSizeV1 e))) as Htake.
  assert (0 < Pos.to_nat (blockSizeV1 e))%nat by lia.
  assert (take (Pos.to_nat (blockSizeV1 e)) (rd_data data) ≠ [] →
          ∃ s1,
            match AppendFile e (TmpDir uploadID) partSuffix
                    (take (Pos.to_nat (blockSizeV1 e)) (rd_data data)) s with
            | (s2, Ok m) =>
                if decide (m ≠ Z.of_nat (length (take (Pos.to_nat (blockSizeV1 e))
                                                   (rd_data data))))
                then Some (s2, Err (toObjectErr errUnexpected bucket object))
                else readLoop fuel e bucket object uploadID partSuffix
                       {| rd_data := drop (Pos.to_nat (blockSizeV1 e)) (rd_data data);
                          rd_err := None |}
                       (md5_Write w (take (Pos.to_nat (blockSizeV1 e))
                                       (rd_data data))) s2
            | (s2, Err err) =>
                Some (s2, Err (toObjectErr err minioMetaBucket
                                 (pathJoin [tmpMetaPrefix; uploadID; partSuffix])))
            end = Some (s1, Ok (w ++ rd_data data))) as Hstep.
  { intros Hne. unfold AppendFile. rewrite Hfault, Hcount.
    rewrite decide_False by (intros H'; by apply H').
    edestruct IH as [s1 Hs1]; [| |exists s1; rewrite Hs1]; cbn [rd_err rd_data].
    - done.
    - rewrite length_drop.
      destruct (take _ (rd_data data)) eqn:Hbuf; [done|]. cbn [length] in Htake. lia.
    - unfold md5_Write. by rewrite <-app_assoc, take_drop. }
  case_decide as Hfull.
  - apply Hstep. intros Hnil. rewrite Hnil in Hfull. cbn in Hfull. lia.
  - case_decide as Hnil; [|by apply Hstep].
    exists s. destruct (rd_data data) as [|b l]; [by rewrite app_nil_r|].
    exfalso. destruct (Pos.to_nat (blockSizeV1 e)); [lia|done].
Qed.

(** With a reader that does not end in [io.ErrUnexpectedEOF],
    [putObjectPart] returns. *)
Lemma putObjectPart_total (e : env) (s : store) (bucket object uploadID : string)
    (partID size : Z) (data : Reader) (md5Hex : string) :
  rd_err data ≠ Some ErrUnexpectedEOF →
  is_Some (putObjectPart e s bucket object uploadID partID size data md5Hex).
Proof.
  intros Hnot. unfold putObjectPart.
  repeat (match goal with |- context [if ?b then _ else _] => destruct b end;
          try done).
  destruct (readAllXLMetadata e s _); [|done].
  destruct (readLoop_total e bucket object uploadID (partSuffixOf partID)
              (S (length (rd_data data))) data md5_New s Hnot ltac:(lia))
    as [[s1 [w|]] ->]; [|done].
  repeat (match goal with |- context [if ?b then _ else _] => destruct b end;
          try done).
  destruct (renamePart _ _ _ _ _) as [? [?|]]; [done|].
  destruct (writeUniqueXLMetadata _ _ _ _) as [? [?|]]; [done|].
  destruct (renameXLMetadata _ _ _ _) as [? [?|]]; done.
Qed.

(** The shape of a successful [putObjectPart]. *)
Lemma putObjectPart_Ok (e : env) (s s' : store) (bucket object uploadID : string)
    (partID size : Z) (data : Reader) (md5Hex etag : string) :
  putObjectPart e s bucket object uploadID partID size data md5Hex
  = Some (s', Ok etag) →
  ∃ xlMeta fs,
    readAllXLMetadata e s (UploadDir bucket object uploadID) = Ok xlMeta
    ∧ etag = Hex.EncodeToString (MD5.sum (rd_data data))
    ∧ rd_err data = None
    ∧ (md5Hex = "" ∨ md5Hex = etag)
    ∧ getDir s' (UploadDir bucket object uploadID)
      = Some {| xlJSON :=
                  Some {| Stat := Stat xlMeta; Meta := Meta xlMeta;
                          Parts := Parts (AddObjectPart xlMeta partID
                                            (partSuffixOf partID) etag size) |};
                files := fs |}.
Proof.
  unfold putObjectPart.
  destruct (negb (IsValidBucketName e bucket)); [done|].
  destruct (negb (isBucketExist s bucket)); [done|].
  destruct (negb (IsValidObjectName e object)); [done|].
  destruct (negb (isUploadIDExists s bucket object uploadID)); [done|].
  destruct (readAllXLMetadata e s _) as [xlMeta|] eqn:Hread; [|done].
  destruct (readLoop _ _ _ _ _ _ _ _ _) as [[s1 [w|]]|] eqn:Hloop; [|done..].
  apply readLoop_Ok in Hloop as (-> & Herr & Hs1). cbn [md5_New app] in *.
  unfold md5_Sum.
  destruct (bool_decide (md5Hex ≠ "") && _) eqn:Hdigest; [done|].
  destruct (negb (isUploadIDExists s1 bucket object uploadID)); [done|].
  destruct (renamePart _ _ _ _ _) as [s2 [?|]] eqn:Hs2; [done|].
  destruct (writeUniqueXLMetadata _ _ _ _) as [s3 [?|]] eqn:Hs3; [done|].
  destruct (renameXLMetadata _ _ _ _) as [s4 [?|]] eqn:Hs4; [done|].
  intros [= <- <-].
  apply writeMeta_Ok in Hs3 as [[fs3 Hstaged] _]; [|done].
  apply renameXLMetadata_Ok in Hs4 as (d & m & Hd & Hm & Hdst & _); [|done..].
  rewrite Hstaged in Hd. injection Hd as <-. cbn in Hm. injection Hm as <-.
  eexists xlMeta, _. split_and!; [done..| |].
  - apply andb_false_iff in Hdigest as [H1|H2].
    + left. apply bool_decide_eq_false in H1.
      by destruct (decide (md5Hex = "")).
    + right. apply bool_decide_eq_false in H2.
      destruct (decide (Hex.EncodeToString (MD5.sum (rd_data data)) = md5Hex));
        [done|by exfalso].
  - rewrite Hdst. reflexivity.
Qed.

(** C5 as the code has it.  When the call gets as far as the digest check
    (the names are valid, the upload exists, the stream ends in an orderly
    EOF and every buffer is written whole) with a non-empty md5Hex, the
    hexadecimal MD5 of the streamed bytes, in lower case, is compared with
    md5Hex by string equality, case included: the call fails BadDigest
    exactly when the two strings differ. *)
Theorem putObjectPart_digest_exact (e : env) (s : store)
    (bucket object uploadID : string) (partID size : Z) (data : Reader)
    (md5Hex : string) (xlMeta : xlMetaV1) :
  IsValidBucketName e bucket = true →
  isBucketExist s bucket = true →
  IsValidObjectName e object = true →
  readAllXLMetadata e s (UploadDir bucket object uploadID) = Ok xlMeta →
  rd_err data = None →
  fault e p_AppendFile (TmpDir uploadID) = None →
  (∀ buf, appendFileCount e buf = Z.of_nat (length buf)) →
  md5Hex ≠ "" →
  let newMD5Hex := Hex.EncodeToString (MD5.sum (rd_data data)) in
  (newMD5Hex ≠ md5Hex →
   ∃ s1, putObjectPart e s bucket object uploadID partID size data md5Hex
         = Some (s1, Err (BadDigest md5Hex newMD5Hex)))
  ∧ (newMD5Hex = md5Hex →
     ∀ s1 a b, putObjectPart e s bucket object uploadID partID size data md5Hex
               ≠ Some (s1, Err (BadDigest a b))).
Proof.
  intros Hb Hbe Ho Hread Herr Hfault Hcount Hne newMD5Hex.
  destruct (readMeta_Ok _ _ _ _ _ Hread) as [Hex _].
  destruct (readLoop_run e bucket object uploadID (partSuffixOf partID)
              Hfault Hcount (S (length (rd_data data))) data md5_New s Herr
              ltac:(lia)) as [s1 Hloop].
  unfold putObjectPart, isUploadIDExists.
  rewrite Hb, Hbe, Ho, Hex, Hread, Hloop. cbn [negb md5_New app]. unfold md5_Sum.
  fold newMD5Hex. rewrite (bool_decide_eq_true_2 _ Hne). cbn [andb].
  split.
  - intros Hdiff. rewrite (bool_decide_eq_true_2 _ Hdiff). eauto.
  - intros Heq s' a b. rewrite bool_decide_eq_false_2 by (intros H; by apply H).
    destruct (negb (isObject s1 _)); [done|].
    unfold toObjectErr.
    destruct (renamePart _ _ _ _ _) as [? [?|]]; [done|].
    destruct (writeUniqueXLMetadata _ _ _ _) as [? [?|]]; [done|].
    destruct (renameXLMetadata _ _ _ _) as [? [?|]]; done.
Qed.

Lemma putObjectPart_digest_exact_witness :
  ∃ s1, putObjectPart Demo.env0 Demo.store1 "b" "k" "U1" 1 3 (Demo.reader "abc")
          "900150983CD24FB0D6963F7D28E17F72"
        = Some (s1, Err (BadDigest "900150983CD24FB0D6963F7D28E17F72"
                           (Hex.EncodeToString
                              (MD5.sum (rd_data (Demo.reader "abc")))))).
Proof.
  refine (proj1 (putObjectPart_digest_exact Demo.env0 Demo.store1 "b" "k" "U1" 1 3
            (Demo.reader "abc") "900150983CD24FB0D6963F7D28E17F72"
            (default newXLMetaV1 (metaAt Demo.store1 (UploadDir "b" "k" "U1")))
            _ _ _ _ _ _ _ _) _);
    try (vm_compute; reflexivity); try (vm_compute; discriminate).
Defined.

(** C5 as the specification states it fails: the expected digest below is
    the digest of the empty stream written in upper case, equal to the
    computed one up to case, and the call fails BadDigest. *)
Lemma putObjectPart_digest_case_sensitive :
  EqualFold "D41D8CD98F00B204E9800998ECF8427E"
    (Hex.EncodeToString (MD5.sum [])) = true
  ∧ snd <$> putObjectPart Demo.env0 Demo.store1 "b" "k" "U1" 1 0
              (Demo.reader "") "D41D8CD98F00B204E9800998ECF8427E"
    = Some (Err (BadDigest "D41D8CD98F00B204E9800998ECF8427E"
                   "d41d8cd98f00b204e9800998ecf8427e")).
Proof. split; vm_compute; reflexivity. Qed.

(** ** The buckets are never touched *)

Lemma buckets_putDir (p : path) (d : objectDir) (s : store) :
  buckets (putDir p d s) = buckets s.
Proof. by destruct p. Qed.

Lemma buckets_renamePart (e : env) (src dst : path) (name : string) (s s1 : store)
    (r : option error) :
  renamePart e src dst name s = (s1, r) → buckets s1 = buckets s.
Proof.
  unfold renamePart. destruct (fault e p_renameObject src); [by intros [= <-]|].
  destruct (getDir s src) as [d|]; [|by intros [= <-]].
  destruct (files d !! name); intros [= <-]; [|done].
  by rewrite !buckets_putDir.
Qed.

Lemma buckets_writeMeta (p : prim) (e : env) (dir : path) (m : xlMetaV1)
    (s s1 : store) (r : option error) :
  writeMeta p e dir m s = (s1, r) → buckets s1 = buckets s.
Proof.
  unfold writeMeta. destruct (fault e p dir); intros [= <-]; [done|].
  by rewrite buckets_putDir.
Qed.

Lemma buckets_renameXLMetadata (e : env) (src dst : path) (s s1 : store)
    (r : option error) :
  renameXLMetadata e src dst s = (s1, r) → buckets s1 = buckets s.
Proof.
  unfold renameXLMetadata. destruct (fault e p_renameXLMetadata dst);
    [by intros [= <-]|].
  destruct (getDir s src) as [d|]; [|by intros [= <-]].
  destruct (xlJSON d); intros [= <-]; [|done].
  by rewrite !buckets_putDir.
Qed.

Lemma buckets_readLoop (e : env) (bucket object uploadID partSuffix : string) :
  ∀ (fuel : nat) (data : Reader) (w : md5Hash) (s s1 : store) r,
    readLoop fuel e bucket object uploadID partSuffix data w s = Some (s1, r) →
    buckets s1 = buckets s.
Proof.
  induction fuel as [|fuel IH]; intros data w s s1 r; [done|].
  cbn [readLoop]. destruct (ReadFull data (blockSizeV1 e)) as [[buf st] data'].
  assert (∀ s0 r0,
    match AppendFile e (TmpDir uploadID) partSuffix buf s with
    | (s2, Ok m) =>
        if decide (m ≠ Z.of_nat (length buf))
        then Some (s2, Err (toObjectErr errUnexpected bucket object))
        else readLoop fuel e bucket object uploadID partSuffix data'
               (md5_Write w buf) s2
    | (s2, Err err) =>
        Some (s2, Err (toObjectErr err minioMetaBucket
                         (pathJoin [tmpMetaPrefix; uploadID; partSuffix])))
    end = Some (s0, r0) → buckets s0 = buckets s) as Hstep.
  { intros s0 r0. unfold AppendFile.
    destruct (fault e p_AppendFile (TmpDir uploadID)); [by intros [= <-]|].
    case_decide; [by intros [= <-]|]. by intros ->%IH. }
  destruct st; try apply Hstep; by intros [= <-].
Qed.

(** A successful [putObjectPart] ran on valid names, and the bucket is
    still there afterwards. *)
Lemma putObjectPart_Ok_names (e : env) (s s' : store)
    (bucket object uploadID : string) (partID size : Z) (data : Reader)
    (md5Hex etag : string) :
  putObjectPart e s bucket object uploadID partID size data md5Hex
  = Some (s', Ok etag) →
  IsValidBucketName e bucket = true ∧ IsValidObjectName e object = true
  ∧ isBucketExist s' bucket = true.
Proof.
  unfold putObjectPart.
  destruct (IsValidBucketName e bucket); [|done].
  destruct (isBucketExist s bucket) eqn:Hbe; [|done].
  destruct (IsValidObjectName e object); [|done]. cbn [negb].
  destruct (negb (isUploadIDExists s bucket object uploadID)); [done|].
  destruct (readAllXLMetadata e s _) as [xlMeta|]; [|done].
  destruct (readLoop _ _ _ _ _ _ _ _ _) as [[s1 [w|]]|] eqn:Hloop; [|done..].
  apply buckets_readLoop in Hloop.
  destruct (_ && _); [done|].
  destruct (negb (isUploadIDExists s1 bucket object uploadID)); [done|].
  destruct (renamePart _ _ _ _ _) as [s2 [?|]] eqn:Hs2; [done|].
  destruct (writeUniqueXLMetadata _ _ _ _) as [s3 [?|]] eqn:Hs3; [done|].
  destruct (renameXLMetadata _ _ _ _) as [s4 [?|]] eqn:Hs4; [done|].
  intros [= <- <-]. split_and!; [done..|].
  apply buckets_renamePart in Hs2. apply buckets_writeMeta in Hs3.
  apply buckets_renameXLMetadata in Hs4.
  unfold isBucketExist in *. by rewrite Hs4, Hs3, Hs2, Hloop.
Qed.

(** ** The listing loop *)

Lemma listLoop_take (e : env) (s : store) (dir : path) (d : objectDir) :
  fault e p_statPart dir = None →
  getDir s dir = Some d →
  ∀ (parts : list objectPartInfo) (count : Z) (acc : list partInfo),
    (∀ q, q ∈ parts → is_Some (files d !! Name q)) →
    0 < count < 2 ^ 63 →
    ∃ infos, listLoop e s dir count parts acc = Ok (acc ++ infos)
             ∧ Forall2 shows (take (Z.to_nat count) parts) infos.
Proof.
  intros Hfault Hd.
  induction parts as [|p parts IH]; intros count acc Hfiles Hcount.
  - exists []. cbn. rewrite app_nil_r, take_nil. by split.
  - cbn [listLoop]. unfold statPart. rewrite Hfault, Hd.
    destruct (Hfiles p ltac:(apply list_elem_of_here)) as [f ->].
    rewrite wrap64_small by lia.
    replace (Z.to_nat count) with (S (Z.to_nat (count - 1))) by lia.
    cbn [take]. case_decide as Hzero.
    + eexists [_]. split; [done|]. rewrite Hzero. cbn.
      by repeat constructor.
    + edestruct (IH (count - 1)) as (infos & -> & Hinfos); [|lia|].
      { intros q Hq. apply Hfiles. by apply list_elem_of_further. }
      eexists (_ :: infos). rewrite <-app_assoc. split; [done|].
      by repeat constructor.
Qed.

Lemma AddObjectPart_length (m : xlMetaV1) (n : Z) (name etag : string) (size : Z) :
  (length (Parts (AddObjectPart m n name etag size)) ≤ S (length (Parts m)))%nat.
Proof.
  unfold AddObjectPart. cbn [Parts]. case_decide.
  - rewrite merge_sort_Permutation, length_app. cbn. lia.
  - rewrite length_insert. lia.
Qed.

Lemma partFilesPresent_spec (s : store) (dir : path) (d : objectDir) (m : xlMetaV1) :
  partFilesPresent s dir = true → getDir s dir = Some d → xlJSON d = Some m →
  ∀ q, q ∈ Parts m → is_Some (files d !! Name q).
Proof.
  unfold partFilesPresent. intros Hpresent Hd Hm. rewrite Hd, Hm in Hpresent.
  apply Is_true_true, forallb_True in Hpresent. rewrite Forall_forall in Hpresent.
  intros q Hq. specialize (Hpresent q Hq). by apply bool_decide_unpack in Hpresent.
Qed.



Lemma afterMarker_subseteq (m : xlMetaV1) (marker : Z) :
  afterMarker m marker ⊆ Parts m.
Proof. unfold afterMarker. case_decide; [apply subseteq_drop|done]. Qed.

(** What a listing returns when every part in its window can be shown:
    the entries of the first [min maxParts maxPartsList] parts of the
    window. *)
Lemma listObjectParts_window (e : env) (s : store) (bucket object uploadID : string)
    (marker maxParts : Z) (d : objectDir) (m : xlMetaV1) :
  IsValidBucketName e bucket = true →
  isBucketExist s bucket = true →
  IsValidObjectName e object = true →
  getDir s (UploadDir bucket object uploadID) = Some d →
  xlJSON d = Some m →
  fault e p_readXLMetadata (UploadDir bucket object uploadID) = None →
  fault e p_statPart (UploadDir bucket object uploadID) = None →
  (∀ q, q ∈ afterMarker m marker → is_Some (files d !! Name q)) →
  Parts m ≠ [] →
  0 < Z.min maxParts (maxPartsList e) < 2 ^ 63 →
  ∃ r, listObjectParts e s bucket object uploadID marker maxParts = Ok r
       ∧ Forall2 shows
           (take (Z.to_nat (Z.min maxParts (maxPartsList e))) (afterMarker m marker))
           (lp_Parts r)
       ∧ (lp_IsTruncated r = true
          ↔ (length (lp_Parts r) < length (afterMarker m marker))%nat)
       ∧ (lp_IsTruncated r = true →
          last (lp_Parts r)
          = Some (default (Build_partInfo 0 "" 0 0) (last (lp_Parts r)))
          ∧ lp_NextPartNumberMarker r
            = pi_PartNumber (default (Build_partInfo 0 "" 0 0) (last (lp_Parts r)))).
Proof.
  intros Hb Hbe Ho Hd Hm Hfr Hfs Hfiles Hne Hcount.
  unfold listObjectParts, isUploadIDExists, isObject, readXLMetadata, readMeta.
  rewrite Hb, Hbe, Ho, Hd, Hm, Hfr. cbn [negb].
  rewrite bool_decide_eq_false_2 by (by destruct (Parts m)).
  rewrite bool_decide_eq_false_2 by lia. cbn [orb].
  fold (afterMarker m marker).
  replace (if maxPartsList e <? maxParts then maxPartsList e else maxParts)
    with (Z.min maxParts (maxPartsList e))
    by (destruct (Z.ltb_spec (maxPartsList e) maxParts); lia).
  destruct (listLoop_take e s _ d Hfs Hd (afterMarker m marker)
              (Z.min maxParts (maxPartsList e)) [])
    as (infos & -> & Hinfos); [|done|].
  { exact Hfiles. }
  cbn [app]. case_decide as Htrunc; eexists; (split; [done|]); cbn.
  - split; [done|]. split; [done|]. intros _.
    destruct (last infos) as [x|] eqn:Hlast; [done|].
    apply last_None in Hlast. subst infos. apply Forall2_length in Hinfos.
    rewrite length_take in Hinfos. cbn in *. lia.
  - split; [done|]. split; [|done]. split; [done|lia].
Qed.

(** ** Trimming and committing *)

Lemma trimParts_getDir (bucket object uploadID : string) (xlMeta : xlMetaV1) :
  ∀ (currentParts : list objectPartInfo) (s : store) (d : objectDir),
    getDir s (UploadDir bucket object uploadID) = Some d →
    getDir (trimParts bucket object uploadID xlMeta currentParts s)
      (UploadDir bucket object uploadID)
    = Some {| xlJSON := xlJSON d;
              files := trimFiles xlMeta currentParts (files d) |}.
Proof.
  induction currentParts as [|p ps IH]; intros s d Hd; cbn [trimParts trimFiles].
  - rewrite Hd. by destruct d.
  - case_decide.
    + unfold removeObjectPart. rewrite Hd.
      erewrite IH; [|by apply getDir_putDir_eq]. done.
    + by apply IH.
Qed.



Lemma renameObject_Ok_other (e : env) (src dst : path) (s s1 : store) :
  renameObject e src dst s = (s1, None) →
  ∀ q, ¬ pathUnder src q → q ≠ dst → getDir s1 q = getDir s q.
Proof.
  unfold renameObject. destruct (fault e p_renameObject src); [done|].
  destruct (getDir s src) as [d|]; intros [= <-] q Hq1 Hq2; [|done].
  rewrite getDir_putDir_ne by done. by apply getDir_removeDir_outside.
Qed.

(** The directory a successful completion commits: the upload directory
    with the new xl.json and the trimmed part files.  It is already in that
    state in the store the commit rename is applied to. *)
Lemma completeCommit_object (e : env) (s s1 : store) (bucket object uploadID : string)
    (parts : list completePart) (tag : string) :
  completeCommit e s bucket object uploadID parts = (s1, Ok tag) →
  ∃ m d0 objectSize newParts s4 s5 xlMeta,
    getDir s (UploadDir bucket object uploadID) = Some d0
    ∧ xlJSON d0 = Some m
    ∧ validateParts m (Z.of_nat (length parts)) 0 parts 0 []
      = Ok (objectSize, newParts)
    ∧ Stat xlMeta = {| st_Size := objectSize; st_ModTime := now e;
                       st_Version := st_Version (Stat m) |}
    ∧ Meta xlMeta = <["md5Sum" := tag]> (Meta m)
    ∧ Parts xlMeta = newParts
    ∧ renameObject e (UploadDir bucket object uploadID) (ObjectDir bucket object) s4
      = (s5, None)
    ∧ getDir s4 (UploadDir bucket object uploadID)
      = Some {| xlJSON := Some xlMeta;
                files := trimFiles xlMeta (Parts m) (files d0) |}
    ∧ getDir s1 (ObjectDir bucket object)
      = Some {| xlJSON := Some xlMeta;
                files := trimFiles xlMeta (Parts m) (files d0) |}.
Proof.
  intros (m & objectSize & newParts & sa & sb & sc & s5 & _ & Hread & Hval
          & Hw & Hr & Ha & Hc & ->)%completeCommit_Ok.
  apply readMeta_Ok in Hread as (_ & d0 & Hd0 & Hm).
  set (xlMeta := {| Stat := {| st_Size := objectSize; st_ModTime := now e;
                               st_Version := st_Version (Stat m) |};
                    Meta := <["md5Sum" := tag]> (Meta m); Parts := newParts |}) in *.
  apply writeMeta_Ok in Hw as [[fs Hstaged] Hother]; [|done].
  apply renameXLMetadata_Ok in Hr as (d & m' & Hd & Hm' & Hdst & _); [|done..].
  rewrite Hstaged in Hd. injection Hd as <-. cbn in Hm'. injection Hm' as <-.
  rewrite Hother, Hd0 in Hdst by done. cbn [default from_option id] in Hdst.
  pose proof (renameObject_Ok_other e (ObjectDir bucket object)
                (TmpDir (getUUID e)) sb sc Ha
                (UploadDir bucket object uploadID) ltac:(by cbn) ltac:(done))
    as Hsc.
  rewrite Hdst in Hsc.
  pose proof (trimParts_getDir bucket object uploadID xlMeta (Parts m) sc _ Hsc)
    as Htrim. cbn [xlJSON files] in Htrim.
  exists m, d0, objectSize, newParts,
    (trimParts bucket object uploadID xlMeta (Parts m) sc), s5, xlMeta.
  split_and!; [done..|].
  unfold renameObject in Hc.
  destruct (fault e p_renameObject (UploadDir bucket object uploadID)); [done|].
  rewrite Htrim in Hc. apply (f_equal fst) in Hc. cbn [fst] in Hc. subst s5.
  unfold deleteObject. destruct (fault e p_deleteObject _); cbn [fst].
  - by apply getDir_putDir_eq.
  - rewrite getDir_removeDir_ne by done. by apply getDir_putDir_eq.
Qed.

Lemma validateParts_numbers (m : xlMetaV1) (parts : list completePart)
    (objectSize : Z) (newParts : list objectPartInfo) :
  validateParts m (Z.of_nat (length parts)) 0 parts 0 [] = Ok (objectSize, newParts) →
  Number <$> newParts = cp_PartNumber <$> parts.
Proof.
  intros (sel & Hsel & Hacc)%validateParts_Ok. cbn in Hacc. subst newParts.
  apply zip_with_newPart_numbers. by eapply Forall2_length.
Qed.

(** C3 as the code has it.  A successful PutObjectPart on an upload whose
    parts[] was duplicate-free and ascending leaves an xl.json whose
    parts[] is duplicate-free and ascending.  A successful
    CompleteMultipartUpload leaves, under bucket/object, an xl.json whose
    parts[] carries the part numbers of clientParts[] in the client's
    order: ascending and duplicate-free when the client's list is, and only
    then. *)
Theorem parts_order (e : env) (s s' : store) (bucket object uploadID : string)
    (partID size : Z) (data : Reader) (md5Hex etag : string) (xlMeta : xlMetaV1)
    (e2 : env) (s2 s2' : store) (bucket2 object2 uploadID2 : string)
    (clientParts : list completePart) (tag : string) :
  putObjectPart e s bucket object uploadID partID size data md5Hex
  = Some (s', Ok etag) →
  metaAt s (UploadDir bucket object uploadID) = Some xlMeta →
  partsOrdered (Parts xlMeta) →
  CompleteMultipartUpload e2 s2 bucket2 object2 uploadID2 clientParts
  = (s2', Ok tag) →
  (∃ m', metaAt s' (UploadDir bucket object uploadID) = Some m'
         ∧ partsOrdered (Parts m'))
  ∧ partNumbersAt s2' (ObjectDir bucket2 object2) = cp_PartNumber <$> clientParts.
Proof.
  intros Hput Hmeta Hord Hcomplete. split.
  - apply putObjectPart_Ok in Hput as (xlMeta0 & fs & Hread & -> & _ & _ & Hd').
    apply readMeta_Ok in Hread as (_ & d0 & Hd0 & Hx0).
    unfold metaAt in *. rewrite Hd0, Hx0 in Hmeta. injection Hmeta as ->.
    rewrite Hd'. eexists. split; [reflexivity|]. cbn [Parts].
    by apply AddObjectPart_ordered.
  - apply CompleteMultipartUpload_Ok in Hcomplete as (s1 & Hcommit & Hsame).
    apply completeCommit_object in Hcommit
      as (m & d0 & objectSize & newParts & s4 & s5 & xl & _ & _ & Hval & _ & _
          & Hparts & _ & _ & Hobj).
    unfold partNumbersAt, metaAt. rewrite Hsame, Hobj by done. cbn [xlJSON].
    rewrite Hparts. by eapply validateParts_numbers.
Qed.

Lemma parts_order_witness :
  (∃ m', metaAt Demo.store3 (UploadDir "b" "k" "U1") = Some m'
         ∧ partsOrdered (Parts m'))
  ∧ partNumbersAt
      (fst (CompleteMultipartUpload Demo.envX Demo.store3 "b" "k" "U1"
              [Demo.cp 1 Demo.etag_abc; Demo.cp 2 Demo.etag_hello]))
      (ObjectDir "b" "k")
    = cp_PartNumber <$> [Demo.cp 1 Demo.etag_abc; Demo.cp 2 Demo.etag_hello].
Proof.
  apply (parts_order Demo.env0 Demo.store2 Demo.store3 "b" "k" "U1" 2 11
           (Demo.reader "hello world") "" Demo.etag_hello
           (default newXLMetaV1 (metaAt Demo.store2 (UploadDir "b" "k" "U1")))
           Demo.envX Demo.store3 _ "b" "k" "U1" _
           "113397061527a63699347916f179e1b8-2");
    try (vm_compute; reflexivity).
  eapply (bool_decide_unpack (partsOrdered _)). vm_compute. exact I.
Defined.

(** C3 as the specification states it fails for CompleteMultipartUpload:
    completing the upload of parts 1, 2, 3 with the client list [3; 1]
    succeeds and the xl.json of the object lists part 3 before part 1;
    completing with [1; 1] succeeds and lists part 1 twice. *)
Lemma CompleteMultipartUpload_parts_follow_client :
  (∃ tag, snd (CompleteMultipartUpload Demo.envX Demo.store4 "b" "k" "U1"
                 [Demo.cp 3 Demo.etag_xyz; Demo.cp 1 Demo.etag_abc]) = Ok tag)
  ∧ partNumbersAt
      (fst (CompleteMultipartUpload Demo.envX Demo.store4 "b" "k" "U1"
              [Demo.cp 3 Demo.etag_xyz; Demo.cp 1 Demo.etag_abc]))
      (ObjectDir "b" "k") = [3; 1]
  ∧ ¬ Sorted Z.le [3; 1]
  ∧ (∃ tag, snd (CompleteMultipartUpload Demo.envX Demo.store4 "b" "k" "U1"
                   [Demo.cp 1 Demo.etag_abc; Demo.cp 1 Demo.etag_abc]) = Ok tag)
  ∧ partNumbersAt
      (fst (CompleteMultipartUpload Demo.envX Demo.store4 "b" "k" "U1"
              [Demo.cp 1 Demo.etag_abc; Demo.cp 1 Demo.etag_abc]))
      (ObjectDir "b" "k") = [1; 1]
  ∧ ¬ NoDup [1; 1].
Proof.
  split_and!.
  - eexists. vm_compute. reflexivity.
  - vm_compute. reflexivity.
  - intros H. apply Sorted_inv in H as [_ H]. apply HdRel_inv in H. lia.
  - eexists. vm_compute. reflexivity.
  - vm_compute. reflexivity.
  - intros H. apply NoDup_cons in H as [H _]. apply H, list_elem_of_here.
Qed.





(** Trim scenario of the specification: parts 1, 2, 3 uploaded, completion
    with part 2 alone; the object directory holds object2 and nothing
    else. *)
Example CompleteMultipartUpload_trim_demo :
  (match getDir (fst (CompleteMultipartUpload Demo.envX Demo.store4 "b" "k" "U1"
                        [Demo.cp 2 Demo.etag_hello])) (ObjectDir "b" "k") with
   | Some d => fst <$> map_to_list (files d)
   | None => []
   end) = ["object2"]
  ∧ (match getDir Demo.store4 (UploadDir "b" "k" "U1") with
     | Some d => length (map_to_list (files d))
     | None => 0%nat
     end) = 3%nat.
Proof. split; vm_compute; reflexivity. Qed.

(** ** The tail of Abort and Complete: uploads.json *)

(** C9.  When the read of uploads.json fails in the tail of
    abortMultipartUpload or of CompleteMultipartUpload, and the delete that
    follows succeeds, the call returns success and the store is the one
    with the whole multipart directory of bucket/object removed: no upload
    directory of that object is left, whatever uploads were active, and no
    uploads.json. *)
Theorem uploads_read_failure_deletes_all (e : env) (s : store)
    (bucket object uploadID : string) (err : error)
    (e2 : env) (s2 s1 : store) (bucket2 object2 uploadID2 : string)
    (parts : list completePart) (tag : string) (err2 : error) :
  IsValidBucketName e bucket = true →
  isBucketExist s bucket = true →
  IsValidObjectName e object = true →
  isUploadIDExists s bucket object uploadID = true →
  fault e p_cleanupUploadedParts (UploadDir bucket object uploadID) = None →
  readUploadsJSON e (removeDir (UploadDir bucket object uploadID) s) bucket object
  = Err err →
  fault e p_deleteObject (MultipartDir bucket object) = None →
  completeCommit e2 s2 bucket2 object2 uploadID2 parts = (s1, Ok tag) →
  readUploadsJSON e2 s1 bucket2 object2 = Err err2 →
  fault e2 p_deleteObject (MultipartDir bucket2 object2) = None →
  abortMultipartUpload e s bucket object uploadID
  = (removeDir (MultipartDir bucket object)
       (removeDir (UploadDir bucket object uploadID) s), None)
  ∧ CompleteMultipartUpload e2 s2 bucket2 object2 uploadID2 parts
    = (removeDir (MultipartDir bucket2 object2) s1, Ok tag)
  ∧ ∀ st b o, multipart (removeDir (MultipartDir b o) st) !! (b, o) = None
              ∧ getUploadsJSON (removeDir (MultipartDir b o) st) b o = None
              ∧ ∀ id, isUploadIDExists (removeDir (MultipartDir b o) st) b o id
                      = false.
Proof.
  intros Hb Hbe Ho Hex Hclean Hread Hdel Hcommit Hread2 Hdel2. split_and!.
  - unfold abortMultipartUpload, cleanupUploadedParts, deleteObject.
    by rewrite Hb, Hbe, Ho, Hex, Hclean, Hread, Hdel.
  - unfold CompleteMultipartUpload, deleteObject.
    by rewrite Hcommit, Hread2, Hdel2.
  - intros st b o.
    assert (multipart (removeDir (MultipartDir b o) st) !! (b, o) = None) as Hnone
      by apply multipart_removeDir_eq.
    split_and!; [done|..].
    + unfold getUploadsJSON. by rewrite Hnone.
    + intros id. unfold isUploadIDExists, isObject. cbn [getDir].
      by rewrite Hnone.
Qed.

Lemma uploads_read_failure_deletes_all_witness :
  abortMultipartUpload Demo.envReadFails Demo.storeTwo "b" "k" "U1"
  = (removeDir (MultipartDir "b" "k")
       (removeDir (UploadDir "b" "k" "U1") Demo.storeTwo), None)
  ∧ CompleteMultipartUpload Demo.envReadFails Demo.storeTwo "b" "k" "U1"
      [Demo.cp 1 Demo.etag_abc]
    = (removeDir (MultipartDir "b" "k")
         (fst (completeCommit Demo.envReadFails Demo.storeTwo "b" "k" "U1"
                 [Demo.cp 1 Demo.etag_abc])),
       Ok "af5da9f45af7a300e3aded972f8ff687-1")
  ∧ ∀ st b o, multipart (removeDir (MultipartDir b o) st) !! (b, o) = None
              ∧ getUploadsJSON (removeDir (MultipartDir b o) st) b o = None
              ∧ ∀ id, isUploadIDExists (removeDir (MultipartDir b o) st) b o id
                      = false.
Proof.
  apply (uploads_read_failure_deletes_all Demo.envReadFails Demo.storeTwo
           "b" "k" "U1" (errDisk "disk offline")
           Demo.envReadFails Demo.storeTwo _ "b" "k" "U1" _ _
           (errDisk "disk offline"));
    vm_compute; reflexivity.
Defined.

(** C6, an abort that departs from the specification.  Uploads U1 and U2
    of b/k are active; a disk fails while the abort of U1 reads
    uploads.json.  The abort returns success, and U2, which was not
    aborted, is gone with the whole multipart directory of b/k. *)
Theorem abortMultipartUpload_read_failure :
  (UploadID <$> default [] (Uploads <$> getUploadsJSON Demo.storeTwo "b" "k"))
  = ["U1"; "U2"]
  ∧ isUploadIDExists Demo.storeTwo "b" "k" "U2" = true
  ∧ snd (abortMultipartUpload Demo.envReadFails Demo.storeTwo "b" "k" "U1") = None
  ∧ isUploadIDExists
      (fst (abortMultipartUpload Demo.envReadFails Demo.storeTwo "b" "k" "U1"))
      "b" "k" "U2" = false
  ∧ multipart
      (fst (abortMultipartUpload Demo.envReadFails Demo.storeTwo "b" "k" "U1"))
    !! ("b", "k") = None.
Proof. split_and!; vm_compute; reflexivity. Qed.

(** ** What holds of Abort and of the marker *)

Lemma abortMultipartUpload_invalid (e : env) (s : store)
    (bucket object uploadID : string) :
  IsValidBucketName e bucket = true →
  isBucketExist s bucket = true →
  IsValidObjectName e object = true →
  isUploadIDExists s bucket object uploadID = false →
  abortMultipartUpload e s bucket object uploadID
  = (s, Some (InvalidUploadID uploadID)).
Proof.
  intros Hb Hbe Ho Hex. unfold abortMultipartUpload.
  by rewrite Hb, Hbe, Ho, Hex.
Qed.

Lemma filter_other_uploads (us : list uploadInfo) (uploadID : string) :
  uploadID ∉ UploadID <$> us →
  filter (λ x, UploadID x ≠ uploadID) us = us.
Proof.
  induction us as [|v us IH]; [done|]. rewrite fmap_cons.
  intros [Hv Hu]%not_elem_of_cons.
  rewrite filter_cons_True by congruence. f_equal. by apply IH.
Qed.

Lemma uploadIndexFrom_remove (us : list uploadInfo) (uploadID : string) :
  NoDup (UploadID <$> us) →
  ∀ i, 0 ≤ i →
    let idx := uploadIndexFrom i us uploadID in
    (idx = -1 ∧ filter (λ x, UploadID x ≠ uploadID) us = us)
    ∨ (i ≤ idx
       ∧ take (Z.to_nat (idx - i)) us ++ drop (S (Z.to_nat (idx - i))) us
         = filter (λ x, UploadID x ≠ uploadID) us).
Proof.
  induction us as [|u us IH]; intros Hnd i Hi; cbn [uploadIndexFrom].
  - by left.
  - rewrite fmap_cons in Hnd. apply NoDup_cons in Hnd as [Hu Hnd].
    case_decide as Hid.
    + right. split; [lia|]. rewrite Z.sub_diag.
      change (Z.to_nat 0) with 0%nat. cbn [take drop app].
      rewrite filter_cons_False by (intros H; by apply H).
      symmetry. apply filter_other_uploads. by rewrite <-Hid.
    + rewrite filter_cons_True by done.
      destruct (IH Hnd (i + 1) ltac:(lia)) as [[-> Hf]|[Hle Hf]].
      * left. by rewrite Hf.
      * right. split; [lia|].
        replace (Z.to_nat (uploadIndexFrom (i + 1) us uploadID - i))
          with (S (Z.to_nat (uploadIndexFrom (i + 1) us uploadID - (i + 1))))
          by lia.
        cbn [take drop app]. by rewrite Hf.
Qed.

(** X16.  Without a fault, the abort of an existing upload removes the upload
    directory and the upload ID from uploads.json, leaves the other uploads
    alone, and deletes the multipart directory of the object exactly when
    no other upload ID remains. *)
Lemma abortMultipartUpload_no_fault (e : env) (s : store)
    (bucket object uploadID : string) (u : uploadsV1) :
  IsValidBucketName e bucket = true →
  isBucketExist s bucket = true →
  IsValidObjectName e object = true →
  isUploadIDExists s bucket object uploadID = true →
  (∀ p t, fault e p t = None) →
  getUploadsJSON s bucket object = Some u →
  NoDup (UploadID <$> Uploads u) →
  let others := filter (λ x, UploadID x ≠ uploadID) (Uploads u) in
  ∃ s', abortMultipartUpload e s bucket object uploadID = (s', None)
        ∧ isUploadIDExists s' bucket object uploadID = false
        ∧ (others ≠ [] →
           getUploadsJSON s' bucket object = Some {| Uploads := others |}
           ∧ ∀ id, id ≠ uploadID →
                   getDir s' (UploadDir bucket object id)
                   = getDir s (UploadDir bucket object id))
        ∧ (others = [] → multipart s' !! (bucket, object) = None).
Proof.
  intros Hb Hbe Ho Hex Hfault Hu Hnd others.
  unfold abortMultipartUpload, cleanupUploadedParts, readUploadsJSON,
    updateUploadsJSON, deleteObject.
  rewrite Hb, Hbe, Ho, Hex, !Hfault. cbn [negb].
  set (s1 := removeDir (UploadDir bucket object uploadID) s).
  assert (getUploadsJSON s1 bucket object = Some u) as Hu1.
  { unfold getUploadsJSON in *. subst s1. cbn.
    destruct (multipart s !! (bucket, object)) as [md|] eqn:Hmd; [|done].
    cbn. by rewrite lookup_insert_eq. }
  rewrite Hu1.
  set (u' := if decide (uploads_Index u uploadID ≠ -1)
             then removeUpload u (uploads_Index u uploadID) else u).
  assert (Uploads u' = others) as Hothers.
  { subst u'. unfold uploads_Index, removeUpload.
    destruct (uploadIndexFrom_remove (Uploads u) uploadID Hnd 0 ltac:(lia))
      as [[Hidx Hf]|[Hle Hf]].
    - rewrite Hidx. by rewrite decide_False by (intros H; by apply H).
    - rewrite Z.sub_0_r in Hf. rewrite decide_True by lia. cbn [Uploads].
      replace (Z.to_nat (uploadIndexFrom 0 (Uploads u) uploadID + 1))
        with (S (Z.to_nat (uploadIndexFrom 0 (Uploads u) uploadID))) by lia.
      done. }
  assert (∀ st, isUploadIDExists st bucket object uploadID = false
                ↔ (∀ d, getDir st (UploadDir bucket object uploadID) = Some d →
                        xlJSON d = None)) as Hgone.
  { intros st. unfold isUploadIDExists, isObject.
    destruct (getDir st _) as [d|]; [|naive_solver].
    destruct (xlJSON d) eqn:?; naive_solver. }
  case_decide as Hlen; eexists; (split; [reflexivity|]).
  - split_and!.
    + apply Hgone. intros d. rewrite getDir_setUploadsJSON. subst s1.
      by rewrite getDir_removeDir_eq.
    + intros _. split.
      * unfold getUploadsJSON, setUploadsJSON. cbn. rewrite lookup_insert_eq. cbn.
        f_equal. destruct u'. cbn in *. by subst.
      * intros id Hid. rewrite getDir_setUploadsJSON. subst s1.
        apply getDir_removeDir_ne; [congruence|done..].
    + intros Hnil. rewrite Hothers, Hnil in Hlen. cbn in Hlen. lia.
  - split_and!.
    + apply Hgone. intros d. cbn [getDir].
      by rewrite multipart_removeDir_eq.
    + intros Hne. exfalso. rewrite Hothers in Hlen.
      destruct others; [done|]. cbn in Hlen. lia.
    + intros _. apply multipart_removeDir_eq.
Qed.


Lemma buckets_removeDir (p : path) (s : store) :
  buckets (removeDir p s) = buckets s.
Proof. destruct p; cbn; [done| |done..]. by destruct (multipart s !! _). Qed.

(** X20.  Right after a successful Initiate, a listing of the new upload returns
    no part and is not truncated, whatever the marker and maxParts. *)
Lemma listObjectParts_after_newMultipartUpload (e : env) (s s' : store)
    (bucket object : string) (meta : option (gmap string string))
    (uploadID : string) (marker maxParts : Z) :
  newMultipartUpload e s bucket object meta = (s', Ok uploadID) →
  fault e p_readXLMetadata (UploadDir bucket object uploadID) = None →
  listObjectParts e s' bucket object uploadID marker maxParts
  = Ok {| lp_Bucket := bucket; lp_Object := object; lp_UploadID := uploadID;
          lp_PartNumberMarker := 0; lp_NextPartNumberMarker := 0;
          lp_MaxParts := maxParts; lp_IsTruncated := false; lp_Parts := [] |}.
Proof.
  unfold newMultipartUpload.
  destruct (IsValidBucketName e bucket) eqn:Hb; [|done].
  destruct (isBucketExist s bucket) eqn:Hbe; [|done].
  destruct (IsValidObjectName e object) eqn:Ho; [|done]. cbn [negb].
  unfold writeUploadJSON.
  destruct (fault e p_writeUploadJSON _); [done|].
  destruct (writeXLMetadata _ _ _ _) as [s2 [?|]] eqn:Hw; [done|].
  destruct (renameObject _ _ _ _) as [s3 [?|]] eqn:Hr; [done|].
  intros [= <- <-] Hfault.
  pose proof (buckets_writeMeta _ _ _ _ _ _ _ Hw) as Hbs2.
  apply writeMeta_Ok in Hw as [[fs Hstaged] _]; [|done].
  unfold renameObject in Hr. destruct (fault e p_renameObject _); [done|].
  rewrite Hstaged in Hr. apply (f_equal fst) in Hr. cbn [fst] in Hr. subst s3.
  unfold listObjectParts, isUploadIDExists, isObject, readXLMetadata, readMeta.
  rewrite Hb, Ho, Hfault. unfold isBucketExist in *.
  rewrite buckets_putDir, buckets_removeDir, Hbs2. cbn [buckets setUploadsJSON].
  rewrite Hbe. cbn [negb].
  rewrite getDir_putDir_eq by done. cbn [xlJSON Parts newXLMetaV1 length].
  by rewrite bool_decide_eq_true_2.
Qed.

(** Right after Initiate the upload lists no part. *)
Example listObjectParts_after_initiate :
  listObjectParts Demo.env0 Demo.store1 "b" "k" "U1" 0 1000
  = Ok {| lp_Bucket := "b"; lp_Object := "k"; lp_UploadID := "U1";
          lp_PartNumberMarker := 0; lp_NextPartNumberMarker := 0;
          lp_MaxParts := 1000; lp_IsTruncated := false; lp_Parts := [] |}.
Proof. vm_compute. reflexivity. Qed.

(** * Further properties of the operations *)

(** ** Stores that differ under some paths only *)

(** [s'] has the buckets and every uploads.json of [s], and the
    directories of [s] at every path outside [P]. *)
Definition sameOutside (P : path → Prop) (s s' : store) : Prop :=
  buckets s' = buckets s
  ∧ (∀ b o, getUploadsJSON s' b o = getUploadsJSON s b o)
  ∧ ∀ q, ¬ P q → getDir s' q = getDir s q.

Lemma sameOutside_refl (P : path → Prop) (s : store) : sameOutside P s s.
Proof. by split_and!. Qed.

Lemma sameOutside_trans (P : path → Prop) (s s1 s2 : store) :
  sameOutside P s s1 → sameOutside P s1 s2 → sameOutside P s s2.
Proof.
  intros (Hb1 & Hu1 & Hd1) (Hb2 & Hu2 & Hd2). split_and!.
  - by rewrite Hb2.
  - intros b o. by rewrite Hu2.
  - intros q Hq. by rewrite Hd2, Hd1.
Qed.

Lemma sameOutside_weaken (P Q : path → Prop) (s s' : store) :
  (∀ q, P q → Q q) → sameOutside P s s' → sameOutside Q s s'.
Proof. intros HPQ (Hb & Hu & Hd). split_and!; [done..|]. intros q Hq. apply Hd. auto. Qed.

Lemma getUploadsJSON_putDir (p : path) (d : objectDir) (s : store) (b o : string) :
  getUploadsJSON (putDir p d s) b o = getUploadsJSON s b o.
Proof.
  unfold getUploadsJSON. destruct p as [id|b' o' id|b' o'|b' o']; cbn; try done.
  destruct (decide ((b', o') = (b, o))) as [[= -> ->]|Hne].
  - rewrite lookup_insert_eq. cbn. by destruct (multipart s !! (b, o)).
  - by rewrite lookup_insert_ne.
Qed.

Lemma getUploadsJSON_removeDir (p : path) (s : store) (b o : string) :
  (∀ b' o', p ≠ MultipartDir b' o') →
  getUploadsJSON (removeDir p s) b o = getUploadsJSON s b o.
Proof.
  intros Hp. unfold getUploadsJSON.
  destruct p as [id|b' o' id|b' o'|b' o']; cbn; try done.
  - destruct (multipart s !! (b', o')) as [md|] eqn:Hmd; [|done]. cbn.
    destruct (decide ((b', o') = (b, o))) as [[= -> ->]|Hne].
    + by rewrite lookup_insert_eq, Hmd.
    + by rewrite lookup_insert_ne.
  - exfalso. by eapply Hp.
Qed.

Lemma sameOutside_putDir (p : path) (d : objectDir) (s : store) :
  sameOutside (λ q, q = p) s (putDir p d s).
Proof.
  split_and!.
  - apply buckets_putDir.
  - intros b o. apply getUploadsJSON_putDir.
  - intros q Hq. apply getDir_putDir_ne. congruence.
Qed.

Lemma sameOutside_removeDir (p : path) (s : store) :
  (∀ b o, p ≠ MultipartDir b o) →
  sameOutside (pathUnder p) s (removeDir p s).
Proof.
  intros Hp. split_and!.
  - apply buckets_removeDir.
  - intros b o. by apply getUploadsJSON_removeDir.
  - intros q Hq. by apply getDir_removeDir_outside.
Qed.

Lemma AppendFile_same (e : env) (dir : path) (name : string) (buf : list byte)
    (s s1 : store) (r : result Z) :
  AppendFile e dir name buf s = (s1, r) → sameOutside (λ q, q = dir) s s1.
Proof.
  unfold AppendFile. destruct (fault e p_AppendFile dir); intros [= <- <-].
  - apply sameOutside_refl.
  - apply sameOutside_putDir.
Qed.


Lemma writeMeta_same (p : prim) (e : env) (dir : path) (m : xlMetaV1)
    (s s1 : store) (r : option error) :
  writeMeta p e dir m s = (s1, r) → sameOutside (λ q, q = dir) s s1.
Proof.
  unfold writeMeta. destruct (fault e p dir); intros [= <- <-].
  - apply sameOutside_refl.
  - apply sameOutside_putDir.
Qed.

Lemma renameXLMetadata_same (e : env) (src dst : path) (s s1 : store)
    (r : option error) :
  renameXLMetadata e src dst s = (s1, r) →
  sameOutside (λ q, q = src ∨ q = dst) s s1.
Proof.
  unfold renameXLMetadata.
  destruct (fault e p_renameXLMetadata dst);
    [intros [= <- <-]; apply sameOutside_refl|].
  destruct (getDir s src) as [d|]; [|intros [= <- <-]; apply sameOutside_refl].
  destruct (xlJSON d); intros [= <- <-]; [|apply sameOutside_refl].
  eapply sameOutside_trans;
    (eapply sameOutside_weaken; [|apply sameOutside_putDir]); cbn; auto.
Qed.

Lemma renameObject_same (e : env) (src dst : path) (s s1 : store)
    (r : option error) :
  (∀ b o, src ≠ MultipartDir b o) →
  renameObject e src dst s = (s1, r) →
  sameOutside (λ q, pathUnder src q ∨ q = dst) s s1.
Proof.
  intros Hsrc. unfold renameObject.
  destruct (fault e p_renameObject src);
    [intros [= <- <-]; apply sameOutside_refl|].
  destruct (getDir s src) as [d|]; intros [= <- <-]; [|apply sameOutside_refl].
  eapply sameOutside_trans.
  - eapply sameOutside_weaken; [|by apply sameOutside_removeDir]. cbn. auto.
  - eapply sameOutside_weaken; [|apply sameOutside_putDir]. cbn. auto.
Qed.

Lemma deleteObject_same (e : env) (p : path) (s s1 : store) (r : option error) :
  (∀ b o, p ≠ MultipartDir b o) →
  deleteObject e p s = (s1, r) → sameOutside (pathUnder p) s s1.
Proof.
  intros Hp. unfold deleteObject. destruct (fault e p_deleteObject p);
    intros [= <- <-]; [apply sameOutside_refl|by apply sameOutside_removeDir].
Qed.

Lemma trimParts_same (bucket object uploadID : string) (xlMeta : xlMetaV1) :
  ∀ (currentParts : list objectPartInfo) (s : store),
    sameOutside (λ q, q = UploadDir bucket object uploadID) s
      (trimParts bucket object uploadID xlMeta currentParts s).
Proof.
  induction currentParts as [|p ps IH]; intros s; cbn [trimParts].
  - apply sameOutside_refl.
  - eapply sameOutside_trans; [|apply IH]. case_decide; [|apply sameOutside_refl].
    unfold removeObjectPart. destruct (getDir s _); [|apply sameOutside_refl].
    apply sameOutside_putDir.
Qed.

Lemma readLoop_same (e : env) (bucket object uploadID partSuffix : string) :
  ∀ (fuel : nat) (data : Reader) (w : md5Hash) (s s1 : store) r,
    readLoop fuel e bucket object uploadID partSuffix data w s = Some (s1, r) →
    sameOutside (λ q, q = TmpDir uploadID) s s1.
Proof.
  induction fuel as [|fuel IH]; intros data w s s1 r; [done|].
  cbn [readLoop]. destruct (ReadFull data (blockSizeV1 e)) as [[buf st] data'].
  assert (∀ s0 r0,
    match AppendFile e (TmpDir uploadID) partSuffix buf s with
    | (s2, Ok m) =>
        if decide (m ≠ Z.of_nat (length buf))
        then Some (s2, Err (toObjectErr errUnexpected bucket object))
        else readLoop fuel e bucket object uploadID partSuffix data'
               (md5_Write w buf) s2
    | (s2, Err err) =>
        Some (s2, Err (toObjectErr err minioMetaBucket
                         (pathJoin [tmpMetaPrefix; uploadID; partSuffix])))
    end = Some (s0, r0) → sameOutside (λ q, q = TmpDir uploadID) s s0) as Hstep.
  { intros s0 r0.
    destruct (AppendFile e _ _ _ s) as [s2 [m|]] eqn:Happ;
      apply AppendFile_same in Happ.
    - case_decide; [by intros [= <- <-]|].
      intros Hrec%IH. by eapply sameOutside_trans.
    - by intros [= <- <-]. }
  destruct st; try apply Hstep; intros [= <- <-]; apply sameOutside_refl.
Qed.

(** ** The checks every operation starts with *)

(** The outcome of the three name checks, in the order of the source. *)
Definition nameCheck (e : env) (s : store) (bucket object : string) : option error :=
  if negb (IsValidBucketName e bucket) then Some (BucketNameInvalid bucket)
  else if negb (isBucketExist s bucket) then Some (BucketNotFound bucket)
  else if negb (IsValidObjectName e object)
  then Some (ObjectNameInvalid bucket object)
  else None.

Lemma nameCheck_None (e : env) (s : store) (bucket object : string) :
  nameCheck e s bucket object = None →
  IsValidBucketName e bucket = true ∧ isBucketExist s bucket = true
  ∧ IsValidObjectName e object = true.
Proof.
  unfold nameCheck. destruct (IsValidBucketName e bucket); [|done].
  destruct (isBucketExist s bucket); [|done].
  by destruct (IsValidObjectName e object).
Qed.

(** X1.  The five operations run the same three checks first and in the
    same order: a malformed bucket name, then a bucket that does not exist,
    then a malformed object name.  The first that fails is the error of
    the call, whatever the other arguments, and the store is left as it
    was; PutObjectPart does not touch its stream. *)
Theorem name_checks_come_first (e : env) (s : store)
    (bucket object uploadID : string) (meta : option (gmap string string))
    (partID size : Z) (data : Reader) (md5Hex : string)
    (partNumberMarker maxParts : Z) (parts : list completePart) (err : error) :
  nameCheck e s bucket object = Some err →
  newMultipartUpload e s bucket object meta = (s, Err err)
  ∧ putObjectPart e s bucket object uploadID partID size data md5Hex
    = Some (s, Err err)
  ∧ listObjectParts e s bucket object uploadID partNumberMarker maxParts = Err err
  ∧ CompleteMultipartUpload e s bucket object uploadID parts = (s, Err err)
  ∧ abortMultipartUpload e s bucket object uploadID = (s, Some err).
Proof.
  unfold nameCheck, newMultipartUpload, putObjectPart, listObjectParts,
    CompleteMultipartUpload, completeCommit, abortMultipartUpload.
  destruct (negb (IsValidBucketName e bucket)); [by intros [= <-]|].
  destruct (negb (isBucketExist s bucket)); [by intros [= <-]|].
  destruct (negb (IsValidObjectName e object)); [by intros [= <-]|done].
Qed.

Lemma name_checks_come_first_witness :
  newMultipartUpload Demo.env0 Demo.store1 "nobucket" "k" None
  = (Demo.store1, Err (BucketNotFound "nobucket"))
  ∧ putObjectPart Demo.env0 Demo.store1 "nobucket" "k" "U1" 1 3
      (Demo.reader "abc") ""
    = Some (Demo.store1, Err (BucketNotFound "nobucket"))
  ∧ listObjectParts Demo.env0 Demo.store1 "nobucket" "k" "U1" 0 10
    = Err (BucketNotFound "nobucket")
  ∧ CompleteMultipartUpload Demo.env0 Demo.store1 "nobucket" "k" "U1" []
    = (Demo.store1, Err (BucketNotFound "nobucket"))
  ∧ abortMultipartUpload Demo.env0 Demo.store1 "nobucket" "k" "U1"
    = (Demo.store1, Some (BucketNotFound "nobucket")).
Proof.
  apply (name_checks_come_first Demo.env0 Demo.store1 "nobucket" "k" "U1").
  vm_compute. reflexivity.
Defined.

(** X2.  With valid names, an upload ID whose directory holds no xl.json
    makes PutObjectPart, ListObjectParts, CompleteMultipartUpload and
    AbortMultipartUpload fail InvalidUploadID with the store left as it
    was; once more the stream of PutObjectPart is not read and the parts of
    a completion are not looked at. *)
Theorem unknown_upload_is_invalid (e : env) (s : store)
    (bucket object uploadID : string)
    (partID size : Z) (data : Reader) (md5Hex : string)
    (partNumberMarker maxParts : Z) (parts : list completePart) :
  nameCheck e s bucket object = None →
  isUploadIDExists s bucket object uploadID = false →
  putObjectPart e s bucket object uploadID partID size data md5Hex
  = Some (s, Err (InvalidUploadID uploadID))
  ∧ listObjectParts e s bucket object uploadID partNumberMarker maxParts
    = Err (InvalidUploadID uploadID)
  ∧ CompleteMultipartUpload e s bucket object uploadID parts
    = (s, Err (InvalidUploadID uploadID))
  ∧ abortMultipartUpload e s bucket object uploadID
    = (s, Some (InvalidUploadID uploadID)).
Proof.
  intros (Hb & Hbe & Ho)%nameCheck_None Hex.
  unfold putObjectPart, listObjectParts, CompleteMultipartUpload, completeCommit,
    abortMultipartUpload.
  by rewrite Hb, Hbe, Ho, Hex.
Qed.

Lemma unknown_upload_is_invalid_witness :
  putObjectPart Demo.env0 Demo.store1 "b" "k" "U9" 1 3 (Demo.reader "abc") ""
  = Some (Demo.store1, Err (InvalidUploadID "U9"))
  ∧ listObjectParts Demo.env0 Demo.store1 "b" "k" "U9" 0 10
    = Err (InvalidUploadID "U9")
  ∧ CompleteMultipartUpload Demo.env0 Demo.store1 "b" "k" "U9"
      [Demo.cp 1 "not hexadecimal"]
    = (Demo.store1, Err (InvalidUploadID "U9"))
  ∧ abortMultipartUpload Demo.env0 Demo.store1 "b" "k" "U9"
    = (Demo.store1, Some (InvalidUploadID "U9")).
Proof.
  apply (unknown_upload_is_invalid Demo.env0 Demo.store1 "b" "k" "U9");
    vm_compute; reflexivity.
Defined.

(** ** Initiating an upload *)

(** The uploads registered for an object: the entries of its uploads.json,
    none when there is no such file. *)
Definition uploadsOf (s : store) (bucket object : string) : list uploadInfo :=
  match getUploadsJSON s bucket object with
  | Some u => Uploads u
  | None => []
  end.

Lemma getUploadsJSON_setUploadsJSON (b o : string) (u : uploadsV1) (s : store)
    (b' o' : string) :
  getUploadsJSON (setUploadsJSON b o u s) b' o'
  = if decide ((b, o) = (b', o')) then Some u else getUploadsJSON s b' o'.
Proof.
  unfold getUploadsJSON, setUploadsJSON. cbn. case_decide as Heq.
  - injection Heq as -> ->. by rewrite lookup_insert_eq.
  - by rewrite lookup_insert_ne.
Qed.



(** X4.  NewMultipartUpload registers the upload before it creates it: when
    the registration succeeds and then the staging of xl.json or the rename
    into the upload directory fails, the call returns the translated error
    and no upload ID, yet uploads.json lists the new identifier, and the
    upload directory is as it was before the call. *)
Theorem newMultipartUpload_failure_leaves_registration (e : env) (s : store)
    (bucket object : string) (meta : option (gmap string string)) (err : error) :
  nameCheck e s bucket object = None →
  fault e p_writeUploadJSON (MultipartDir bucket object) = None →
  fault e p_writeXLMetadata (TmpDir (getUUID e)) = Some err
  ∨ (fault e p_writeXLMetadata (TmpDir (getUUID e)) = None
     ∧ fault e p_renameObject (TmpDir (getUUID e)) = Some err) →
  ∃ s' path,
    newMultipartUpload e s bucket object meta
    = (s', Err (toObjectErr err minioMetaBucket path))
    ∧ uploadsOf s' bucket object
      = uploadsOf s bucket object
          ++ [{| UploadID := getUUID e; Initiated := now e |}]
    ∧ getDir s' (UploadDir bucket object (getUUID e))
      = getDir s (UploadDir bucket object (getUUID e)).
Proof.
  intros (Hb & Hbe & Ho)%nameCheck_None Hreg Hfail.
  unfold newMultipartUpload, writeUploadJSON. rewrite Hb, Hbe, Ho, Hreg.
  cbn [negb].
  match goal with
  | |- context [setUploadsJSON bucket object ?u s] =>
      set (s1 := setUploadsJSON bucket object u s)
  end.
  assert (uploadsOf s1 bucket object
          = uploadsOf s bucket object
              ++ [{| UploadID := getUUID e; Initiated := now e |}]) as Hups.
  { unfold uploadsOf. subst s1.
    rewrite getUploadsJSON_setUploadsJSON, decide_True by done.
    cbn [Uploads]. by destruct (getUploadsJSON s bucket object). }
  destruct Hfail as [Hf|[Hf0 Hf]].
  - unfold writeXLMetadata, writeMeta. rewrite Hf.
    eexists _, _. split; [reflexivity|]. split; [done|].
    subst s1. apply getDir_setUploadsJSON.
  - destruct (writeXLMetadata _ _ _ _) as [s2 [x|]] eqn:Hw.
    { unfold writeXLMetadata, writeMeta in Hw. by rewrite Hf0 in Hw. }
    pose proof (writeMeta_same _ _ _ _ _ _ _ Hw) as (_ & Hu2 & Hd2).
    unfold renameObject. rewrite Hf.
    eexists _, _. split; [reflexivity|]. split.
    + unfold uploadsOf in *. by rewrite Hu2.
    + rewrite Hd2 by done. subst s1. apply getDir_setUploadsJSON.
Qed.

Lemma newMultipartUpload_failure_leaves_registration_witness :
  ∃ s' path,
    newMultipartUpload
      (Demo.withFault p_renameObject (TmpDir "U1") (errDisk "disk offline")
         Demo.env0) Demo.store0 "b" "k" None
    = (s', Err (toObjectErr (errDisk "disk offline") minioMetaBucket path))
    ∧ uploadsOf s' "b" "k"
      = uploadsOf Demo.store0 "b" "k"
          ++ [{| UploadID := "U1"; Initiated := now Demo.env0 |}]
    ∧ getDir s' (UploadDir "b" "k" "U1")
      = getDir Demo.store0 (UploadDir "b" "k" "U1").
Proof.
  apply (newMultipartUpload_failure_leaves_registration
           (Demo.withFault p_renameObject (TmpDir "U1") (errDisk "disk offline")
              Demo.env0) Demo.store0 "b" "k" None (errDisk "disk offline"));
    [vm_compute; reflexivity..|right; split; vm_compute; reflexivity].
Defined.

(** ** Storing a part: failures and bytes *)

(** The store a call of [putObjectPart] leaves behind. *)
Definition storeAfter (r : option (store * result string)) (s : store) : store :=
  match r with
  | Some (s', _) => s'
  | None => s
  end.





(** The bytes of a file, when the directory and the file exist. *)
Definition fileContent (s : store) (dir : path) (name : string)
  : option (list byte) :=
  match getDir s dir with
  | Some d => content <$> files d !! name
  | None => None
  end.

(** The bytes already staged for a part by an earlier call. *)
Definition stagedBytes (s : store) (uploadID name : string) : list byte :=
  default [] (fileContent s (TmpDir uploadID) name).

Lemma fileContent_AppendFile (e : env) (dir : path) (name : string)
    (buf : list byte) (s s1 : store) (m : Z) :
  (∀ b o, dir ≠ MultipartDir b o) →
  AppendFile e dir name buf s = (s1, Ok m) →
  fileContent s1 dir name = Some (default [] (fileContent s dir name) ++ buf).
Proof.
  intros Hdir. unfold AppendFile, fileContent.
  destruct (fault e p_AppendFile dir); [done|]. intros [= <- _].
  rewrite getDir_putDir_eq by done. cbn [files]. rewrite lookup_insert_eq. cbn.
  destruct (getDir s dir) as [d|]; cbn; [|done].
  by destruct (files d !! name).
Qed.

(** A read loop that ends well on a stream that is not empty leaves the
    staged file with the bytes it had followed by the bytes of the stream;
    on an empty stream it changes nothing. *)
Lemma readLoop_content (e : env) (bucket object uploadID partSuffix : string) :
  ∀ (fuel : nat) (data : Reader) (w w' : md5Hash) (s s1 : store),
    readLoop fuel e bucket object uploadID partSuffix data w s = Some (s1, Ok w') →
    (rd_data data = [] ∧ s1 = s)
    ∨ (rd_data data ≠ []
       ∧ fileContent s1 (TmpDir uploadID) partSuffix
         = Some (stagedBytes s uploadID partSuffix ++ rd_data data)).
Proof.
  induction fuel as [|fuel IH]; intros data w w' s s1; [done|].
  intros Hres. pose proof (readLoop_Ok _ _ _ _ _ _ _ _ _ _ _ Hres) as (_ & Hnone & _).
  revert Hres. cbn [readLoop]. unfold ReadFull. rewrite Hnone.
  set (n := Pos.to_nat (blockSizeV1 e)).
  assert (0 < n)%nat by (subst n; lia).
  assert (∀ s0,
    take n (rd_data data) ≠ [] →
    match AppendFile e (TmpDir uploadID) partSuffix (take n (rd_data data)) s with
    | (s2, Ok m) =>
        if decide (m ≠ Z.of_nat (length (take n (rd_data data))))
        then Some (s2, Err (toObjectErr errUnexpected bucket object))
        else readLoop fuel e bucket object uploadID partSuffix
               {| rd_data := drop n (rd_data data); rd_err := None |}
               (md5_Write w (take n (rd_data data))) s2
    | (s2, Err err) =>
        Some (s2, Err (toObjectErr err minioMetaBucket
                         (pathJoin [tmpMetaPrefix; uploadID; partSuffix])))
    end = Some (s0, Ok w') →
    rd_data data ≠ []
    ∧ fileContent s0 (TmpDir uploadID) partSuffix
      = Some (stagedBytes s uploadID partSuffix ++ rd_data data)) as Hstep.
  { intros s0 Hbuf.
    destruct (AppendFile e _ _ _ s) as [s2 [m|]] eqn:Happ; [|done].
    apply fileContent_AppendFile in Happ; [|done].
    case_decide; [done|]. intros Hrec%IH. cbn [rd_data] in Hrec.
    split; [intros Hnil; rewrite Hnil, take_nil in Hbuf; done|].
    destruct Hrec as [[Hnil ->]|[Hne Hc]].
    - rewrite Happ. do 2 f_equal.
      rewrite <-(take_drop n (rd_data data)) at 2. by rewrite Hnil, app_nil_r.
    - rewrite Hc. unfold stagedBytes at 1. rewrite Happ. cbn [default].
      fold (stagedBytes s uploadID partSuffix).
      unfold id. by rewrite <-app_assoc, take_drop. }
  case_decide as Hfull.
  - intros Hres. right. apply (Hstep s1); [|done].
    intros Hnil. rewrite Hnil in Hfull. cbn in Hfull. lia.
  - case_decide as Hnil.
    + intros [= <- <-]. left. split; [|done].
      destruct (rd_data data); [done|]. subst n.
      destruct (Pos.to_nat (blockSizeV1 e)); [lia|done].
    + intros Hres. right. by apply (Hstep s1).
Qed.

(** X6.  A successful PutObjectPart of a stream that is not empty leaves,
    in the upload directory, the part file object<partID> holding the bytes
    staged for that part by earlier calls that did not finish, followed by
    every byte of the stream, whatever the size of the read buffer; when
    nothing was staged the file holds exactly the stream.  The other part
    files of the upload are untouched. *)
Theorem putObjectPart_stores_stream (e : env) (s s' : store)
    (bucket object uploadID : string) (partID size : Z) (data : Reader)
    (md5Hex etag : string) :
  putObjectPart e s bucket object uploadID partID size data md5Hex
  = Some (s', Ok etag) →
  rd_data data ≠ [] →
  fileContent s' (UploadDir bucket object uploadID) (partSuffixOf partID)
  = Some (stagedBytes s uploadID (partSuffixOf partID) ++ rd_data data)
  ∧ ∀ name, name ≠ partSuffixOf partID →
            fileContent s' (UploadDir bucket object uploadID) name
            = fileContent s (UploadDir bucket object uploadID) name.
Proof.
  unfold putObjectPart.
  destruct (negb (IsValidBucketName e bucket)); [done|].
  destruct (negb (isBucketExist s bucket)); [done|].
  destruct (negb (IsValidObjectName e object)); [done|].
  destruct (isUploadIDExists s bucket object uploadID) eqn:Hex; [|done].
  cbn [negb].
  destruct (readAllXLMetadata e s _) as [xlMeta|] eqn:Hread; [|done].
  destruct (readLoop _ _ _ _ _ _ _ _ _) as [[s1 [w|]]|] eqn:Hloop; [|done..].
  pose proof (readLoop_same _ _ _ _ _ _ _ _ _ _ _ Hloop) as (_ & _ & Hd1).
  apply readLoop_content in Hloop.
  destruct (_ && _); [done|].
  destruct (negb (isUploadIDExists s1 bucket object uploadID)); [done|].
  destruct (renamePart _ _ _ _ _) as [s2 [?|]] eqn:Hs2; [done|].
  destruct (writeUniqueXLMetadata _ _ _ _) as [s3 [?|]] eqn:Hs3; [done|].
  destruct (renameXLMetadata _ _ _ _) as [s4 [?|]] eqn:Hs4; [done|].
  intros [= <- <-] Hdata.
  destruct Hloop as [[Hnil _]|[_ Hstaged]]; [done|].
  apply readMeta_Ok in Hread as (_ & d0 & Hd0 & _).
  pose proof (writeMeta_same _ _ _ _ _ _ _ Hs3) as (_ & _ & Hd3).
  apply renameXLMetadata_Ok in Hs4 as (dm & m & _ & _ & Hd4 & _); [|done..].
  rewrite Hd3 in Hd4 by done.
  unfold renamePart in Hs2. destruct (fault e p_renameObject _); [done|].
  unfold fileContent in Hstaged.
  destruct (getDir s1 (TmpDir uploadID)) as [dt|] eqn:Hdt; [|done].
  destruct (files dt !! partSuffixOf partID) as [f|] eqn:Hf; [|done].
  apply (f_equal fst) in Hs2. cbn [fst] in Hs2. subst s2.
  rewrite getDir_putDir_eq in Hd4 by done. cbn [default from_option id files] in Hd4.
  rewrite getDir_putDir_ne, Hd1, Hd0 in Hd4 by done.
  cbn [default from_option id] in Hd4.
  unfold fileContent. rewrite Hd4, Hd0. cbn [files]. split.
  - rewrite lookup_insert_eq. cbn. by injection Hstaged as ->.
  - intros name Hname. by rewrite lookup_insert_ne.
Qed.

Lemma putObjectPart_stores_stream_witness :
  fileContent Demo.store3 (UploadDir "b" "k" "U1") (partSuffixOf 2)
  = Some (stagedBytes Demo.store2 "U1" (partSuffixOf 2)
            ++ rd_data (Demo.reader "hello world"))
  ∧ ∀ name, name ≠ partSuffixOf 2 →
            fileContent Demo.store3 (UploadDir "b" "k" "U1") name
            = fileContent Demo.store2 (UploadDir "b" "k" "U1") name.
Proof.
  apply (putObjectPart_stores_stream Demo.env0 Demo.store2 Demo.store3 "b" "k"
           "U1" 2 11 (Demo.reader "hello world") "" Demo.etag_hello).
  - vm_compute. reflexivity.
  - vm_compute. discriminate.
Defined.

(** The staging file of a failed attempt is kept and the next attempt
    appends to it: after a PutObjectPart of "xyz" that fails BadDigest, a
    PutObjectPart of "abc" for the same part succeeds with the ETag of
    "abc" and leaves a part file holding "xyzabc". *)
Example putObjectPart_after_failed_attempt :
  let s1 := storeAfter (putObjectPart Demo.env0 Demo.store1 "b" "k" "U1" 1 3
                          (Demo.reader "xyz") Demo.etag_abc) Demo.store1 in
  snd <$> putObjectPart Demo.env0 Demo.store1 "b" "k" "U1" 1 3
            (Demo.reader "xyz") Demo.etag_abc
  = Some (Err (BadDigest Demo.etag_abc Demo.etag_xyz))
  ∧ snd <$> putObjectPart Demo.env0 s1 "b" "k" "U1" 1 3 (Demo.reader "abc") ""
    = Some (Ok Demo.etag_abc)
  ∧ fileContent
      (storeAfter (putObjectPart Demo.env0 s1 "b" "k" "U1" 1 3
                     (Demo.reader "abc") "") s1)
      (UploadDir "b" "k" "U1") "object1"
    = Some (bytes_of_string "xyzabc").
Proof. split_and!; vm_compute; reflexivity. Qed.

Lemma readLoop_stream_error (e : env) (bucket object uploadID partSuffix : string)
    (err : error) :
  err ≠ ErrUnexpectedEOF →
  fault e p_AppendFile (TmpDir uploadID) = None →
  (∀ buf, appendFileCount e buf = Z.of_nat (length buf)) →
  ∀ (fuel : nat) (data : Reader) (w : md5Hash) (s : store),
    rd_err data = Some err → (length (rd_data data) < fuel)%nat →
    ∃ s1, readLoop fuel e bucket object uploadID partSuffix data w s
          = Some (s1, Err (toObjectErr err bucket object)).
Proof.
  intros Hother Hfault Hcount.
  induction fuel as [|fuel IH]; intros data w s Herr Hfuel; [lia|].
  cbn [readLoop]. unfold ReadFull. rewrite Herr.
  pose proof (length_take (rd_data data) (Pos.to_nat (blockSizeV1 e))) as Htake.
  assert (0 < Pos.to_nat (blockSizeV1 e))%nat by lia.
  case_decide as Hfull; [|rewrite decide_False by done; eauto].
  unfold AppendFile. rewrite Hfault, Hcount.
  rewrite decide_False by (intros H'; by apply H').
  apply IH; cbn [rd_err rd_data]; [done|]. rewrite length_drop. lia.
Qed.

(** A reader that ends in io.ErrUnexpectedEOF never lets the loop end:
    every turn takes the error for a short read and appends what it got,
    nothing at all once the bytes are used up. *)
Lemma readLoop_unexpected_eof (e : env) (bucket object uploadID partSuffix : string) :
  fault e p_AppendFile (TmpDir uploadID) = None →
  (∀ buf, appendFileCount e buf = Z.of_nat (length buf)) →
  ∀ (fuel : nat) (data : Reader) (w : md5Hash) (s : store),
    rd_err data = Some ErrUnexpectedEOF →
    readLoop fuel e bucket object uploadID partSuffix data w s = None.
Proof.
  intros Hfault Hcount.
  induction fuel as [|fuel IH]; intros data w s Herr; [done|].
  cbn [readLoop]. unfold ReadFull. rewrite Herr.
  case_decide as Hfull; [|rewrite decide_True by done];
    unfold AppendFile; rewrite Hfault, Hcount;
    (rewrite decide_False by (intros H'; by apply H')); by apply IH.
Qed.

(** X7.  When the stream of a PutObjectPart ends in an error and every
    append goes through: for an error other than io.ErrUnexpectedEOF the
    call fails with that error, translated for the bucket and object,
    whatever was read before, and the xl.json of the upload and everything
    outside the staging directory are as before the call; an
    io.ErrUnexpectedEOF of the reader is let through as a short read
    (lines 155-157) and does not fail the call: the read loop does not end,
    whatever the number of turns, and the call does not return. *)
Theorem putObjectPart_stream_error (e : env) (s : store)
    (bucket object uploadID : string) (partID size : Z) (data : Reader)
    (md5Hex : string) (xlMeta : xlMetaV1) (err : error) :
  nameCheck e s bucket object = None →
  readAllXLMetadata e s (UploadDir bucket object uploadID) = Ok xlMeta →
  fault e p_AppendFile (TmpDir uploadID) = None →
  (∀ buf, appendFileCount e buf = Z.of_nat (length buf)) →
  rd_err data = Some err →
  (err ≠ ErrUnexpectedEOF →
   ∃ s', putObjectPart e s bucket object uploadID partID size data md5Hex
         = Some (s', Err (toObjectErr err bucket object))
         ∧ metaAt s' (UploadDir bucket object uploadID)
           = metaAt s (UploadDir bucket object uploadID)
         ∧ sameOutside (λ q, q = TmpDir uploadID) s s')
  ∧ (err = ErrUnexpectedEOF →
     putObjectPart e s bucket object uploadID partID size data md5Hex = None
     ∧ ∀ fuel w s0, readLoop fuel e bucket object uploadID (partSuffixOf partID)
                      data w s0 = None).
Proof.
  intros (Hb & Hbe & Ho)%nameCheck_None Hread Hfault Hcount Herr.
  destruct (readMeta_Ok _ _ _ _ _ Hread) as [Hex _]. split.
  - intros Hother.
    destruct (readLoop_stream_error e bucket object uploadID (partSuffixOf partID)
                err Hother Hfault Hcount (S (length (rd_data data))) data md5_New
                s Herr ltac:(lia)) as [s1 Hloop].
    exists s1.
    pose proof (readLoop_same _ _ _ _ _ _ _ _ _ _ _ Hloop) as Hsame.
    unfold putObjectPart, isUploadIDExists.
    rewrite Hb, Hbe, Ho, Hex, Hread, Hloop. cbn [negb].
    split_and!; [done| |done].
    destruct Hsame as (_ & _ & Hd). unfold metaAt. by rewrite Hd.
  - intros ->.
    pose proof (readLoop_unexpected_eof e bucket object uploadID
                  (partSuffixOf partID) Hfault Hcount) as Hloop.
    split; [|intros fuel w s0; by apply Hloop].
    unfold putObjectPart, isUploadIDExists.
    rewrite Hb, Hbe, Ho, Hex, Hread. cbn [negb]. by rewrite Hloop.
Qed.

Lemma putObjectPart_stream_error_witness :
  (∃ s', putObjectPart Demo.env0 Demo.store2 "b" "k" "U1" 2 11
           {| rd_data := bytes_of_string "hello";
              rd_err := Some (errDisk "reset") |} ""
         = Some (s', Err (toObjectErr (errDisk "reset") "b" "k"))
         ∧ metaAt s' (UploadDir "b" "k" "U1")
           = metaAt Demo.store2 (UploadDir "b" "k" "U1")
         ∧ sameOutside (λ q, q = TmpDir "U1") Demo.store2 s')
  ∧ putObjectPart Demo.env0 Demo.store2 "b" "k" "U1" 2 11
      {| rd_data := bytes_of_string "hello"; rd_err := Some ErrUnexpectedEOF |} ""
    = None.
Proof.
  split.
  - apply (putObjectPart_stream_error Demo.env0 Demo.store2 "b" "k" "U1" 2 11
             {| rd_data := bytes_of_string "hello";
                rd_err := Some (errDisk "reset") |} ""
             (default newXLMetaV1 (metaAt Demo.store2 (UploadDir "b" "k" "U1")))
             (errDisk "reset"));
      try (vm_compute; reflexivity). discriminate.
  - apply (putObjectPart_stream_error Demo.env0 Demo.store2 "b" "k" "U1" 2 11
             {| rd_data := bytes_of_string "hello";
                rd_err := Some ErrUnexpectedEOF |} ""
             (default newXLMetaV1 (metaAt Demo.store2 (UploadDir "b" "k" "U1")))
             ErrUnexpectedEOF);
      vm_compute; reflexivity.
Defined.

(** ** Completing an upload: what is touched, what is left *)

(** The paths a completion works under. *)
Definition completePaths (e : env) (bucket object uploadID : string) (q : path)
  : Prop :=
  q = TmpDir uploadID ∨ q = TmpDir (getUUID e)
  ∨ q = UploadDir bucket object uploadID ∨ pathUnder (ObjectDir bucket object) q.

Lemma completeCommit_same (e : env) (s s1 : store) (bucket object uploadID : string)
    (parts : list completePart) (r : result string) :
  completeCommit e s bucket object uploadID parts = (s1, r) →
  sameOutside (completePaths e bucket object uploadID) s s1.
Proof.
  unfold completeCommit.
  assert (sameOutside (completePaths e bucket object uploadID) s s) as Hrefl
    by apply sameOutside_refl.
  destruct (negb (IsValidBucketName e bucket)); [by intros [= <- <-]|].
  destruct (negb (isBucketExist s bucket)); [by intros [= <- <-]|].
  destruct (negb (IsValidObjectName e object)); [by intros [= <- <-]|].
  destruct (negb (isUploadIDExists s bucket object uploadID));
    [by intros [= <- <-]|].
  destruct (completeMultipartMD5 parts); [|by intros [= <- <-]].
  destruct (readAllXLMetadata e s _) as [m|]; [|by intros [= <- <-]].
  destruct (validateParts m _ 0 parts 0 []) as [[objectSize newParts]|];
    [|by intros [= <- <-]].
  destruct (parentDirIsObject s bucket object); [by intros [= <- <-]|].
  destruct (writeUniqueXLMetadata _ _ _ _) as [sa ra] eqn:Ha.
  apply writeMeta_same in Ha.
  assert (sameOutside (completePaths e bucket object uploadID) s sa) as Hsa.
  { eapply sameOutside_weaken; [|exact Ha]. unfold completePaths; intros q Hq; cbn in Hq;
      intuition (subst; auto using pathUnder_refl). }
  clear Ha. destruct ra; [by intros [= <- <-]|].
  destruct (renameXLMetadata _ _ _ _) as [sb rb] eqn:Hb.
  apply renameXLMetadata_same in Hb.
  assert (sameOutside (completePaths e bucket object uploadID) s sb) as Hsb.
  { eapply sameOutside_trans; [exact Hsa|].
    eapply sameOutside_weaken; [|exact Hb]. unfold completePaths; intros q Hq; cbn in Hq;
      intuition (subst; auto using pathUnder_refl). }
  clear Hb. destruct rb; [by intros [= <- <-]|].
  destruct (renameObject e (ObjectDir bucket object) _ sb) as [sc rc] eqn:Hc.
  apply renameObject_same in Hc; [|done].
  assert (sameOutside (completePaths e bucket object uploadID) s sc) as Hsc.
  { eapply sameOutside_trans; [exact Hsb|].
    eapply sameOutside_weaken; [|exact Hc]. unfold completePaths; intros q Hq; cbn in Hq;
      intuition (subst; auto using pathUnder_refl). }
  clear Hc. destruct rc; [by intros [= <- <-]|].
  match goal with
  | |- context [trimParts bucket object uploadID ?xl ?ps sc] =>
      pose proof (trimParts_same bucket object uploadID xl ps sc) as Htrim;
      set (sd := trimParts bucket object uploadID xl ps sc) in *
  end.
  assert (sameOutside (completePaths e bucket object uploadID) s sd) as Hsd.
  { eapply sameOutside_trans; [exact Hsc|].
    eapply sameOutside_weaken; [|exact Htrim]. unfold completePaths; intros q Hq; cbn in Hq;
      intuition (subst; auto using pathUnder_refl). }
  destruct (renameObject e (UploadDir bucket object uploadID) _ sd)
    as [se re] eqn:He.
  apply renameObject_same in He; [|done].
  assert (sameOutside (completePaths e bucket object uploadID) s se) as Hse.
  { eapply sameOutside_trans; [exact Hsd|].
    eapply sameOutside_weaken; [|exact He]. unfold completePaths; intros q Hq; cbn in Hq;
      intuition (subst; auto using pathUnder_refl). }
  clear He. destruct re; [by intros [= <- <-]|].
  destruct (deleteObject e (TmpDir (getUUID e)) se) as [sf rf] eqn:Hf.
  apply deleteObject_same in Hf; [|done]. cbn [fst]. intros [= <- <-].
  eapply sameOutside_trans; [exact Hse|].
  eapply sameOutside_weaken; [|exact Hf]. unfold completePaths; intros q Hq; cbn in Hq;
      intuition (subst; auto using pathUnder_refl).
Qed.

(** The three stores the tail of a completion can end in. *)
Lemma CompleteMultipartUpload_tail (e : env) (s s' : store)
    (bucket object uploadID : string) (parts : list completePart)
    (r : result string) :
  CompleteMultipartUpload e s bucket object uploadID parts = (s', r) →
  ∃ s1 r1, completeCommit e s bucket object uploadID parts = (s1, r1)
           ∧ (s' = s1 ∨ (∃ u, s' = setUploadsJSON bucket object u s1)
              ∨ s' = removeDir (MultipartDir bucket object) s1).
Proof.
  unfold CompleteMultipartUpload.
  destruct (completeCommit e s bucket object uploadID parts) as [s1 [tag|err]].
  2:{ intros [= <- <-]. eauto. }
  assert (∀ x, match deleteObject e (MultipartDir bucket object) s1 with
               | (s2, Some err) =>
                   (s2, Err (toObjectErr err minioMetaBucket
                               (pathName (MultipartDir bucket object))))
               | (s2, None) => (s2, Ok tag)
               end = x → x = (s', r) →
               s' = s1 ∨ (∃ u, s' = setUploadsJSON bucket object u s1)
               ∨ s' = removeDir (MultipartDir bucket object) s1) as Hdel.
  { intros x <-. unfold deleteObject. destruct (fault e p_deleteObject _);
      intros [= <- <-]; auto. }
  intros Hres. exists s1, (Ok tag). split; [done|].
  destruct (readUploadsJSON e s1 bucket object) as [u|]; [|by eapply Hdel].
  case_decide; [|by eapply Hdel].
  unfold updateUploadsJSON in Hres.
  destruct (fault e p_updateUploadsJSON _); injection Hres as <- <-; eauto.
Qed.

Lemma buckets_setUploadsJSON (b o : string) (u : uploadsV1) (s : store) :
  buckets (setUploadsJSON b o u s) = buckets s.
Proof. done. Qed.

(** X8.  Whatever it returns, CompleteMultipartUpload leaves the buckets
    as they are and touches nothing outside the two staging directories of
    the call, the multipart directory of the object and the directory of
    the object, each taken with what the layout keeps under it: the
    uploads.json of every object whose name is neither <object> nor
    <object>/..., and every directory that lies under none of these paths,
    are as before the call. *)
Theorem CompleteMultipartUpload_touches_one_object (e : env) (s s' : store)
    (bucket object uploadID : string) (parts : list completePart)
    (r : result string) :
  CompleteMultipartUpload e s bucket object uploadID parts = (s', r) →
  buckets s' = buckets s
  ∧ (∀ b o, ¬ (b = bucket ∧ under object o) →
            getUploadsJSON s' b o = getUploadsJSON s b o)
  ∧ ∀ q, q ≠ TmpDir uploadID → q ≠ TmpDir (getUUID e) →
         ¬ pathUnder (ObjectDir bucket object) q →
         ¬ pathUnder (MultipartDir bucket object) q →
         getDir s' q = getDir s q.
Proof.
  intros (s1 & r1 & Hcommit & Htail)%CompleteMultipartUpload_tail.
  apply completeCommit_same in Hcommit as (Hb & Hu & Hd).
  assert (∀ q, q ≠ TmpDir uploadID → q ≠ TmpDir (getUUID e) →
               ¬ pathUnder (ObjectDir bucket object) q →
               ¬ pathUnder (MultipartDir bucket object) q →
               getDir s1 q = getDir s q) as Hd'.
  { intros q ? ? ? Hq. apply Hd. unfold completePaths.
    intros [?|[?|[->|?]]]; try done. apply Hq. cbn. split; [done|].
    by rewrite under_refl. }
  destruct Htail as [->|[[u ->]| ->]].
  - split_and!; [done|intros; apply Hu|done].
  - split_and!; [done| |].
    + intros b o Hne. rewrite getUploadsJSON_setUploadsJSON, decide_False.
      * apply Hu.
      * intros [= <- <-]. apply Hne. split; [done|]. by rewrite under_refl.
    + intros q ? ? ? ?. rewrite getDir_setUploadsJSON. by apply Hd'.
  - split_and!.
    + by rewrite buckets_removeDir.
    + intros b o Hne. unfold getUploadsJSON at 1.
      rewrite multipart_removeDir_ne by done. apply Hu.
    + intros q ? ? ? ?. rewrite getDir_removeDir_outside by done. by apply Hd'.
Qed.

Lemma CompleteMultipartUpload_touches_one_object_witness :
  buckets (fst (CompleteMultipartUpload Demo.envX Demo.storeTwo "b" "k" "U1"
                  [Demo.cp 1 Demo.etag_abc]))
  = buckets Demo.storeTwo
  ∧ (∀ b o, ¬ (b = "b" ∧ under "k" o) →
            getUploadsJSON
              (fst (CompleteMultipartUpload Demo.envX Demo.storeTwo "b" "k" "U1"
                      [Demo.cp 1 Demo.etag_abc])) b o
            = getUploadsJSON Demo.storeTwo b o)
  ∧ ∀ q, q ≠ TmpDir "U1" → q ≠ TmpDir (getUUID Demo.envX) →
         ¬ pathUnder (ObjectDir "b" "k") q →
         ¬ pathUnder (MultipartDir "b" "k") q →
         getDir (fst (CompleteMultipartUpload Demo.envX Demo.storeTwo "b" "k" "U1"
                        [Demo.cp 1 Demo.etag_abc])) q
         = getDir Demo.storeTwo q.
Proof.
  apply (CompleteMultipartUpload_touches_one_object Demo.envX Demo.storeTwo _
           "b" "k" "U1" [Demo.cp 1 Demo.etag_abc]
           (snd (CompleteMultipartUpload Demo.envX Demo.storeTwo "b" "k" "U1"
                   [Demo.cp 1 Demo.etag_abc]))).
  vm_compute. reflexivity.
Defined.

(** What does lie under the multipart directory goes with it: uploads of
    a and of a/x are active; the completion of the upload of a leaves no
    other upload of a, deletes the multipart directory of a, and the upload
    of a/x is gone with it. *)
Example CompleteMultipartUpload_takes_nested_uploads :
  let s1 := Demo.after Demo.store0
              (newMultipartUpload Demo.env0 Demo.store0 "b" "a" None) in
  let s2 := Demo.after s1
              (newMultipartUpload (Demo.withUUID "U2" Demo.env0) s1 "b" "a/x"
                 None) in
  let s3 := Demo.afterPut s2
              (putObjectPart Demo.env0 s2 "b" "a" "U1" 1 3 (Demo.reader "abc") "")
  in
  isUploadIDExists s3 "b" "a/x" "U2" = true
  ∧ snd (CompleteMultipartUpload Demo.envX s3 "b" "a" "U1"
           [Demo.cp 1 Demo.etag_abc])
    = Ok "af5da9f45af7a300e3aded972f8ff687-1"
  ∧ isUploadIDExists
      (fst (CompleteMultipartUpload Demo.envX s3 "b" "a" "U1"
              [Demo.cp 1 Demo.etag_abc])) "b" "a/x" "U2" = false.
Proof. vm_compute. done. Qed.

Lemma completeCommit_checked (e : env) (s s1 : store)
    (bucket object uploadID : string) (parts : list completePart) (tag : string) :
  completeCommit e s bucket object uploadID parts = (s1, Ok tag) →
  nameCheck e s bucket object = None.
Proof.
  unfold completeCommit, nameCheck.
  destruct (negb (IsValidBucketName e bucket)); [done|].
  destruct (negb (isBucketExist s bucket)); [done|].
  by destruct (negb (IsValidObjectName e object)).
Qed.

Lemma nameCheck_buckets (e : env) (s s' : store) (bucket object : string) :
  buckets s' = buckets s →
  nameCheck e s' bucket object = nameCheck e s bucket object.
Proof. intros Hb. unfold nameCheck, isBucketExist. by rewrite Hb. Qed.

Lemma isObject_None (s : store) (p : path) :
  getDir s p = None → isObject s p = false.
Proof. unfold isObject. by intros ->. Qed.

(** The commit moves the upload directory away. *)
Lemma completeCommit_retires (e : env) (s s1 : store)
    (bucket object uploadID : string) (parts : list completePart) (tag : string) :
  completeCommit e s bucket object uploadID parts = (s1, Ok tag) →
  getDir s1 (UploadDir bucket object uploadID) = None.
Proof.
  intros (m & objectSize & newParts & sa & sb & sc & s5 & _ & _ & _ & _ & _ & _
          & Hc & ->)%completeCommit_Ok.
  assert (getDir s5 (UploadDir bucket object uploadID) = None) as Hgone.
  { unfold renameObject in Hc.
    destruct (fault e p_renameObject (UploadDir bucket object uploadID)); [done|].
    destruct (getDir _ (UploadDir bucket object uploadID)) as [d|] eqn:Hd.
    - apply (f_equal fst) in Hc. cbn [fst] in Hc. subst s5.
      rewrite getDir_putDir_ne by done. apply getDir_removeDir_eq.
    - apply (f_equal fst) in Hc. cbn [fst] in Hc. by subst s5. }
  unfold deleteObject. destruct (fault e p_deleteObject _); cbn [fst]; [done|].
  by rewrite getDir_removeDir_ne.
Qed.

Lemma getDir_removeDir_multipart_upload (b o id : string) (s : store) :
  getDir (removeDir (MultipartDir b o) s) (UploadDir b o id) = None.
Proof. cbn [getDir]. by rewrite multipart_removeDir_eq. Qed.

(** X9.  A successful CompleteMultipartUpload uses the upload ID up: the
    upload directory is gone, and with the same names PutObjectPart,
    ListObjectParts, AbortMultipartUpload and a second
    CompleteMultipartUpload on that ID all fail InvalidUploadID and leave
    the store as the completion left it. *)
Theorem CompleteMultipartUpload_retires_upload (e : env) (s s' : store)
    (bucket object uploadID : string) (parts : list completePart) (tag : string)
    (partID size : Z) (data : Reader) (md5Hex : string)
    (partNumberMarker maxParts : Z) (parts2 : list completePart) :
  CompleteMultipartUpload e s bucket object uploadID parts = (s', Ok tag) →
  getDir s' (UploadDir bucket object uploadID) = None
  ∧ putObjectPart e s' bucket object uploadID partID size data md5Hex
    = Some (s', Err (InvalidUploadID uploadID))
  ∧ listObjectParts e s' bucket object uploadID partNumberMarker maxParts
    = Err (InvalidUploadID uploadID)
  ∧ CompleteMultipartUpload e s' bucket object uploadID parts2
    = (s', Err (InvalidUploadID uploadID))
  ∧ abortMultipartUpload e s' bucket object uploadID
    = (s', Some (InvalidUploadID uploadID)).
Proof.
  intros Hres.
  pose proof Hres as (s1 & r1 & Hcommit & Htail)%CompleteMultipartUpload_tail.
  assert (r1 = Ok tag) as ->.
  { apply CompleteMultipartUpload_Ok in Hres as (s1' & Hcommit' & _). congruence. }
  pose proof (completeCommit_retires _ _ _ _ _ _ _ _ Hcommit) as Hgone1.
  pose proof (completeCommit_checked _ _ _ _ _ _ _ _ Hcommit) as Hnames.
  pose proof (completeCommit_same _ _ _ _ _ _ _ _ Hcommit) as (Hb1 & _ & _).
  assert (getDir s' (UploadDir bucket object uploadID) = None) as Hgone.
  { destruct Htail as [->|[[u ->]| ->]]; [done| |].
    - by rewrite getDir_setUploadsJSON.
    - apply getDir_removeDir_multipart_upload. }
  assert (buckets s' = buckets s) as Hb.
  { destruct Htail as [->|[[u ->]| ->]]; [done|done|].
    by rewrite buckets_removeDir. }
  rewrite <-(nameCheck_buckets e s s' bucket object Hb) in Hnames.
  apply nameCheck_None in Hnames as (Hvb & Hbe & Hvo).
  split; [done|].
  unfold putObjectPart, listObjectParts, CompleteMultipartUpload, completeCommit,
    abortMultipartUpload, isUploadIDExists.
  by rewrite Hvb, Hbe, Hvo, (isObject_None _ _ Hgone).
Qed.

Lemma CompleteMultipartUpload_retires_upload_witness :
  getDir (fst (CompleteMultipartUpload Demo.envX Demo.store3 "b" "k" "U1"
                 [Demo.cp 1 Demo.etag_abc; Demo.cp 2 Demo.etag_hello]))
    (UploadDir "b" "k" "U1") = None
  ∧ putObjectPart Demo.envX
      (fst (CompleteMultipartUpload Demo.envX Demo.store3 "b" "k" "U1"
              [Demo.cp 1 Demo.etag_abc; Demo.cp 2 Demo.etag_hello]))
      "b" "k" "U1" 4 3 (Demo.reader "abc") ""
    = Some (fst (CompleteMultipartUpload Demo.envX Demo.store3 "b" "k" "U1"
                   [Demo.cp 1 Demo.etag_abc; Demo.cp 2 Demo.etag_hello]),
            Err (InvalidUploadID "U1"))
  ∧ listObjectParts Demo.envX
      (fst (CompleteMultipartUpload Demo.envX Demo.store3 "b" "k" "U1"
              [Demo.cp 1 Demo.etag_abc; Demo.cp 2 Demo.etag_hello]))
      "b" "k" "U1" 0 10
    = Err (InvalidUploadID "U1")
  ∧ CompleteMultipartUpload Demo.envX
      (fst (CompleteMultipartUpload Demo.envX Demo.store3 "b" "k" "U1"
              [Demo.cp 1 Demo.etag_abc; Demo.cp 2 Demo.etag_hello]))
      "b" "k" "U1" [Demo.cp 1 Demo.etag_abc]
    = (fst (CompleteMultipartUpload Demo.envX Demo.store3 "b" "k" "U1"
              [Demo.cp 1 Demo.etag_abc; Demo.cp 2 Demo.etag_hello]),
       Err (InvalidUploadID "U1"))
  ∧ abortMultipartUpload Demo.envX
      (fst (CompleteMultipartUpload Demo.envX Demo.store3 "b" "k" "U1"
              [Demo.cp 1 Demo.etag_abc; Demo.cp 2 Demo.etag_hello]))
      "b" "k" "U1"
    = (fst (CompleteMultipartUpload Demo.envX Demo.store3 "b" "k" "U1"
              [Demo.cp 1 Demo.etag_abc; Demo.cp 2 Demo.etag_hello]),
       Some (InvalidUploadID "U1")).
Proof.
  apply (CompleteMultipartUpload_retires_upload Demo.envX Demo.store3 _
           "b" "k" "U1" [Demo.cp 1 Demo.etag_abc; Demo.cp 2 Demo.etag_hello]
           "113397061527a63699347916f179e1b8-2").
  vm_compute. reflexivity.
Defined.

(** ** The record of the committed object *)

(** The sizes of parts, added up as the loop does and as integers. *)
Definition addSizes (sz : Z) (ps : list objectPartInfo) : Z :=
  foldl (λ acc p, wrap64 (acc + Size p)) sz ps.

Definition sumSizes (ps : list objectPartInfo) : Z :=
  foldr (λ p acc, Size p + acc) 0 ps.

Lemma sumSizes_nonneg (ps : list objectPartInfo) :
  Forall (λ p, 0 ≤ Size p) ps → 0 ≤ sumSizes ps.
Proof.
  induction 1 as [|p ps Hp _ IH]; [done|].
  change (0 ≤ Size p + sumSizes ps). lia.
Qed.

Lemma addSizes_sum (ps : list objectPartInfo) :
  ∀ sz, 0 ≤ sz → Forall (λ p, 0 ≤ Size p) ps → sz + sumSizes ps < 2 ^ 63 →
        addSizes sz ps = sz + sumSizes ps.
Proof.
  induction ps as [|p ps IH]; intros sz Hsz Hpos Hlt.
  - change (sz = sz + 0). lia.
  - apply Forall_cons in Hpos as [Hp Hps].
    pose proof (sumSizes_nonneg ps Hps) as Hsum.
    change (sumSizes (p :: ps)) with (Size p + sumSizes ps) in *.
    change (addSizes sz (p :: ps)) with (addSizes (wrap64 (sz + Size p)) ps).
    rewrite wrap64_small by lia. rewrite IH by (done || lia). lia.
Qed.

Lemma validateParts_Ok_size (m : xlMetaV1) (len : Z) (parts : list completePart) :
  ∀ (i sz : Z) (acc : list objectPartInfo) (r : Z * list objectPartInfo),
    validateParts m len i parts sz acc = Ok r →
    ∃ sel, Forall2 (λ q cur, storedPart m (cp_PartNumber q) = Some cur
                             ∧ ETag cur = cp_ETag q) parts sel
           ∧ snd r = acc ++ zip_with newPart parts sel
           ∧ fst r = addSizes sz sel.
Proof.
  induction parts as [|q parts IH]; intros i sz acc r.
  - cbn. intros [= <-]. exists []. split; [constructor|]. cbn.
    by rewrite app_nil_r.
  - intros (cur & Hcur & Hetag & _ & Hrest)%validateParts_cons_inv.
    destruct (IH _ _ _ _ Hrest) as (sel & Hsel & Hacc & Hsize).
    exists (cur :: sel). split; [by constructor|]. split; [|done].
    rewrite Hacc, <-app_assoc. reflexivity.
Qed.

(** X10.  The xl.json of the object a successful CompleteMultipartUpload
    commits: one entry per client part, in the client's order, each with
    the client's number and ETag, the name object<number> and the size
    recorded for the stored part of that number; the object size is the
    sum of these recorded sizes, added in 64-bit arithmetic (the plain sum
    when the sizes are not negative and the sum is below 2^63); the
    modification time is the time of the call; the version is the one of
    the upload's record; the metadata are those of the upload with md5Sum
    set to the returned ETag. *)
Theorem CompleteMultipartUpload_object_record (e : env) (s s' : store)
    (bucket object uploadID : string) (parts : list completePart) (tag : string) :
  CompleteMultipartUpload e s bucket object uploadID parts = (s', Ok tag) →
  ∃ m m' sel,
    metaAt s (UploadDir bucket object uploadID) = Some m
    ∧ metaAt s' (ObjectDir bucket object) = Some m'
    ∧ Forall2 (λ q cur, storedPart m (cp_PartNumber q) = Some cur
                        ∧ ETag cur = cp_ETag q) parts sel
    ∧ Parts m' = zip_with newPart parts sel
    ∧ st_Size (Stat m') = addSizes 0 sel
    ∧ (Forall (λ p, 0 ≤ Size p) sel → sumSizes sel < 2 ^ 63 →
       st_Size (Stat m') = sumSizes sel)
    ∧ st_ModTime (Stat m') = now e
    ∧ st_Version (Stat m') = st_Version (Stat m)
    ∧ Meta m' = <["md5Sum" := tag]> (Meta m).
Proof.
  intros (s1 & Hcommit & Hsame)%CompleteMultipartUpload_Ok.
  apply completeCommit_object in Hcommit
    as (m & d0 & objectSize & newParts & s4 & s5 & xl & Hd0 & Hm & Hval & Hstat
        & Hmeta & Hparts & _ & _ & Hobj).
  apply validateParts_Ok_size in Hval as (sel & Hsel & Hnew & Hsize).
  cbn [fst snd app] in Hnew, Hsize.
  exists m, xl, sel. unfold metaAt. rewrite Hd0, Hsame, Hobj by done.
  cbn [xlJSON]. rewrite Hstat, Hmeta, Hparts. cbn [st_Size st_ModTime st_Version].
  split_and!; try done.
  intros Hpos Hlt. rewrite Hsize. rewrite addSizes_sum by (done || lia). lia.
Qed.

Lemma CompleteMultipartUpload_object_record_witness :
  ∃ m m' sel,
    metaAt Demo.store3 (UploadDir "b" "k" "U1") = Some m
    ∧ metaAt (fst (CompleteMultipartUpload Demo.envX Demo.store3 "b" "k" "U1"
                     [Demo.cp 1 Demo.etag_abc; Demo.cp 2 Demo.etag_hello]))
        (ObjectDir "b" "k") = Some m'
    ∧ Forall2 (λ q cur, storedPart m (cp_PartNumber q) = Some cur
                        ∧ ETag cur = cp_ETag q)
        [Demo.cp 1 Demo.etag_abc; Demo.cp 2 Demo.etag_hello] sel
    ∧ Parts m' = zip_with newPart
                   [Demo.cp 1 Demo.etag_abc; Demo.cp 2 Demo.etag_hello] sel
    ∧ st_Size (Stat m') = addSizes 0 sel
    ∧ (Forall (λ p, 0 ≤ Size p) sel → sumSizes sel < 2 ^ 63 →
       st_Size (Stat m') = sumSizes sel)
    ∧ st_ModTime (Stat m') = now Demo.envX
    ∧ st_Version (Stat m') = st_Version (Stat m)
    ∧ Meta m' = <["md5Sum" := "113397061527a63699347916f179e1b8-2"]> (Meta m).
Proof.
  apply (CompleteMultipartUpload_object_record Demo.envX Demo.store3 _
           "b" "k" "U1" [Demo.cp 1 Demo.etag_abc; Demo.cp 2 Demo.etag_hello]
           "113397061527a63699347916f179e1b8-2").
  vm_compute. reflexivity.
Defined.

(** The object of the example: 6 MiB declared for part 1 and 11 bytes for
    part 2 make an object of 6291467 bytes. *)
Example CompleteMultipartUpload_object_size :
  (λ m, (st_Size (Stat m), Size <$> Parts m))
    <$> metaAt (fst (CompleteMultipartUpload Demo.envX Demo.store3 "b" "k" "U1"
                       [Demo.cp 1 Demo.etag_abc; Demo.cp 2 Demo.etag_hello]))
          (ObjectDir "b" "k")
  = Some (6291467, [6291456; 11]).
Proof. vm_compute. reflexivity. Qed.

(** ** Completion when no primitive fails *)

Lemma writeMeta_no_fault (p : prim) (e : env) (dir : path) (m : xlMetaV1)
    (s : store) :
  fault e p dir = None → snd (writeMeta p e dir m s) = None.
Proof. unfold writeMeta. by intros ->. Qed.

Lemma renameObject_no_fault (e : env) (src dst : path) (s : store) :
  fault e p_renameObject src = None → snd (renameObject e src dst s) = None.
Proof. unfold renameObject. intros ->. by destruct (getDir s src). Qed.

Lemma renameXLMetadata_staged (p : prim) (e : env) (src dst : path) (m : xlMetaV1)
    (s s1 : store) :
  (∀ b o, src ≠ MultipartDir b o) →
  writeMeta p e src m s = (s1, None) →
  fault e p_renameXLMetadata dst = None →
  snd (renameXLMetadata e src dst s1) = None.
Proof.
  intros Hsrc [[fs Hstaged] _]%writeMeta_Ok Hfault; [|done].
  unfold renameXLMetadata. by rewrite Hfault, Hstaged.
Qed.

Lemma completeCommit_runs (e : env) (s : store) (bucket object uploadID : string)
    (parts : list completePart) (m : xlMetaV1) (tag : string)
    (r : Z * list objectPartInfo) :
  nameCheck e s bucket object = None →
  readAllXLMetadata e s (UploadDir bucket object uploadID) = Ok m →
  completeMultipartMD5 parts = Ok tag →
  validateParts m (Z.of_nat (length parts)) 0 parts 0 [] = Ok r →
  parentDirIsObject s bucket object = false →
  (∀ p t, fault e p t = None) →
  snd (completeCommit e s bucket object uploadID parts) = Ok tag.
Proof.
  intros (Hb & Hbe & Ho)%nameCheck_None Hread Hmd5 Hval Hparent Hfault.
  pose proof (readMeta_Ok _ _ _ _ _ Hread) as [Hex _].
  unfold completeCommit, isUploadIDExists.
  rewrite Hb, Hbe, Ho, Hex, Hmd5, Hread, Hval. destruct r as [objectSize newParts].
  rewrite Hparent. cbn [negb].
  destruct (writeUniqueXLMetadata _ _ _ _) as [sa ra] eqn:Hw.
  pose proof (writeMeta_no_fault p_writeUniqueXLMetadata e (TmpDir uploadID)
                {| Stat := {| st_Size := objectSize; st_ModTime := now e;
                              st_Version := st_Version (Stat m) |};
                   Meta := <["md5Sum" := tag]> (Meta m); Parts := newParts |}
                s (Hfault _ _)) as Hra.
  unfold writeUniqueXLMetadata in Hw. rewrite Hw in Hra. cbn [snd] in Hra.
  subst ra.
  destruct (renameXLMetadata _ _ _ sa) as [sb rb] eqn:Hr.
  pose proof (renameXLMetadata_staged _ e (TmpDir uploadID)
                (UploadDir bucket object uploadID) _ s sa ltac:(done) Hw
                (Hfault _ _)) as Hrb.
  rewrite Hr in Hrb. cbn [snd] in Hrb. subst rb.
  destruct (renameObject e (ObjectDir bucket object) _ sb) as [sc rc] eqn:Ha.
  pose proof (renameObject_no_fault e (ObjectDir bucket object)
                (TmpDir (getUUID e)) sb (Hfault _ _)) as Hrc.
  rewrite Ha in Hrc. cbn [snd] in Hrc. subst rc.
  destruct (renameObject e (UploadDir bucket object uploadID) _ _)
    as [sd rd] eqn:Hc.
  match type of Hc with
  | renameObject _ _ _ ?s4 = _ =>
      pose proof (renameObject_no_fault e (UploadDir bucket object uploadID)
                    (ObjectDir bucket object) s4 (Hfault _ _)) as Hrd
  end.
  rewrite Hc in Hrd. cbn [snd] in Hrd. by subst rd.
Qed.

Lemma CompleteMultipartUpload_tail_runs (e : env) (s : store)
    (bucket object uploadID : string) (parts : list completePart) (tag : string) :
  snd (completeCommit e s bucket object uploadID parts) = Ok tag →
  (∀ p t, fault e p t = None) →
  snd (CompleteMultipartUpload e s bucket object uploadID parts) = Ok tag.
Proof.
  intros Hcommit Hfault. unfold CompleteMultipartUpload.
  destruct (completeCommit e s bucket object uploadID parts) as [s1 r].
  cbn [snd] in Hcommit. subst r.
  unfold readUploadsJSON, updateUploadsJSON, deleteObject. rewrite !Hfault.
  destruct (getUploadsJSON s1 bucket object); [case_decide|]; done.
Qed.

Lemma completeCommit_Err_no_fault (e : env) (s s1 : store)
    (bucket object uploadID : string) (parts : list completePart) (err : error) :
  completeCommit e s bucket object uploadID parts = (s1, Err err) →
  (∀ p t, fault e p t = None) → s1 = s.
Proof.
  intros Hres Hfault. unfold completeCommit in Hres.
  destruct (negb (IsValidBucketName e bucket)) eqn:Hb; [by injection Hres|].
  destruct (negb (isBucketExist s bucket)) eqn:Hbe; [by injection Hres|].
  destruct (negb (IsValidObjectName e object)) eqn:Ho; [by injection Hres|].
  destruct (negb (isUploadIDExists s bucket object uploadID)) eqn:Hex;
    [by injection Hres|].
  destruct (completeMultipartMD5 parts) as [tag|] eqn:Hmd5; [|by injection Hres].
  destruct (readAllXLMetadata e s _) as [m|] eqn:Hread; [|by injection Hres].
  destruct (validateParts m _ 0 parts 0 []) as [r|] eqn:Hval;
    [|by injection Hres].
  destruct (parentDirIsObject s bucket object) eqn:Hparent;
    [destruct r; by injection Hres|].
  exfalso.
  assert (nameCheck e s bucket object = None) as Hnames.
  { unfold nameCheck. by rewrite Hb, Hbe, Ho. }
  pose proof (completeCommit_runs e s bucket object uploadID parts m tag r
                Hnames Hread Hmd5 Hval Hparent Hfault) as Hruns.
  unfold completeCommit in Hruns.
  rewrite Hb, Hbe, Ho, Hex, Hmd5, Hread, Hval in Hruns. destruct r.
  rewrite Hparent in Hruns. rewrite Hres in Hruns. done.
Qed.

(** X11.  When no storage primitive fails, a CompleteMultipartUpload that
    returns an error has changed nothing: whatever the reason (names, an
    unknown upload, an ETag that is not hexadecimal, a part that is
    missing, has another ETag or is too small, a parent directory that is
    an object), the upload and its parts are as before and the call can be
    made again. *)
Theorem CompleteMultipartUpload_error_changes_nothing (e : env) (s s' : store)
    (bucket object uploadID : string) (parts : list completePart) (err : error) :
  (∀ p t, fault e p t = None) →
  CompleteMultipartUpload e s bucket object uploadID parts = (s', Err err) →
  s' = s.
Proof.
  intros Hfault Hres.
  destruct (completeCommit e s bucket object uploadID parts) as [s1 [tag|err1]]
    eqn:Hcommit.
  - pose proof (CompleteMultipartUpload_tail_runs e s bucket object uploadID parts
                  tag) as Hruns.
    rewrite Hcommit, Hres in Hruns. by specialize (Hruns eq_refl Hfault).
  - unfold CompleteMultipartUpload in Hres. rewrite Hcommit in Hres.
    injection Hres as <- <-. by eapply completeCommit_Err_no_fault.
Qed.

Lemma CompleteMultipartUpload_error_changes_nothing_witness :
  fst (CompleteMultipartUpload Demo.envX Demo.store3 "b" "k" "U1"
         [Demo.cp 2 Demo.etag_hello; Demo.cp 1 Demo.etag_abc])
  = Demo.store3.
Proof.
  apply (CompleteMultipartUpload_error_changes_nothing Demo.envX Demo.store3 _
           "b" "k" "U1" [Demo.cp 2 Demo.etag_hello; Demo.cp 1 Demo.etag_abc]
           PartTooSmall).
  - intros p t. reflexivity.
  - vm_compute. reflexivity.
Defined.

(** ** A part, then the completion *)

Lemma insert_first_match (n : Z) (new : objectPartInfo) (ps : list objectPartInfo) :
  Number new = n →
  ∀ i, 0 ≤ i → partIndexFrom i ps n ≠ -1 →
       head (filter (λ q, Number q = n)
               (<[Z.to_nat (partIndexFrom i ps n - i) := new]> ps))
       = Some new.
Proof.
  intros Hnew. induction ps as [|p ps IH]; intros i Hi; cbn [partIndexFrom];
    [done|].
  destruct (decide (n = Number p)) as [Hn|Hn]; intros Hidx.
  - rewrite Z.sub_diag. change (Z.to_nat 0) with 0%nat. cbn [insert list_insert].
    by rewrite filter_cons_True.
  - pose proof (partIndexFrom_range (i + 1) ps n ltac:(lia)) as [?|?]; [done|].
    replace (Z.to_nat (partIndexFrom (i + 1) ps n - i))
      with (S (Z.to_nat (partIndexFrom (i + 1) ps n - (i + 1)))) by lia.
    cbn [insert list_insert]. rewrite filter_cons_False by congruence.
    apply IH; [lia|done].
Qed.

(** The entry AddObjectPart writes is the one a search for its number
    finds. *)
Lemma AddObjectPart_stored (m : xlMetaV1) (n : Z) (name etag : string) (size : Z) :
  storedPart (AddObjectPart m n name etag size) n
  = Some {| Number := n; Name := name; ETag := etag; Size := size |}.
Proof.
  rewrite storedPart_spec. unfold AddObjectPart. cbn [Parts].
  case_decide as Hidx.
  - unfold ObjectPartIndex in Hidx. apply partIndexFrom_none in Hidx; [|lia].
    set (new := {| Number := n; Name := name; ETag := etag; Size := size |}).
    assert (filter (λ q, Number q = n) (Parts m ++ [new]) = [new]) as Hf.
    { rewrite filter_app, filter_cons_True, filter_nil by done.
      destruct (filter _ (Parts m)) as [|q ?] eqn:Hq; [done|]. exfalso.
      assert (q ∈ filter (λ q, Number q = n) (Parts m)) as Hin
        by (rewrite Hq; apply list_elem_of_here).
      apply list_elem_of_filter in Hin as [<- Hin].
      apply Hidx, list_elem_of_fmap. eauto. }
    assert (filter (λ q, Number q = n) (merge_sort partLe (Parts m ++ [new]))
            ≡ₚ [new]) as Hperm.
    { rewrite (merge_sort_Permutation partLe). by rewrite Hf. }
    apply Permutation_singleton_r in Hperm. by rewrite Hperm.
  - pose proof (insert_first_match n
                  {| Number := n; Name := name; ETag := etag; Size := size |}
                  (Parts m) eq_refl 0 ltac:(lia) Hidx) as Hhd.
    by rewrite Z.sub_0_r in Hhd.
Qed.

Lemma storedPart_Parts (m1 m2 : xlMetaV1) (n : Z) :
  Parts m1 = Parts m2 → storedPart m1 n = storedPart m2 n.
Proof. intros Heq. unfold storedPart, ObjectPartIndex. by rewrite Heq. Qed.

(** X12.  A part and then the completion, with no primitive failing: the
    upload completed with the single part just stored, under the ETag
    PutObjectPart returned, succeeds whatever the size of the part (the
    5 MiB minimum is not applied to the last part); the ETag of the object
    is the hexadecimal MD5 of the MD5 of the streamed bytes followed by
    -1, and the object is recorded with that one part and with the size
    declared to PutObjectPart. *)
Theorem putObjectPart_then_complete (e : env) (s s' : store)
    (bucket object uploadID : string) (partID size : Z) (data : Reader)
    (md5Hex etag : string) :
  (∀ p t, fault e p t = None) →
  putObjectPart e s bucket object uploadID partID size data md5Hex
  = Some (s', Ok etag) →
  parentDirIsObject s' bucket object = false →
  ∃ s'' m'',
    CompleteMultipartUpload e s' bucket object uploadID
      [{| cp_PartNumber := partID; cp_ETag := etag |}]
    = (s'', Ok (Hex.EncodeToString (MD5.sum (MD5.sum (rd_data data))) +:+ "-1"))
    ∧ metaAt s'' (ObjectDir bucket object) = Some m''
    ∧ Parts m'' = [{| Number := partID; Name := partSuffixOf partID;
                      ETag := etag; Size := size |}]
    ∧ st_Size (Stat m'') = wrap64 size.
Proof.
  intros Hfault Hput Hparent.
  pose proof (putObjectPart_Ok_names _ _ _ _ _ _ _ _ _ _ _ Hput)
    as (Hb & Ho & Hbe).
  apply putObjectPart_Ok in Hput as (xlMeta & fs & _ & Hetag & _ & _ & Hd').
  set (m1 := {| Stat := Stat xlMeta; Meta := Meta xlMeta;
                Parts := Parts (AddObjectPart xlMeta partID (partSuffixOf partID)
                                  etag size) |}) in *.
  set (q := {| cp_PartNumber := partID; cp_ETag := etag |}).
  set (cur := {| Number := partID; Name := partSuffixOf partID; ETag := etag;
                 Size := size |}).
  assert (storedPart m1 partID = Some cur) as Hstored.
  { rewrite (storedPart_Parts m1 (AddObjectPart xlMeta partID
                                    (partSuffixOf partID) etag size)) by done.
    apply AddObjectPart_stored. }
  assert (readAllXLMetadata e s' (UploadDir bucket object uploadID) = Ok m1)
    as Hread.
  { unfold readAllXLMetadata, readMeta. by rewrite Hfault, Hd'. }
  assert (validateParts m1 (Z.of_nat (length [q])) 0 [q] 0 []
          = Ok (wrap64 size, [newPart q cur])) as Hval.
  { rewrite (validateParts_cons_ok m1 _ 0 q [] 0 [] cur Hstored eq_refl)
      by (cbn; lia).
    reflexivity. }
  assert (completeMultipartMD5 [q]
          = Ok (Hex.EncodeToString (MD5.sum (MD5.sum (rd_data data))) +:+ "-1"))
    as Hmd5.
  { unfold completeMultipartMD5. cbn [mapM cp_ETag q]. rewrite Hetag at 1.
    rewrite hex_roundtrip. cbn [mbind option_bind mret option_ret concat].
    by rewrite app_nil_r. }
  assert (nameCheck e s' bucket object = None) as Hnames.
  { unfold nameCheck. by rewrite Hb, Hbe, Ho. }
  pose proof (completeCommit_runs e s' bucket object uploadID [q] m1 _ _
                Hnames Hread Hmd5 Hval Hparent Hfault) as Hcommit.
  pose proof (CompleteMultipartUpload_tail_runs e s' bucket object uploadID [q] _
                Hcommit Hfault) as Hruns.
  destruct (CompleteMultipartUpload e s' bucket object uploadID [q])
    as [s'' r] eqn:Hres.
  cbn [snd] in Hruns. subst r.
  pose proof Hres as (s1 & Hc & Hsame)%CompleteMultipartUpload_Ok.
  apply completeCommit_object in Hc
    as (m & d0 & objectSize & newParts & s4 & s5 & xl & Hd0 & Hm & Hval' & Hstat
        & _ & Hparts & _ & _ & Hobj).
  rewrite Hd' in Hd0. injection Hd0 as <-. cbn [xlJSON] in Hm.
  injection Hm as <-. rewrite Hval in Hval'. injection Hval' as <- <-.
  exists s'', xl. unfold metaAt. rewrite Hsame, Hobj by done. cbn [xlJSON].
  by rewrite Hstat, Hparts.
Qed.

Lemma putObjectPart_then_complete_witness :
  ∃ s'' m'',
    CompleteMultipartUpload Demo.envX
      (Demo.afterPut Demo.store1
         (putObjectPart Demo.envX Demo.store1 "b" "k" "U1" 1 3
            (Demo.reader "abc") ""))
      "b" "k" "U1" [{| cp_PartNumber := 1; cp_ETag := Demo.etag_abc |}]
    = (s'', Ok (Hex.EncodeToString
                  (MD5.sum (MD5.sum (rd_data (Demo.reader "abc")))) +:+ "-1"))
    ∧ metaAt s'' (ObjectDir "b" "k") = Some m''
    ∧ Parts m'' = [{| Number := 1; Name := partSuffixOf 1;
                      ETag := Demo.etag_abc; Size := 3 |}]
    ∧ st_Size (Stat m'') = wrap64 3.
Proof.
  apply (putObjectPart_then_complete Demo.envX Demo.store1 _ "b" "k" "U1" 1 3
           (Demo.reader "abc") "" Demo.etag_abc).
  - intros p t. reflexivity.
  - vm_compute. reflexivity.
  - vm_compute. reflexivity.
Defined.

(** X13.  An ETag that PutObjectPart did not return for the stored part is
    refused: after a successful PutObjectPart of part n, a completion
    whose first part is n with another ETag (a hexadecimal one, as all the
    ETags of the request must be) fails BadDigest and changes nothing,
    whatever follows in the request. *)
Theorem stale_etag_is_refused (e : env) (s s' : store)
    (bucket object uploadID : string) (partID size : Z) (data : Reader)
    (md5Hex etag old tag : string) (rest : list completePart) :
  putObjectPart e s bucket object uploadID partID size data md5Hex
  = Some (s', Ok etag) →
  old ≠ etag →
  completeMultipartMD5 ({| cp_PartNumber := partID; cp_ETag := old |} :: rest)
  = Ok tag →
  CompleteMultipartUpload e s' bucket object uploadID
    ({| cp_PartNumber := partID; cp_ETag := old |} :: rest)
  = (s', Err (BadDigest "" "")).
Proof.
  intros Hput Hold Hmd5.
  pose proof (putObjectPart_Ok_names _ _ _ _ _ _ _ _ _ _ _ Hput)
    as (Hb & Ho & Hbe).
  apply putObjectPart_Ok in Hput as (xlMeta & fs & Hread0 & _ & _ & _ & Hd').
  assert (fault e p_readAllXLMetadata (UploadDir bucket object uploadID) = None)
    as Hfault.
  { unfold readAllXLMetadata, readMeta in Hread0. by destruct (fault e _ _). }
  set (m1 := {| Stat := Stat xlMeta; Meta := Meta xlMeta;
                Parts := Parts (AddObjectPart xlMeta partID (partSuffixOf partID)
                                  etag size) |}) in *.
  assert (storedPart m1 partID
          = Some {| Number := partID; Name := partSuffixOf partID; ETag := etag;
                    Size := size |}) as Hstored.
  { rewrite (storedPart_Parts m1 (AddObjectPart xlMeta partID
                                    (partSuffixOf partID) etag size)) by done.
    apply AddObjectPart_stored. }
  apply storedPart_lookup_total in Hstored as (Hidx & Hlook & _).
  unfold CompleteMultipartUpload, completeCommit, isUploadIDExists, isObject,
    readAllXLMetadata, readMeta.
  rewrite Hb, Hbe, Ho, Hd', Hmd5, Hfault.
  cbn [negb xlJSON validateParts cp_PartNumber cp_ETag].
  rewrite decide_False by done. rewrite Hlook. cbn [ETag].
  by rewrite decide_True by done.
Qed.

Lemma stale_etag_is_refused_witness :
  CompleteMultipartUpload Demo.envX
    (Demo.afterPut Demo.store2
       (putObjectPart Demo.envX Demo.store2 "b" "k" "U1" 1 3
          (Demo.reader "xyz") ""))
    "b" "k" "U1" [{| cp_PartNumber := 1; cp_ETag := Demo.etag_abc |}]
  = (Demo.afterPut Demo.store2
       (putObjectPart Demo.envX Demo.store2 "b" "k" "U1" 1 3
          (Demo.reader "xyz") ""),
     Err (BadDigest "" "")).
Proof.
  apply (stale_etag_is_refused Demo.envX Demo.store2 _ "b" "k" "U1" 1 3
           (Demo.reader "xyz") "" Demo.etag_xyz Demo.etag_abc
           "af5da9f45af7a300e3aded972f8ff687-1" []).
  - vm_compute. reflexivity.
  - done.
  - vm_compute. reflexivity.
Defined.

(** ** The upload leaves uploads.json *)

(** What the two operations leave of uploads.json: the entries of the
    other upload IDs. *)
Lemma removeUpload_filter (u : uploadsV1) (uploadID : string) :
  NoDup (UploadID <$> Uploads u) →
  Uploads (if decide (uploads_Index u uploadID ≠ -1)
           then removeUpload u (uploads_Index u uploadID) else u)
  = filter (λ x, UploadID x ≠ uploadID) (Uploads u).
Proof.
  intros Hnd. unfold uploads_Index, removeUpload.
  destruct (uploadIndexFrom_remove (Uploads u) uploadID Hnd 0 ltac:(lia))
    as [[Hidx Hf]|[Hle Hf]].
  - rewrite Hidx. by rewrite decide_False by (intros H; by apply H).
  - rewrite Z.sub_0_r in Hf. rewrite decide_True by lia. cbn [Uploads].
    replace (Z.to_nat (uploadIndexFrom 0 (Uploads u) uploadID + 1))
      with (S (Z.to_nat (uploadIndexFrom 0 (Uploads u) uploadID))) by lia.
    done.
Qed.

Lemma getUploadsJSON_removeDir_multipart (b o : string) (s : store) :
  getUploadsJSON (removeDir (MultipartDir b o) s) b o = None.
Proof. unfold getUploadsJSON. by rewrite multipart_removeDir_eq. Qed.

(** X14.  After a successful CompleteMultipartUpload whose read of
    uploads.json was not failed by a disk, with the upload IDs of
    uploads.json distinct: uploads.json lists the other upload IDs of the
    object, in their order; when there are some their directories are
    untouched, and when there is none the multipart directory of the object
    is removed. *)
Theorem CompleteMultipartUpload_unregisters (e : env) (s s' : store)
    (bucket object uploadID : string) (parts : list completePart) (tag : string) :
  CompleteMultipartUpload e s bucket object uploadID parts = (s', Ok tag) →
  fault e p_readUploadsJSON (MultipartDir bucket object) = None →
  NoDup (UploadID <$> uploadsOf s bucket object) →
  uploadsOf s' bucket object
  = filter (λ x, UploadID x ≠ uploadID) (uploadsOf s bucket object)
  ∧ (filter (λ x, UploadID x ≠ uploadID) (uploadsOf s bucket object) ≠ [] →
     ∀ id, id ≠ uploadID →
           getDir s' (UploadDir bucket object id)
           = getDir s (UploadDir bucket object id))
  ∧ (filter (λ x, UploadID x ≠ uploadID) (uploadsOf s bucket object) = [] →
     multipart s' !! (bucket, object) = None).
Proof.
  intros Hres Hfault Hnd. unfold CompleteMultipartUpload in Hres.
  destruct (completeCommit e s bucket object uploadID parts) as [s1 [tag'|]]
    eqn:Hcommit; [|done].
  apply completeCommit_same in Hcommit as (_ & Hu & Hd).
  assert (∀ id, id ≠ uploadID →
                getDir s1 (UploadDir bucket object id)
                = getDir s (UploadDir bucket object id)) as Hother.
  { intros id Hid. apply Hd. unfold completePaths.
    intros [?|[?|[?|?]]]; congruence. }
  assert (∀ x, match deleteObject e (MultipartDir bucket object) s1 with
               | (s2, Some err) =>
                   (s2, Err (toObjectErr err minioMetaBucket
                               (pathName (MultipartDir bucket object))))
               | (s2, None) => (s2, Ok tag')
               end = x → x = (s', Ok tag) →
               uploadsOf s' bucket object = []
               ∧ multipart s' !! (bucket, object) = None) as Hdel.
  { intros x <-. unfold deleteObject. destruct (fault e p_deleteObject _); [done|].
    intros Hx. apply (f_equal fst) in Hx. cbn [fst] in Hx. subst s'.
    unfold uploadsOf. rewrite getUploadsJSON_removeDir_multipart.
    split; [done|]. apply multipart_removeDir_eq. }
  unfold readUploadsJSON in Hres. rewrite Hfault, Hu in Hres.
  unfold uploadsOf in *.
  destruct (getUploadsJSON s bucket object) as [u|] eqn:Hgu.
  - pose proof (removeUpload_filter u uploadID Hnd) as Hothers.
    set (u' := if decide (uploads_Index u uploadID ≠ -1)
               then removeUpload u (uploads_Index u uploadID) else u) in *.
    destruct (decide (0 < length (Uploads u'))%nat) as [Hlen|Hlen].
    + unfold updateUploadsJSON in Hres.
      destruct (fault e p_updateUploadsJSON _); [done|].
      injection Hres as <- <-.
      rewrite getUploadsJSON_setUploadsJSON, decide_True by done.
      split_and!; [done| |].
      * intros _ id Hid. rewrite getDir_setUploadsJSON. by apply Hother.
      * intros Hnil. rewrite Hothers, Hnil in Hlen. cbn in Hlen. lia.
    + destruct (Hdel _ eq_refl Hres) as [-> Hgone].
      assert (Uploads u' = []) as Hnil by (destruct (Uploads u'); [done|cbn in Hlen; lia]).
      rewrite <-Hothers, Hnil. done.
  - destruct (Hdel _ eq_refl Hres) as [-> Hgone]. done.
Qed.

Lemma CompleteMultipartUpload_unregisters_witness :
  uploadsOf (fst (CompleteMultipartUpload Demo.envX Demo.storeTwo "b" "k" "U1"
                    [Demo.cp 1 Demo.etag_abc])) "b" "k"
  = filter (λ x, UploadID x ≠ "U1") (uploadsOf Demo.storeTwo "b" "k")
  ∧ (filter (λ x, UploadID x ≠ "U1") (uploadsOf Demo.storeTwo "b" "k") ≠ [] →
     ∀ id, id ≠ "U1" →
           getDir (fst (CompleteMultipartUpload Demo.envX Demo.storeTwo "b" "k"
                          "U1" [Demo.cp 1 Demo.etag_abc]))
             (UploadDir "b" "k" id)
           = getDir Demo.storeTwo (UploadDir "b" "k" id))
  ∧ (filter (λ x, UploadID x ≠ "U1") (uploadsOf Demo.storeTwo "b" "k") = [] →
     multipart (fst (CompleteMultipartUpload Demo.envX Demo.storeTwo "b" "k" "U1"
                       [Demo.cp 1 Demo.etag_abc])) !! ("b", "k") = None).
Proof.
  apply (CompleteMultipartUpload_unregisters Demo.envX Demo.storeTwo _
           "b" "k" "U1" [Demo.cp 1 Demo.etag_abc]
           "af5da9f45af7a300e3aded972f8ff687-1").
  - vm_compute. reflexivity.
  - reflexivity.
  - eapply (bool_decide_unpack (NoDup _)). vm_compute. exact I.
Defined.

(** X15.  CompleteMultipartUpload is not undone by a late failure: when
    everything up to the commit (lines 320-455) has gone through and the
    rewrite of uploads.json then fails, with another upload of the object
    registered, the call returns that error although the object is in
    place under its new ETag and the upload directory is gone; uploads.json
    still lists the upload ID. *)
Theorem CompleteMultipartUpload_error_after_commit (e : env) (s s1 : store)
    (bucket object uploadID : string) (parts : list completePart) (tag : string)
    (u : uploadsV1) (err : error) :
  completeCommit e s bucket object uploadID parts = (s1, Ok tag) →
  fault e p_readUploadsJSON (MultipartDir bucket object) = None →
  getUploadsJSON s bucket object = Some u →
  NoDup (UploadID <$> Uploads u) →
  filter (λ x, UploadID x ≠ uploadID) (Uploads u) ≠ [] →
  fault e p_updateUploadsJSON (MultipartDir bucket object) = Some err →
  CompleteMultipartUpload e s bucket object uploadID parts = (s1, Err err)
  ∧ (∃ m', metaAt s1 (ObjectDir bucket object) = Some m'
           ∧ Meta m' !! "md5Sum" = Some tag)
  ∧ getDir s1 (UploadDir bucket object uploadID) = None
  ∧ getUploadsJSON s1 bucket object = Some u.
Proof.
  intros Hcommit Hfr Hgu Hnd Hothers Hfu.
  pose proof (completeCommit_same _ _ _ _ _ _ _ _ Hcommit) as (_ & Hu & _).
  pose proof (completeCommit_retires _ _ _ _ _ _ _ _ Hcommit) as Hgone.
  pose proof (completeCommit_object _ _ _ _ _ _ _ _ Hcommit)
    as (m & d0 & objectSize & newParts & s4 & s5 & xl & _ & _ & _ & _ & Hmeta
        & _ & _ & _ & Hobj).
  split_and!.
  - unfold CompleteMultipartUpload, readUploadsJSON, updateUploadsJSON.
    rewrite Hcommit, Hfr, Hu, Hgu, Hfu.
    rewrite decide_True; [done|].
    rewrite (removeUpload_filter u uploadID Hnd).
    destruct (filter _ (Uploads u)); [done|cbn; lia].
  - exists xl. unfold metaAt. rewrite Hobj. cbn [xlJSON]. split; [done|].
    rewrite Hmeta. apply lookup_insert_eq.
  - done.
  - by rewrite Hu.
Qed.

Lemma CompleteMultipartUpload_error_after_commit_witness :
  CompleteMultipartUpload
    (Demo.withFault p_updateUploadsJSON (MultipartDir "b" "k")
       (errDisk "disk offline") Demo.envX)
    Demo.storeTwo "b" "k" "U1" [Demo.cp 1 Demo.etag_abc]
  = (fst (completeCommit
            (Demo.withFault p_updateUploadsJSON (MultipartDir "b" "k")
               (errDisk "disk offline") Demo.envX)
            Demo.storeTwo "b" "k" "U1" [Demo.cp 1 Demo.etag_abc]),
     Err (errDisk "disk offline"))
  ∧ (∃ m', metaAt (fst (completeCommit
                          (Demo.withFault p_updateUploadsJSON
                             (MultipartDir "b" "k") (errDisk "disk offline")
                             Demo.envX)
                          Demo.storeTwo "b" "k" "U1" [Demo.cp 1 Demo.etag_abc]))
             (ObjectDir "b" "k") = Some m'
           ∧ Meta m' !! "md5Sum" = Some "af5da9f45af7a300e3aded972f8ff687-1")
  ∧ getDir (fst (completeCommit
                   (Demo.withFault p_updateUploadsJSON (MultipartDir "b" "k")
                      (errDisk "disk offline") Demo.envX)
                   Demo.storeTwo "b" "k" "U1" [Demo.cp 1 Demo.etag_abc]))
      (UploadDir "b" "k" "U1") = None
  ∧ getUploadsJSON (fst (completeCommit
                           (Demo.withFault p_updateUploadsJSON
                              (MultipartDir "b" "k") (errDisk "disk offline")
                              Demo.envX)
                           Demo.storeTwo "b" "k" "U1" [Demo.cp 1 Demo.etag_abc]))
      "b" "k"
    = Some (default {| Uploads := [] |} (getUploadsJSON Demo.storeTwo "b" "k")).
Proof.
  apply (CompleteMultipartUpload_error_after_commit
           (Demo.withFault p_updateUploadsJSON (MultipartDir "b" "k")
              (errDisk "disk offline") Demo.envX)
           Demo.storeTwo _ "b" "k" "U1" [Demo.cp 1 Demo.etag_abc]
           "af5da9f45af7a300e3aded972f8ff687-1"
           (default {| Uploads := [] |} (getUploadsJSON Demo.storeTwo "b" "k"))
           (errDisk "disk offline")).
  - vm_compute. reflexivity.
  - reflexivity.
  - vm_compute. reflexivity.
  - eapply (bool_decide_unpack (NoDup _)). vm_compute. exact I.
  - vm_compute. done.
  - reflexivity.
Defined.

(** ** Aborting an upload *)

(** X17.  AbortMultipartUpload is not undone by a late failure either:
    when the parts have been cleaned up and the rewrite of uploads.json
    then fails, with another upload of the object registered, the call
    returns that error; the upload directory is gone, uploads.json still
    lists the upload ID, and a second abort of that ID fails
    InvalidUploadID without touching uploads.json. *)
Theorem abortMultipartUpload_error_after_cleanup (e : env) (s : store)
    (bucket object uploadID : string) (u : uploadsV1) (err : error) :
  nameCheck e s bucket object = None →
  isUploadIDExists s bucket object uploadID = true →
  fault e p_cleanupUploadedParts (UploadDir bucket object uploadID) = None →
  fault e p_readUploadsJSON (MultipartDir bucket object) = None →
  getUploadsJSON s bucket object = Some u →
  NoDup (UploadID <$> Uploads u) →
  filter (λ x, UploadID x ≠ uploadID) (Uploads u) ≠ [] →
  fault e p_updateUploadsJSON (MultipartDir bucket object) = Some err →
  ∃ s', abortMultipartUpload e s bucket object uploadID
        = (s', Some (toObjectErr err bucket object))
        ∧ getDir s' (UploadDir bucket object uploadID) = None
        ∧ getUploadsJSON s' bucket object = Some u
        ∧ abortMultipartUpload e s' bucket object uploadID
          = (s', Some (InvalidUploadID uploadID)).
Proof.
  intros (Hb & Hbe & Ho)%nameCheck_None Hex Hfc Hfr Hgu Hnd Hothers Hfu.
  exists (removeDir (UploadDir bucket object uploadID) s).
  assert (getUploadsJSON (removeDir (UploadDir bucket object uploadID) s)
            bucket object = Some u) as Hgu1.
  { by rewrite getUploadsJSON_removeDir. }
  split_and!.
  - unfold abortMultipartUpload, cleanupUploadedParts, readUploadsJSON,
      updateUploadsJSON.
    rewrite Hb, Hbe, Ho, Hex, Hfc, Hfr, Hgu1, Hfu. cbn [negb].
    rewrite decide_True; [done|].
    rewrite (removeUpload_filter u uploadID Hnd).
    destruct (filter _ (Uploads u)); [done|cbn; lia].
  - apply getDir_removeDir_eq.
  - done.
  - apply abortMultipartUpload_invalid; [done| |done|].
    + unfold isBucketExist in *. by rewrite buckets_removeDir.
    + apply isObject_None, getDir_removeDir_eq.
Qed.

Lemma abortMultipartUpload_error_after_cleanup_witness :
  ∃ s', abortMultipartUpload
          (Demo.withFault p_updateUploadsJSON (MultipartDir "b" "k")
             (errDisk "disk offline") Demo.env0)
          Demo.storeTwo "b" "k" "U1"
        = (s', Some (toObjectErr (errDisk "disk offline") "b" "k"))
        ∧ getDir s' (UploadDir "b" "k" "U1") = None
        ∧ getUploadsJSON s' "b" "k"
          = Some (default {| Uploads := [] |}
                    (getUploadsJSON Demo.storeTwo "b" "k"))
        ∧ abortMultipartUpload
            (Demo.withFault p_updateUploadsJSON (MultipartDir "b" "k")
               (errDisk "disk offline") Demo.env0)
            s' "b" "k" "U1"
          = (s', Some (InvalidUploadID "U1")).
Proof.
  apply (abortMultipartUpload_error_after_cleanup
           (Demo.withFault p_updateUploadsJSON (MultipartDir "b" "k")
              (errDisk "disk offline") Demo.env0)
           Demo.storeTwo "b" "k" "U1"
           (default {| Uploads := [] |} (getUploadsJSON Demo.storeTwo "b" "k"))
           (errDisk "disk offline")).
  - vm_compute. reflexivity.
  - vm_compute. reflexivity.
  - reflexivity.
  - reflexivity.
  - vm_compute. reflexivity.
  - eapply (bool_decide_unpack (NoDup _)). vm_compute. exact I.
  - vm_compute. done.
  - reflexivity.
Defined.

Lemma abortMultipartUpload_no_fault_witness :
  ∃ s', abortMultipartUpload Demo.env0 Demo.storeTwo "b" "k" "U1" = (s', None)
        ∧ isUploadIDExists s' "b" "k" "U1" = false
        ∧ (filter (λ x, UploadID x ≠ "U1")
             (Uploads (default {| Uploads := [] |}
                         (getUploadsJSON Demo.storeTwo "b" "k"))) ≠ [] →
           getUploadsJSON s' "b" "k"
           = Some {| Uploads :=
                       filter (λ x, UploadID x ≠ "U1")
                         (Uploads (default {| Uploads := [] |}
                                     (getUploadsJSON Demo.storeTwo "b" "k"))) |}
           ∧ ∀ id, id ≠ "U1" →
                   getDir s' (UploadDir "b" "k" id)
                   = getDir Demo.storeTwo (UploadDir "b" "k" id))
        ∧ (filter (λ x, UploadID x ≠ "U1")
             (Uploads (default {| Uploads := [] |}
                         (getUploadsJSON Demo.storeTwo "b" "k"))) = [] →
           multipart s' !! ("b", "k") = None).
Proof.
  apply (abortMultipartUpload_no_fault Demo.env0 Demo.storeTwo "b" "k" "U1"
           (default {| Uploads := [] |} (getUploadsJSON Demo.storeTwo "b" "k"))).
  - reflexivity.
  - vm_compute. reflexivity.
  - reflexivity.
  - vm_compute. reflexivity.
  - intros p t. reflexivity.
  - vm_compute. reflexivity.
  - eapply (bool_decide_unpack (NoDup _)). vm_compute. exact I.
Defined.

Lemma listObjectParts_after_newMultipartUpload_witness :
  listObjectParts Demo.env0
    (fst (newMultipartUpload Demo.env0 Demo.store0 "b" "k" None))
    "b" "k" "U1" 7 10
  = Ok {| lp_Bucket := "b"; lp_Object := "k"; lp_UploadID := "U1";
          lp_PartNumberMarker := 0; lp_NextPartNumberMarker := 0;
          lp_MaxParts := 10; lp_IsTruncated := false; lp_Parts := [] |}.
Proof.
  apply (listObjectParts_after_newMultipartUpload Demo.env0 Demo.store0 _
           "b" "k" None "U1" 7 10).
  - vm_compute. reflexivity.
  - reflexivity.
Defined.

(** ** Listing the parts, page by page *)

Lemma ordered_lookup_lt (ps : list objectPartInfo) (i j : nat)
    (p q : objectPartInfo) :
  partsOrdered ps → ps !! i = Some p → ps !! j = Some q → (i < j)%nat →
  Number p < Number q.
Proof.
  intros [Hnd Hsorted] Hi Hj Hij.
  apply (Sorted_StronglySorted Z.le) in Hsorted.
  pose proof (sorted_lookup_le ps Hsorted j i q p Hj Hi Hij) as Hle.
  destruct (decide (Number p = Number q)) as [Heq|]; [|lia]. exfalso.
  assert (i = j); [|lia].
  eapply (NoDup_lookup (Number <$> ps) i j (Number p)); [done|..].
  - by rewrite list_lookup_fmap, Hi.
  - rewrite list_lookup_fmap, Hj. cbn. by rewrite Heq.
Qed.

Lemma filter_parts_none (P : objectPartInfo → Prop) `{!∀ x, Decision (P x)}
    (ps : list objectPartInfo) :
  (∀ q, q ∈ ps → ¬ P q) → filter P ps = [].
Proof.
  induction ps as [|p ps IH]; intros Hall; [done|].
  rewrite filter_cons_False by (apply Hall, list_elem_of_here).
  apply IH. intros q Hq. by apply Hall, list_elem_of_further.
Qed.

Lemma filter_parts_all (P : objectPartInfo → Prop) `{!∀ x, Decision (P x)}
    (ps : list objectPartInfo) :
  (∀ q, q ∈ ps → P q) → filter P ps = ps.
Proof.
  induction ps as [|p ps IH]; intros Hall; [done|].
  rewrite filter_cons_True by (apply Hall, list_elem_of_here).
  f_equal. apply IH. intros q Hq. by apply Hall, list_elem_of_further.
Qed.

(** In an ordered list the parts numbered above the one at position [j]
    are the ones that stand after it. *)
Lemma filter_above_drop (ps : list objectPartInfo) (j : nat) (p : objectPartInfo) :
  partsOrdered ps → ps !! j = Some p →
  filter (λ q, Number p < Number q) ps = drop (S j) ps.
Proof.
  intros Hord Hj.
  rewrite <-(take_drop (S j) ps) at 1. rewrite filter_app.
  rewrite filter_parts_none, filter_parts_all; [done| |].
  - intros q [i Hi]%list_elem_of_lookup. rewrite lookup_drop in Hi.
    eapply (ordered_lookup_lt ps j (S j + i)); [done..|lia].
  - intros q [i Hi]%list_elem_of_lookup.
    apply lookup_take_Some in Hi as [Hi Hlt].
    destruct (decide (i = j)) as [->|Hne].
    + rewrite Hj in Hi. injection Hi as <-. lia.
    + pose proof (ordered_lookup_lt ps i j q p Hord Hi Hj ltac:(lia)). lia.
Qed.

(** The marker is the number of a stored part, or is below every stored
    number (as 0 is for a first page). *)
Definition markerFits (m : xlMetaV1) (marker : Z) : Prop :=
  marker ∈ Number <$> Parts m ∨ ∀ p, p ∈ Parts m → marker < Number p.

Lemma afterMarker_drop (m : xlMetaV1) (marker : Z) :
  ∃ j, afterMarker m marker = drop j (Parts m).
Proof.
  unfold afterMarker. case_decide; [eauto|]. by exists 0%nat.
Qed.

(** With ordered parts and a marker that fits, the window of a listing is
    the parts numbered above the marker. *)
Lemma afterMarker_above (m : xlMetaV1) (marker : Z) :
  partsOrdered (Parts m) → markerFits m marker →
  afterMarker m marker = filter (λ q, marker < Number q) (Parts m).
Proof.
  intros Hord [Hin|Hall]; unfold afterMarker, ObjectPartIndex.
  - assert (partIndexFrom 0 (Parts m) marker ≠ -1) as Hidx.
    { intros H. by apply partIndexFrom_none in H. }
    rewrite decide_True by done.
    destruct (partIndexFrom_lookup 0 (Parts m) marker ltac:(lia) Hidx)
      as (p & Hp & Hnum & _).
    rewrite Z.sub_0_r in Hp.
    pose proof (partIndexFrom_range 0 (Parts m) marker ltac:(lia)) as [?|?];
      [done|].
    replace (Z.to_nat (partIndexFrom 0 (Parts m) marker + 1))
      with (S (Z.to_nat (partIndexFrom 0 (Parts m) marker))) by lia.
    rewrite <-(filter_above_drop _ _ p Hord Hp). by rewrite Hnum.
  - assert (partIndexFrom 0 (Parts m) marker = -1) as Hidx.
    { apply partIndexFrom_none; [lia|].
      intros (p & Hnum & Hp)%list_elem_of_fmap. specialize (Hall p Hp). lia. }
    rewrite decide_False by (intros H; by apply H).
    symmetry. by apply filter_parts_all.
Qed.

Lemma Forall2_shows_last (ps : list objectPartInfo) (infos : list partInfo)
    (x : partInfo) :
  Forall2 shows ps infos → last infos = Some x →
  ∃ p, last ps = Some p ∧ pi_PartNumber x = Number p.
Proof.
  intros Hall. induction Hall as [|p i ps infos Hpi Hall IH]; [done|].
  destruct Hall as [|p' i' ps' infos' Hpi' Hall'].
  - cbn. intros [= <-]. exists p. split; [done|]. apply Hpi.
  - intros Hlast. apply IH. exact Hlast.
Qed.

(** The parts numbered above a marker. *)
Definition partsAbove (m : xlMetaV1) (marker : Z) : list objectPartInfo :=
  filter (λ q, marker < Number q) (Parts m).

(** The page of a listing, for any outcome of the empty-parts test. *)
Lemma listObjectParts_page_of (e : env) (s : store)
    (bucket object uploadID : string) (marker maxParts : Z)
    (d : objectDir) (m : xlMetaV1) :
  nameCheck e s bucket object = None →
  getDir s (UploadDir bucket object uploadID) = Some d →
  xlJSON d = Some m →
  fault e p_readXLMetadata (UploadDir bucket object uploadID) = None →
  fault e p_statPart (UploadDir bucket object uploadID) = None →
  (∀ q, q ∈ Parts m → is_Some (files d !! Name q)) →
  partsOrdered (Parts m) → markerFits m marker →
  0 < Z.min maxParts (maxPartsList e) < 2 ^ 63 →
  ∃ r, listObjectParts e s bucket object uploadID marker maxParts = Ok r
       ∧ Forall2 shows
           (take (Z.to_nat (Z.min maxParts (maxPartsList e)))
              (partsAbove m marker))
           (lp_Parts r)
       ∧ (lp_IsTruncated r = true
          ↔ (Z.to_nat (Z.min maxParts (maxPartsList e))
             < length (partsAbove m marker))%nat)
       ∧ (lp_IsTruncated r = true →
          ∃ p, last (take (Z.to_nat (Z.min maxParts (maxPartsList e)))
                       (partsAbove m marker)) = Some p
               ∧ lp_NextPartNumberMarker r = Number p).
Proof.
  intros Hnames Hd Hm Hfr Hfs Hfiles Hord Hfits Hcount.
  pose proof Hnames as (Hb & Hbe & Ho)%nameCheck_None.
  unfold partsAbove. rewrite <-(afterMarker_above m marker Hord Hfits).
  destruct (decide (Parts m = [])) as [Hnil|Hne].
  - exists {| lp_Bucket := bucket; lp_Object := object; lp_UploadID := uploadID;
              lp_PartNumberMarker := 0; lp_NextPartNumberMarker := 0;
              lp_MaxParts := maxParts; lp_IsTruncated := false; lp_Parts := [] |}.
    assert (afterMarker m marker = []) as ->.
    { destruct (afterMarker_drop m marker) as [j ->]. by rewrite Hnil, drop_nil. }
    rewrite take_nil. cbn [lp_Parts lp_IsTruncated length].
    split_and!; [|constructor|split; [done|lia]|done].
    unfold listObjectParts, isUploadIDExists, isObject, readXLMetadata, readMeta.
    rewrite Hb, Hbe, Ho, Hd, Hm, Hfr. cbn [negb].
    by rewrite Hnil.
  - destruct (listObjectParts_window e s bucket object uploadID marker maxParts
                d m Hb Hbe Ho Hd Hm Hfr Hfs
                (λ q Hq, Hfiles q (afterMarker_subseteq m marker q Hq)) Hne Hcount)
      as (r & Hr & Hshows & Htrunc & Hnext).
    exists r. split; [done|]. split; [done|].
    pose proof (Forall2_length _ _ _ Hshows) as Hlen.
    rewrite length_take in Hlen. split.
    + rewrite Htrunc. lia.
    + intros Ht. destruct (Hnext Ht) as [Hlast ->].
      destruct (Forall2_shows_last _ _ _ Hshows Hlast) as (p & Hp & Hnum).
      eauto.
Qed.

(** X18.  With the parts of the upload in ascending order without
    duplicates, every listed part file present and a marker that is the
    number of a stored part or lies below all of them, ListObjectParts
    returns the parts numbered above the marker, in ascending order, the
    first min(maxParts, maxPartsList) of them; IsTruncated tells exactly
    that more remain, and NextPartNumberMarker is then the number of the
    last part listed. *)
Theorem listObjectParts_page (e : env) (s : store)
    (bucket object uploadID : string) (marker maxParts : Z)
    (d : objectDir) (m : xlMetaV1) :
  nameCheck e s bucket object = None →
  getDir s (UploadDir bucket object uploadID) = Some d →
  xlJSON d = Some m →
  fault e p_readXLMetadata (UploadDir bucket object uploadID) = None →
  fault e p_statPart (UploadDir bucket object uploadID) = None →
  (∀ q, q ∈ Parts m → is_Some (files d !! Name q)) →
  partsOrdered (Parts m) → markerFits m marker →
  0 < Z.min maxParts (maxPartsList e) < 2 ^ 63 →
  ∃ r, listObjectParts e s bucket object uploadID marker maxParts = Ok r
       ∧ Forall2 shows
           (take (Z.to_nat (Z.min maxParts (maxPartsList e)))
              (partsAbove m marker))
           (lp_Parts r)
       ∧ (lp_IsTruncated r = true
          ↔ (Z.to_nat (Z.min maxParts (maxPartsList e))
             < length (partsAbove m marker))%nat)
       ∧ (lp_IsTruncated r = true →
          ∃ p, last (take (Z.to_nat (Z.min maxParts (maxPartsList e)))
                       (partsAbove m marker)) = Some p
               ∧ lp_NextPartNumberMarker r = Number p).
Proof. apply listObjectParts_page_of. Qed.

Lemma listObjectParts_page_witness :
  ∃ r, listObjectParts Demo.env0 Demo.store4 "b" "k" "U1" 1 1 = Ok r
       ∧ Forall2 shows
           (take (Z.to_nat (Z.min 1 (maxPartsList Demo.env0)))
              (partsAbove (default newXLMetaV1
                           (metaAt Demo.store4 (UploadDir "b" "k" "U1"))) 1))
           (lp_Parts r)
       ∧ (lp_IsTruncated r = true
          ↔ (Z.to_nat (Z.min 1 (maxPartsList Demo.env0))
             < length (partsAbove (default newXLMetaV1
                                   (metaAt Demo.store4
                                      (UploadDir "b" "k" "U1"))) 1))%nat)
       ∧ (lp_IsTruncated r = true →
          ∃ p, last (take (Z.to_nat (Z.min 1 (maxPartsList Demo.env0)))
                       (partsAbove (default newXLMetaV1
                                    (metaAt Demo.store4
                                       (UploadDir "b" "k" "U1"))) 1))
               = Some p
               ∧ lp_NextPartNumberMarker r = Number p).
Proof.
  apply (listObjectParts_page Demo.env0 Demo.store4 "b" "k" "U1" 1 1
           (default emptyDir (getDir Demo.store4 (UploadDir "b" "k" "U1")))
           (default newXLMetaV1 (metaAt Demo.store4 (UploadDir "b" "k" "U1")))).
  - vm_compute. reflexivity.
  - vm_compute. reflexivity.
  - vm_compute. reflexivity.
  - reflexivity.
  - reflexivity.
  - apply Forall_forall. eapply bool_decide_unpack. vm_compute. exact I.
  - eapply (bool_decide_unpack (partsOrdered _)). vm_compute. exact I.
  - left. eapply bool_decide_unpack. vm_compute. exact I.
  - vm_compute. split; reflexivity.
Defined.

(** A first page of one part out of three, from the start. *)
Example listObjectParts_first_page :
  (λ r, (pi_PartNumber <$> lp_Parts r, lp_IsTruncated r,
         lp_NextPartNumberMarker r))
    <$> match listObjectParts Demo.env0 Demo.store4 "b" "k" "U1" 0 2 with
        | Ok r => Some r
        | Err _ => None
        end
  = Some ([1; 2], true, 2).
Proof. vm_compute. reflexivity. Qed.

(** X19.  Pages follow one another.  Under the conditions of the page
    property, when a listing is truncated, the listing that takes its
    NextPartNumberMarker as marker (same maxParts) shows the parts that
    come right after the ones already listed: nothing is skipped and
    nothing is listed twice. *)
Theorem listObjectParts_next_page (e : env) (s : store)
    (bucket object uploadID : string) (marker maxParts : Z)
    (d : objectDir) (m : xlMetaV1) (r1 : ListPartsInfo) :
  nameCheck e s bucket object = None →
  getDir s (UploadDir bucket object uploadID) = Some d →
  xlJSON d = Some m →
  fault e p_readXLMetadata (UploadDir bucket object uploadID) = None →
  fault e p_statPart (UploadDir bucket object uploadID) = None →
  (∀ q, q ∈ Parts m → is_Some (files d !! Name q)) →
  partsOrdered (Parts m) → markerFits m marker →
  0 < Z.min maxParts (maxPartsList e) < 2 ^ 63 →
  listObjectParts e s bucket object uploadID marker maxParts = Ok r1 →
  lp_IsTruncated r1 = true →
  ∃ r2, listObjectParts e s bucket object uploadID (lp_NextPartNumberMarker r1)
          maxParts = Ok r2
        ∧ Forall2 shows
            (take (Z.to_nat (Z.min maxParts (maxPartsList e)))
               (drop (Z.to_nat (Z.min maxParts (maxPartsList e)))
                  (partsAbove m marker)))
            (lp_Parts r2)
        ∧ (lp_IsTruncated r2 = true
           ↔ (2 * Z.to_nat (Z.min maxParts (maxPartsList e))
              < length (partsAbove m marker))%nat).
Proof.
  intros Hnames Hd Hm Hfr Hfs Hfiles Hord Hfits Hcount Hr1 Ht1.
  set (k := Z.to_nat (Z.min maxParts (maxPartsList e))).
  destruct (listObjectParts_page_of e s bucket object uploadID marker maxParts
              d m Hnames Hd Hm Hfr Hfs Hfiles Hord Hfits Hcount)
    as (r & Hr & _ & Htrunc & Hnext).
  rewrite Hr1 in Hr. injection Hr as <-.
  apply Htrunc in Ht1 as Hlong. destruct (Hnext Ht1) as (p & Hlast & Hn1).
  fold k in Hlong, Hlast. unfold partsAbove in *.
  rewrite <-(afterMarker_above m marker Hord Hfits) in *.
  destruct (afterMarker_drop m marker) as [j0 Hwin]. rewrite Hwin in *.
  (* the last part of the first page, as a part of the upload *)
  rewrite last_lookup, length_take, lookup_take_Some in Hlast.
  destruct Hlast as [Hlast _]. rewrite lookup_drop in Hlast.
  replace (Init.Nat.pred (k `min` length (drop j0 (Parts m)))) with (k - 1)%nat
    in Hlast by lia.
  assert (0 < k)%nat as Hk by lia.
  assert (markerFits m (lp_NextPartNumberMarker r1)) as Hfits2.
  { left. rewrite Hn1. apply list_elem_of_fmap. exists p. split; [done|].
    by eapply list_elem_of_lookup_2. }
  destruct (listObjectParts_page_of e s bucket object uploadID
              (lp_NextPartNumberMarker r1) maxParts
              d m Hnames Hd Hm Hfr Hfs Hfiles Hord Hfits2 Hcount)
    as (r2 & Hr2 & Hshows2 & Htrunc2 & _).
  fold k in Hshows2, Htrunc2.
  unfold partsAbove in Hshows2, Htrunc2.
  assert (filter (λ q, lp_NextPartNumberMarker r1 < Number q) (Parts m)
          = drop k (drop j0 (Parts m))) as Heq.
  { rewrite Hn1, (filter_above_drop _ _ p Hord Hlast), drop_drop.
    f_equal. lia. }
  rewrite Heq in Hshows2, Htrunc2.
  exists r2. split; [done|]. split; [done|].
  rewrite Htrunc2, length_drop. lia.
Qed.

Lemma listObjectParts_next_page_witness :
  ∃ r2, listObjectParts Demo.env0 Demo.store4 "b" "k" "U1" 1 1 = Ok r2
        ∧ Forall2 shows
            (take (Z.to_nat (Z.min 1 (maxPartsList Demo.env0)))
               (drop (Z.to_nat (Z.min 1 (maxPartsList Demo.env0)))
                  (partsAbove (default newXLMetaV1
                               (metaAt Demo.store4 (UploadDir "b" "k" "U1"))) 0)))
            (lp_Parts r2)
        ∧ (lp_IsTruncated r2 = true
           ↔ (2 * Z.to_nat (Z.min 1 (maxPartsList Demo.env0))
              < length (partsAbove (default newXLMetaV1
                                    (metaAt Demo.store4
                                       (UploadDir "b" "k" "U1"))) 0))%nat).
Proof.
  apply (listObjectParts_next_page Demo.env0 Demo.store4 "b" "k" "U1" 0 1
           (default emptyDir (getDir Demo.store4 (UploadDir "b" "k" "U1")))
           (default newXLMetaV1 (metaAt Demo.store4 (UploadDir "b" "k" "U1")))
           {| lp_Bucket := "b"; lp_Object := "k"; lp_UploadID := "U1";
              lp_PartNumberMarker := 0; lp_NextPartNumberMarker := 1;
              lp_MaxParts := 1; lp_IsTruncated := true;
              lp_Parts := [{| pi_PartNumber := 1; pi_ETag := Demo.etag_abc;
                              pi_LastModified := now Demo.env0;
                              pi_Size := 6 * Demo.MiB |}] |}).
  - vm_compute. reflexivity.
  - vm_compute. reflexivity.
  - vm_compute. reflexivity.
  - reflexivity.
  - reflexivity.
  - apply Forall_forall. eapply bool_decide_unpack. vm_compute. exact I.
  - eapply (bool_decide_unpack (partsOrdered _)). vm_compute. exact I.
  - right. apply Forall_forall. eapply bool_decide_unpack. vm_compute. exact I.
  - vm_compute. split; reflexivity.
  - vm_compute. reflexivity.
  - reflexivity.
Defined.

(** ** The counter of the listing loop *)

Lemma wrap64_range (z : Z) : - 2 ^ 63 ≤ wrap64 z < 2 ^ 63.
Proof.
  unfold wrap64.
  change (2 ^ 63) with 9223372036854775808.
  change (2 ^ 64) with 18446744073709551616.
  pose proof (Z.mod_pos_bound (z + 9223372036854775808) 18446744073709551616
                ltac:(lia)).
  lia.
Qed.

Lemma wrap64_pred (count : Z) :
  0 < (count - 1) mod 2 ^ 64 →
  wrap64 (count - 1) ≠ 0
  ∧ (wrap64 (count - 1) - 1) mod 2 ^ 64 = (count - 1) mod 2 ^ 64 - 1.
Proof.
  unfold wrap64.
  change (2 ^ 63) with 9223372036854775808.
  change (2 ^ 64) with 18446744073709551616.
  intros Hpos. Z.div_mod_to_equations. lia.
Qed.

(** A counter that does not reach zero within the parts lets the loop
    show all of them. *)
Lemma listLoop_all (e : env) (s : store) (dir : path) (d : objectDir) :
  fault e p_statPart dir = None →
  getDir s dir = Some d →
  ∀ (parts : list objectPartInfo) (count : Z) (acc : list partInfo),
    (∀ q, q ∈ parts → is_Some (files d !! Name q)) →
    Z.of_nat (length parts) ≤ (count - 1) mod 2 ^ 64 →
    ∃ infos, listLoop e s dir count parts acc = Ok (acc ++ infos)
             ∧ Forall2 shows parts infos.
Proof.
  intros Hfault Hd.
  induction parts as [|p parts IH]; intros count acc Hfiles Hcount.
  - exists []. cbn. rewrite app_nil_r. by split.
  - cbn [listLoop]. unfold statPart. rewrite Hfault, Hd.
    destruct (Hfiles p ltac:(apply list_elem_of_here)) as [f ->].
    cbn [length] in Hcount.
    destruct (wrap64_pred count ltac:(lia)) as [Hne Hpred].
    rewrite decide_False by done.
    edestruct (IH (wrap64 (count - 1))) as (infos & -> & Hinfos).
    { intros q Hq. apply Hfiles. by apply list_elem_of_further. }
    { rewrite Hpred. lia. }
    eexists (_ :: infos). rewrite <-app_assoc. split; [done|].
    by repeat constructor.
Qed.

(** X21.  A negative maxParts is no limit at all: it is not zero, it is
    not above maxPartsList, and the counter that starts from it is
    decremented away from zero.  With fewer than 2^63 parts, every part of
    the window is listed, more than maxPartsList of them if there are, and
    the listing is not truncated. *)
Theorem listObjectParts_negative_maxParts (e : env) (s : store)
    (bucket object uploadID : string) (marker maxParts : Z)
    (d : objectDir) (m : xlMetaV1) :
  nameCheck e s bucket object = None →
  getDir s (UploadDir bucket object uploadID) = Some d →
  xlJSON d = Some m →
  fault e p_readXLMetadata (UploadDir bucket object uploadID) = None →
  fault e p_statPart (UploadDir bucket object uploadID) = None →
  (∀ q, q ∈ Parts m → is_Some (files d !! Name q)) →
  - 2 ^ 63 ≤ maxParts < 0 →
  0 ≤ maxPartsList e →
  Z.of_nat (length (Parts m)) < 2 ^ 63 →
  ∃ r, listObjectParts e s bucket object uploadID marker maxParts = Ok r
       ∧ Forall2 shows (afterMarker m marker) (lp_Parts r)
       ∧ lp_IsTruncated r = false
       ∧ lp_MaxParts r = maxParts.
Proof.
  intros (Hb & Hbe & Ho)%nameCheck_None Hd Hm Hfr Hfs Hfiles Hneg Hcap Hlen.
  unfold listObjectParts, isUploadIDExists, isObject, readXLMetadata, readMeta.
  rewrite Hb, Hbe, Ho, Hd, Hm, Hfr. cbn [negb].
  destruct (bool_decide (length (Parts m) = 0%nat)) eqn:Hempty; cbn [orb].
  - apply bool_decide_eq_true in Hempty.
    assert (afterMarker m marker = []) as ->.
    { destruct (afterMarker_drop m marker) as [j ->].
      destruct (Parts m); [by rewrite drop_nil|done]. }
    eexists. split; [reflexivity|]. cbn. by split; [constructor|].
  - rewrite bool_decide_eq_false_2 by lia.
    fold (afterMarker m marker).
    replace (if maxPartsList e <? maxParts then maxPartsList e else maxParts)
      with maxParts by (destruct (Z.ltb_spec (maxPartsList e) maxParts); lia).
    assert (length (afterMarker m marker) ≤ length (Parts m))%nat as Hwin.
    { destruct (afterMarker_drop m marker) as [j ->]. rewrite length_drop. lia. }
    destruct (listLoop_all e s _ d Hfs Hd (afterMarker m marker) maxParts [])
      as (infos & -> & Hinfos).
    { intros q Hq. apply Hfiles. exact (afterMarker_subseteq m marker q Hq). }
    { revert Hneg Hlen Hwin.
      change (2 ^ 63) with 9223372036854775808.
      change (2 ^ 64) with 18446744073709551616.
      intros. Z.div_mod_to_equations. lia. }
    cbn [app]. pose proof (Forall2_length _ _ _ Hinfos) as Hsame.
    rewrite decide_False by lia.
    eexists. split; [reflexivity|]. cbn. by split.
Qed.

Lemma listObjectParts_negative_maxParts_witness :
  ∃ r, listObjectParts (Demo.withUUID "U1" Demo.env0) Demo.store4 "b" "k" "U1"
         0 (-1) = Ok r
       ∧ Forall2 shows
           (afterMarker (default newXLMetaV1
                           (metaAt Demo.store4 (UploadDir "b" "k" "U1"))) 0)
           (lp_Parts r)
       ∧ lp_IsTruncated r = false
       ∧ lp_MaxParts r = -1.
Proof.
  apply (listObjectParts_negative_maxParts (Demo.withUUID "U1" Demo.env0)
           Demo.store4 "b" "k" "U1" 0 (-1)
           (default emptyDir (getDir Demo.store4 (UploadDir "b" "k" "U1")))
           (default newXLMetaV1 (metaAt Demo.store4 (UploadDir "b" "k" "U1")))).
  - vm_compute. reflexivity.
  - vm_compute. reflexivity.
  - vm_compute. reflexivity.
  - reflexivity.
  - reflexivity.
  - apply Forall_forall. eapply bool_decide_unpack. vm_compute. exact I.
  - vm_compute. split; [discriminate|reflexivity].
  - vm_compute. discriminate.
  - vm_compute. reflexivity.
Defined.

(** The three parts of the example, listed with maxParts -1. *)
Example listObjectParts_minus_one :
  (λ r, (pi_PartNumber <$> lp_Parts r, lp_IsTruncated r, lp_MaxParts r))
    <$> match listObjectParts Demo.env0 Demo.store4 "b" "k" "U1" 0 (-1) with
        | Ok r => Some r
        | Err _ => None
        end
  = Some ([1; 2; 3], false, -1).
Proof. vm_compute. reflexivity. Qed.

(** ** A part without its file *)

Lemma listLoop_missing (e : env) (s : store) (dir : path) (d : objectDir)
    (p : objectPartInfo) (rest : list objectPartInfo) :
  fault e p_statPart dir = None →
  getDir s dir = Some d →
  files d !! Name p = None →
  ∀ (pre : list objectPartInfo) (count : Z) (acc : list partInfo),
    (∀ q, q ∈ pre → is_Some (files d !! Name q)) →
    Z.of_nat (length pre) < count < 2 ^ 63 →
    listLoop e s dir count (pre ++ p :: rest) acc
    = Err (toObjectErr errFileNotFound minioMetaBucket
             (pathJoin [pathName dir; Name p])).
Proof.
  intros Hfault Hd Hp.
  induction pre as [|q pre IH]; intros count acc Hfiles Hcount.
  - cbn [app listLoop]. unfold statPart. by rewrite Hfault, Hd, Hp.
  - cbn [app listLoop]. unfold statPart. rewrite Hfault, Hd.
    destruct (Hfiles q ltac:(apply list_elem_of_here)) as [f ->].
    cbn [length] in Hcount. rewrite wrap64_small by lia.
    rewrite decide_False by lia.
    apply IH; [|lia]. intros q' Hq'. apply Hfiles. by apply list_elem_of_further.
Qed.

(** X22.  A listing is all or nothing: when a part within the page has no
    file in the upload directory (the parts before it in the window have
    theirs), ListObjectParts returns no part at all but the file-not-found
    error of that part, translated for its path. *)
Theorem listObjectParts_missing_part_file (e : env) (s : store)
    (bucket object uploadID : string) (marker maxParts : Z)
    (d : objectDir) (m : xlMetaV1)
    (pre : list objectPartInfo) (p : objectPartInfo) (rest : list objectPartInfo) :
  nameCheck e s bucket object = None →
  getDir s (UploadDir bucket object uploadID) = Some d →
  xlJSON d = Some m →
  fault e p_readXLMetadata (UploadDir bucket object uploadID) = None →
  fault e p_statPart (UploadDir bucket object uploadID) = None →
  afterMarker m marker = pre ++ p :: rest →
  (∀ q, q ∈ pre → is_Some (files d !! Name q)) →
  files d !! Name p = None →
  Z.of_nat (length pre) < Z.min maxParts (maxPartsList e) < 2 ^ 63 →
  listObjectParts e s bucket object uploadID marker maxParts
  = Err (toObjectErr errFileNotFound minioMetaBucket
           (pathJoin [pathName (UploadDir bucket object uploadID); Name p])).
Proof.
  intros (Hb & Hbe & Ho)%nameCheck_None Hd Hm Hfr Hfs Hwin Hpre Hp Hcount.
  unfold listObjectParts, isUploadIDExists, isObject, readXLMetadata, readMeta.
  rewrite Hb, Hbe, Ho, Hd, Hm, Hfr. cbn [negb].
  assert (Parts m ≠ []) as Hne.
  { intros Hnil. destruct (afterMarker_drop m marker) as [j Hj].
    rewrite Hnil, drop_nil in Hj. rewrite Hj in Hwin. by destruct pre. }
  rewrite bool_decide_eq_false_2 by (by destruct (Parts m)).
  rewrite bool_decide_eq_false_2 by lia. cbn [orb].
  fold (afterMarker m marker). rewrite Hwin.
  replace (if maxPartsList e <? maxParts then maxPartsList e else maxParts)
    with (Z.min maxParts (maxPartsList e))
    by (destruct (Z.ltb_spec (maxPartsList e) maxParts); lia).
  by rewrite (listLoop_missing e s _ d p rest Hfs Hd Hp pre _ [] Hpre Hcount).
Qed.

Lemma listObjectParts_missing_part_file_witness :
  listObjectParts Demo.env0
    (removeObjectPart "b" "k" "U1" (partSuffixOf 2) Demo.store4)
    "b" "k" "U1" 0 10
  = Err (toObjectErr errFileNotFound minioMetaBucket
           (pathJoin [pathName (UploadDir "b" "k" "U1");
                      Name {| Number := 2; Name := partSuffixOf 2;
                              ETag := Demo.etag_hello; Size := 11 |}])).
Proof.
  apply (listObjectParts_missing_part_file Demo.env0
           (removeObjectPart "b" "k" "U1" (partSuffixOf 2) Demo.store4)
           "b" "k" "U1" 0 10
           (default emptyDir
              (getDir (removeObjectPart "b" "k" "U1" (partSuffixOf 2) Demo.store4)
                 (UploadDir "b" "k" "U1")))
           (default newXLMetaV1 (metaAt Demo.store4 (UploadDir "b" "k" "U1")))
           [{| Number := 1; Name := partSuffixOf 1; ETag := Demo.etag_abc;
               Size := 6 * Demo.MiB |}]
           {| Number := 2; Name := partSuffixOf 2; ETag := Demo.etag_hello;
              Size := 11 |}
           [{| Number := 3; Name := partSuffixOf 3; ETag := Demo.etag_xyz;
               Size := 6 * Demo.MiB |}]).
  - vm_compute. reflexivity.
  - vm_compute. reflexivity.
  - vm_compute. reflexivity.
  - reflexivity.
  - reflexivity.
  - vm_compute. reflexivity.
  - apply Forall_forall. eapply bool_decide_unpack. vm_compute. exact I.
  - vm_compute. reflexivity.
  - vm_compute. split; reflexivity.
Defined.

(** ** What a stored part changes in the record of the upload *)

(** X23.  A successful PutObjectPart writes the record of the upload back
    with its parts changed and nothing else: the stat of the record (size,
    modification time and version) and its metadata are the ones read at
    the start of the call.  The higher version is set on the copy picked
    for the call (line 190) and only the parts of that copy are handed to
    the records that are written (lines 206-210). *)
Theorem putObjectPart_keeps_stat_and_meta (e : env) (s s' : store)
    (bucket object uploadID : string) (partID size : Z) (data : Reader)
    (md5Hex etag : string) :
  putObjectPart e s bucket object uploadID partID size data md5Hex
  = Some (s', Ok etag) →
  ∃ m m', metaAt s (UploadDir bucket object uploadID) = Some m
          ∧ metaAt s' (UploadDir bucket object uploadID) = Some m'
          ∧ Stat m' = Stat m ∧ Meta m' = Meta m
          ∧ Parts m' = Parts (AddObjectPart m partID (partSuffixOf partID)
                                etag size).
Proof.
  intros (xlMeta & fs & Hread & _ & _ & _ & Hd')%putObjectPart_Ok.
  apply readMeta_Ok in Hread as (_ & d0 & Hd0 & Hm).
  eexists xlMeta, _. unfold metaAt. rewrite Hd0, Hd'. cbn [xlJSON].
  by split_and!.
Qed.

Lemma putObjectPart_keeps_stat_and_meta_witness :
  ∃ m m', metaAt Demo.store2 (UploadDir "b" "k" "U1") = Some m
          ∧ metaAt (Demo.afterPut Demo.store2
                      (putObjectPart Demo.env0 Demo.store2 "b" "k" "U1" 2 11
                         (Demo.reader "hello world") ""))
              (UploadDir "b" "k" "U1") = Some m'
          ∧ Stat m' = Stat m ∧ Meta m' = Meta m
          ∧ Parts m' = Parts (AddObjectPart m 2 (partSuffixOf 2)
                                Demo.etag_hello 11).
Proof.
  apply (putObjectPart_keeps_stat_and_meta Demo.env0 Demo.store2 _ "b" "k" "U1"
           2 11 (Demo.reader "hello world") "" Demo.etag_hello).
  vm_compute. reflexivity.
Defined.

(** The version of the record after Initiate and after two parts. *)
Example putObjectPart_version :
  (λ m, st_Version (Stat m)) <$> metaAt Demo.store1 (UploadDir "b" "k" "U1")
  = (λ m, st_Version (Stat m)) <$> metaAt Demo.store3 (UploadDir "b" "k" "U1").
Proof. vm_compute. reflexivity. Qed.

(** ** A part and then its listing *)








